(** * Upload / validation / storage / conversion core

    A shallow embedding of the backend services of the repository:
    - [services/fileUpload/fileUploadService.ts]   (PNG upload pipeline)
    - [services/pdfUpload/pdfUploadService.ts]     (PDF upload pipeline)
    - [services/pngConversion/pngConversionService.ts] (PNG -> base64)
    - [instances/fileUpload/fileUploadStore.ts], [instances/pdfUpload/pdfUploadStore.ts]
    - [constants/fileUpload/fileUploadLimits.ts], [constants/pdfUpload/pdfUploadLimits.ts]

    Node [Buffer]s are lists of bytes, JS [Map]s are [gmap]s keyed by the record
    id, thrown values are an explicit inductive type, and every service function
    is a state-passing function over the singleton store it mutates. *)

From Stdlib Require Import ZArith QArith Qround Strings.Byte Ascii String List Lia.
From stdpp Require Import gmap strings list fin_maps pretty.

Local Open Scope string_scope.
Local Open Scope Z_scope.

(** ** Thrown values *)

(** What a [throw] can carry: a native error ([Error], [RangeError], with the
    Node error code when it has one) or the application's [ServiceError]
    ([new ServiceError(code, message, statusCode, details?)]). *)
Inductive Thrown : Type :=
| NativeError (name : string) (code : option string) (message : string)
| ServiceError (code : string) (message : string) (statusCode : Z) (details : Details)
with Details : Type :=
| NoDetails
| Cause (e : Thrown)
| CorruptionInfo (corruptionType : option string)
| IntegrityInfo (expectedSize actualSize difference : Z)
| ZodIssues.

(** [error instanceof ServiceError] *)
Definition isServiceError (e : Thrown) : bool :=
  match e with ServiceError _ _ _ _ => true | NativeError _ _ _ => false end.

(** [error instanceof RangeError] *)
Definition isRangeError (e : Thrown) : bool :=
  match e with
  | NativeError name _ _ => bool_decide (name = "RangeError")
  | ServiceError _ _ _ _ => false
  end.

(** [(error as any).code] *)
Definition errorCode (e : Thrown) : option string :=
  match e with
  | NativeError _ c _ => c
  | ServiceError c _ _ _ => Some c
  end.

Definition errorDetails (e : Thrown) : Details :=
  match e with
  | NativeError _ _ _ => NoDetails
  | ServiceError _ _ _ d => d
  end.

Definition statusCode (e : Thrown) : option Z :=
  match e with
  | NativeError _ _ _ => None
  | ServiceError _ _ s _ => Some s
  end.

(** ** Outcome of a computation

    [Ok] is a normal return, [Throw] an exception, and [Hang] an [await] on a
    promise that never settles (a request stream that neither ends, errors nor
    overflows).  [try ... catch] intercepts [Throw] only. *)
Inductive outcome (A : Type) : Type :=
| Ok (a : A)
| Throw (e : Thrown)
| Hang.
Arguments Ok {A} a.
Arguments Throw {A} e.
Arguments Hang {A}.

Definition obind {A B} (m : outcome A) (k : A -> outcome B) : outcome B :=
  match m with
  | Ok a => k a
  | Throw e => Throw e
  | Hang => Hang
  end.

Definition try_catch {A} (m : outcome A) (handler : Thrown -> outcome A) : outcome A :=
  match m with
  | Throw e => handler e
  | _ => m
  end.

Declare Scope outcome_scope.
Delimit Scope outcome_scope with outcome.
Notation "'let*' x ':=' m 'in' k" := (obind m (fun x => k))
  (at level 10, x pattern, m at level 100, k at level 200) : outcome_scope.
Local Open Scope outcome_scope.

Definition thrownCode {A} (r : outcome A) : option string :=
  match r with Throw e => errorCode e | _ => None end.

(** ** Node [Buffer] *)

#[global] Instance byte_eq_decision : EqDecision byte := Byte.byte_eq_dec.

Module Buffer.

Abbreviation t := (list byte).

(** [buffer.length] *)
Definition length (b : t) : Z := Z.of_nat (List.length b).

(** [buffer.subarray(0, n)] for [0 <= n] *)
Definition subarray0 (b : t) (n : Z) : t := take (Z.to_nat n) b.

(** [a.equals(b)] *)
Definition equals (a b : t) : bool := bool_decide (a = b).

(** [Buffer.concat(chunks)] *)
Definition concat (chunks : list t) : t := List.concat chunks.

Definition byteAt (b : t) (i : Z) : option Z :=
  if i <? 0 then None else (fun x => Z.of_N (Byte.to_N x)) <$> (b !! Z.to_nat i).

(** The [RangeError] Node raises from [boundsError(offset, length - width)]
    for an integral offset (messages abridged). *)
Definition boundsError (b : t) (width : Z) : Thrown :=
  if length b - width <? 0
  then NativeError "RangeError" (Some "ERR_BUFFER_OUT_OF_BOUNDS")
         "Attempt to access memory outside buffer bounds"
  else NativeError "RangeError" (Some "ERR_OUT_OF_RANGE")
         "The value of offset is out of range".

(** [buffer.readUInt8(offset)] *)
Definition readUInt8 (b : t) (offset : Z) : outcome Z :=
  match byteAt b offset with
  | Some v => Ok v
  | None => Throw (boundsError b 1)
  end.

(** [buffer.readUInt32BE(offset)]: Node raises when the first or the last of
    the four bytes is undefined; the two in between then exist as well. *)
Definition readUInt32BE (b : t) (offset : Z) : outcome Z :=
  match byteAt b offset, byteAt b (offset + 1), byteAt b (offset + 2), byteAt b (offset + 3) with
  | Some b0, Some b1, Some b2, Some b3 =>
      Ok (b0 * 2 ^ 24 + b1 * 2 ^ 16 + b2 * 2 ^ 8 + b3)
  | _, _, _, _ => Throw (boundsError b 4)
  end.

(** [buffer.toString('latin1')]: one character per byte. *)
Definition toLatin1 (b : t) : string := string_of_list_byte b.

(** *** [buffer.toString('base64')] *)
Definition base64Alphabet : string :=
  "ABCDEFGHIJKLMNOPQRSTUVWXYZabcdefghijklmnopqrstuvwxyz0123456789+/".

Definition sextet (n : N) : ascii :=
  match String.get (N.to_nat n) base64Alphabet with
  | Some c => c
  | None => "="%char
  end.

Definition pad : ascii := "="%char.

(** The 24-bit group of up to three bytes. *)
Definition group (a b c : byte) : N :=
  (Byte.to_N a * 65536 + Byte.to_N b * 256 + Byte.to_N c)%N.

Definition sextetAt (g : N) (k : N) : ascii :=
  sextet ((g / 64 ^ (3 - k)) mod 64)%N.

Fixpoint toBase64 (b : t) : string :=
  match b with
  | [] => EmptyString
  | [a0] =>
      let g := group a0 x00 x00 in
      String (sextetAt g 0) (String (sextetAt g 1) (String pad (String pad EmptyString)))
  | [a0; a1] =>
      let g := group a0 a1 x00 in
      String (sextetAt g 0) (String (sextetAt g 1) (String (sextetAt g 2) (String pad EmptyString)))
  | a0 :: a1 :: a2 :: rest =>
      let g := group a0 a1 a2 in
      String (sextetAt g 0) (String (sextetAt g 1) (String (sextetAt g 2)
        (String (sextetAt g 3) (toBase64 rest))))
  end.

End Buffer.

(** ** JS string primitives used by the validators *)
Module JsString.

(** [s.length] (all strings measured by the services are one code unit per
    character). *)
Definition length (s : string) : Z := Z.of_nat (String.length s).

(** [s.startsWith(p)] *)
Fixpoint startsWith (s p : string) : bool :=
  match p, s with
  | EmptyString, _ => true
  | String _ _, EmptyString => false
  | String c p', String d s' => if Ascii.eqb c d then startsWith s' p' else false
  end.

(** [s.includes(sub)] *)
Fixpoint includes (s sub : string) : bool :=
  startsWith s sub ||
  match s with
  | EmptyString => false
  | String _ s' => includes s' sub
  end.

(** [\d] *)
Definition isDigit (c : ascii) : bool :=
  let n := N_of_ascii c in ((48 <=? n) && (n <=? 57))%N.

(** [\s] on the latin1 range: TAB, LF, VT, FF, CR, SPACE and NBSP. *)
Definition isSpace (c : ascii) : bool :=
  let n := N_of_ascii c in
  (((9 <=? n) && (n <=? 13)) || (n =? 32) || (n =? 160))%N.

(** Drop the longest prefix of characters in class [p]. *)
Fixpoint skipWhile (p : ascii -> bool) (s : string) : string :=
  match s with
  | String c s' => if p c then skipWhile p s' else s
  | EmptyString => s
  end.

(** [p+] at the head of [s]: the rest after the longest run, when the run
    is not empty. *)
Definition oneOrMore (p : ascii -> bool) (s : string) : option string :=
  match s with
  | String c s' => if p c then Some (skipWhile p s') else None
  | EmptyString => None
  end.

(** A match of [\d+\s+\d+\s+obj] starting at the head of [s].  The classes
    [\d], [\s] and the letter [o] are pairwise disjoint, so the longest
    run is the only run a backtracking matcher can succeed with. *)
Definition objHeaderHere (s : string) : bool :=
  match oneOrMore isDigit s with
  | Some s1 =>
      match oneOrMore isSpace s1 with
      | Some s2 =>
          match oneOrMore isDigit s2 with
          | Some s3 =>
              match oneOrMore isSpace s3 with
              | Some s4 => startsWith s4 "obj"
              | None => false
              end
          | None => false
          end
      | None => false
      end
  | None => false
  end.

(** [/\d+\s+\d+\s+obj/.test(s)] *)
Fixpoint testObjHeader (s : string) : bool :=
  objHeaderHere s ||
  match s with
  | EmptyString => false
  | String _ s' => testObjHeader s'
  end.

End JsString.

(** ** Values that cross the HTTP boundary *)

(** The JSON-like view of a JS object: own properties in definition order.
    [JBuffer] is a Node [Buffer] value. *)
Inductive JsValue : Type :=
| JNull
| JBool (b : bool)
| JNumber (n : Z)
| JString (s : string)
| JBuffer (b : Buffer.t).

Definition JsObject : Type := list (string * JsValue).

Definition getProp (o : JsObject) (k : string) : option JsValue :=
  snd <$> List.find (fun kv => bool_decide (fst kv = k)) o.

Definition hasProp (o : JsObject) (k : string) : bool :=
  bool_decide (k ∈ (fst <$> o)).

(** Object rest destructuring: [const { k1: _, ..., kn: _, ...rest } = o]. *)
Definition omit (keys : list string) (o : JsObject) : JsObject :=
  filter (fun kv => fst kv ∉ keys) o.

Definition isBufferValue (v : JsValue) : bool :=
  match v with JBuffer _ => true | _ => false end.

(** The body of an incoming request as the sequence of events its stream
    emits, in order. *)
Inductive StreamEvent : Type :=
| DataEv (chunk : Buffer.t)
| EndEv
| ErrorEv (error : Thrown).

Record Request : Type := mkRequest {
  headers : gmap string string;
  body : list StreamEvent
}.

(** [z.string().uuid()]: 8-4-4-4-12 hexadecimal digits. *)
Definition isHex (c : ascii) : bool :=
  let n := N_of_ascii c in
  (((48 <=? n) && (n <=? 57)) || ((65 <=? n) && (n <=? 70)) || ((97 <=? n) && (n <=? 102)))%N.

Fixpoint uuidShape (groups : list nat) (s : list ascii) : bool :=
  match groups with
  | [] => false
  | [g] => bool_decide (List.length s = g) && forallb isHex s
  | g :: gs =>
      forallb isHex (take g s) && bool_decide (List.length (take g s) = g) &&
      match drop g s with
      | c :: rest => Ascii.eqb c "-" && uuidShape gs rest
      | [] => false
      end
  end.

Definition isUuid (s : string) : bool :=
  uuidShape [8; 4; 4; 4; 12]%nat (list_ascii_of_string s).

(** [schema.safeParse(obj)] for [z.object({ <key>: z.string().uuid() })]. *)
Definition parseUuidField (key : string) (obj : JsObject) : option string :=
  match getProp obj key with
  | Some (JString s) => if isUuid s then Some s else None
  | _ => None
  end.

(** ** Limits *)
Record UploadLimits : Type := mkLimits {
  MAX_FILE_SIZE : Z;
  MAX_FILE_SIZE_MB : Z;
  ALLOWED_MIME_TYPES : list string;
  ALLOWED_EXTENSIONS : list string;
  MAX_RECORDS : Z
}.

Definition FILE_UPLOAD_LIMITS : UploadLimits := {|
  MAX_FILE_SIZE := 10 * 1024 * 1024;
  MAX_FILE_SIZE_MB := 10;
  ALLOWED_MIME_TYPES := ["image/png"];
  ALLOWED_EXTENSIONS := [".png"];
  MAX_RECORDS := 100
|}.

Definition PDF_UPLOAD_LIMITS : UploadLimits := {|
  MAX_FILE_SIZE := 50 * 1024 * 1024;
  MAX_FILE_SIZE_MB := 50;
  ALLOWED_MIME_TYPES := ["application/pdf"];
  ALLOWED_EXTENSIONS := [".pdf"];
  MAX_RECORDS := 100
|}.


(** ** Helpers shared by both upload services *)

(** [(num / den).toFixed(2)] for a power of two [den]: the quotient is exact
    in double precision and [toFixed] rounds half up. *)
Definition toFixed2 (num den : Z) : string :=
  let n := (200 * num + den) / (2 * den) in
  let frac := n mod 100 in
  pretty (n / 100) +:+ "." +:+ (if frac <? 10 then "0" else "") +:+ pretty frac.

Definition formatFileSize (bytes : Z) : string :=
  if bytes <? 1024 * 1024
  then toFixed2 bytes 1024 +:+ " KB"
  else toFixed2 bytes (1024 * 1024) +:+ " MB".

(** [`data:${mimeType};base64,`] *)
Definition dataUrlPrefix (mimeType : string) : string :=
  "data:" +:+ mimeType +:+ ";base64,".

(** [(req.headers['x-file-name'] as string) || fallback] *)
Definition fileNameOf (req : Request) (fallback : string) : string :=
  match headers req !! "x-file-name" with
  | Some s => if bool_decide (s = "") then fallback else s
  | None => fallback
  end.

(** *** [processMultipartUpload]

    Both services carry the same function, differing in the limits object and
    in the file kind named by the message. *)
Section Ingestion.
Variable limits : UploadLimits.
Variable kind : string.

(** The closure state of the promise executor: [chunks], [totalSize] and
    the promise itself, which keeps the first [resolve]/[reject]. *)
Record Ingest : Type := mkIngest {
  chunks : list Buffer.t;
  totalSize : Z;
  settled : option (outcome Buffer.t)
}.

Definition settle (r : outcome Buffer.t) (s : Ingest) : Ingest :=
  match settled s with
  | Some _ => s
  | None => mkIngest (chunks s) (totalSize s) (Some r)
  end.

Definition fileTooLarge : Thrown :=
  ServiceError "FILE_TOO_LARGE"
    ("O arquivo excede o limite de " +:+ pretty (MAX_FILE_SIZE_MB limits) +:+
     "MB. Por favor, selecione um arquivo menor")
    413 NoDetails.

Definition onData (chunk : Buffer.t) (s : Ingest) : Ingest :=
  let s := mkIngest (chunks s) (totalSize s + Buffer.length chunk) (settled s) in
  if totalSize s >? MAX_FILE_SIZE limits
  then settle (Throw fileTooLarge) s
  else mkIngest (chunks s ++ [chunk]) (totalSize s) (settled s).

Definition onEnd (s : Ingest) : Ingest :=
  if bool_decide (List.length (chunks s) = 0%nat)
  then settle (Throw (ServiceError "VALIDATION_ERROR"
                 ("Nenhum arquivo foi selecionado. Por favor, selecione um arquivo " +:+ kind)
                 400 NoDetails)) s
  else settle (Ok (Buffer.concat (chunks s))) s.

Definition onError (error : Thrown) (s : Ingest) : Ingest :=
  settle (Throw (ServiceError "UPLOAD_FAILED"
            "Não foi possível fazer o upload do arquivo devido a problemas de conexão. Por favor, tente novamente"
            500 (Cause error))) s.

Definition dispatch (s : Ingest) (ev : StreamEvent) : Ingest :=
  match ev with
  | DataEv chunk => onData chunk s
  | EndEv => onEnd s
  | ErrorEv error => onError error s
  end.

Definition ingestAll (evs : list StreamEvent) : Ingest :=
  fold_left dispatch evs (mkIngest [] 0 None).

(** The value of [await processMultipartUpload(req)]. *)
Definition processMultipartUpload (req : Request) : outcome Buffer.t :=
  match settled (ingestAll (body req)) with
  | Some r => r
  | None => Hang
  end.

End Ingestion.

(** ** Image uploads: [fileUploadStore] and [fileUploadService] *)
Module FileUpload.

Record FileUploadEntity : Type := mkEntity {
  id : string;
  fileName : string;
  fileSize : Z;
  fileSizeFormatted : string;
  width : Z;
  height : Z;
  dimensions : string;
  previewUrl : string;
  mimeType : string;
  buffer : Buffer.t;
  uploadedAt : string
}.

(** The entity as the object literal builds it. *)
Definition toObject (e : FileUploadEntity) : JsObject :=
  [ ("id", JString (id e));
    ("fileName", JString (fileName e));
    ("fileSize", JNumber (fileSize e));
    ("fileSizeFormatted", JString (fileSizeFormatted e));
    ("width", JNumber (width e));
    ("height", JNumber (height e));
    ("dimensions", JString (dimensions e));
    ("previewUrl", JString (previewUrl e));
    ("mimeType", JString (mimeType e));
    ("buffer", JBuffer (buffer e));
    ("uploadedAt", JString (uploadedAt e)) ].

(** [const { buffer: _, ...response } = entity] *)
Definition toResponse (e : FileUploadEntity) : JsObject :=
  omit ["buffer"] (toObject e).

(** *** [class FileUploadStore] *)
Record FileUploadStore : Type := mkStore {
  records : gmap string FileUploadEntity
}.

Definition empty : FileUploadStore := mkStore ∅.

Definition getById (i : string) (st : FileUploadStore) : option FileUploadEntity :=
  records st !! i.

Definition add (record : FileUploadEntity) (st : FileUploadStore)
  : FileUploadStore * outcome FileUploadEntity :=
  if Z.of_nat (size (records st)) >=? MAX_RECORDS FILE_UPLOAD_LIMITS
  then (st, Throw (NativeError "Error" None "Maximum file upload limit reached"))
  else (mkStore (<[id record := record]> (records st)), Ok record).

Definition delete (i : string) (st : FileUploadStore) : FileUploadStore * bool :=
  (mkStore (base.delete i (records st)), bool_decide (is_Some (records st !! i))).

Definition exists_ (i : string) (st : FileUploadStore) : bool :=
  bool_decide (is_Some (records st !! i)).

Definition count (st : FileUploadStore) : Z := Z.of_nat (size (records st)).

(** *** [fileUploadService] *)

Definition PNG_SIGNATURE : Buffer.t := [x89; x50; x4e; x47; x0d; x0a; x1a; x0a].

Definition isPNGFile (b : Buffer.t) : bool :=
  if Buffer.length b <? Buffer.length PNG_SIGNATURE then false
  else Buffer.equals (Buffer.subarray0 b (Buffer.length PNG_SIGNATURE)) PNG_SIGNATURE.

Definition extractPNGDimensions (b : Buffer.t) : outcome (Z * Z) :=
  let* w := Buffer.readUInt32BE b 16 in
  let* h := Buffer.readUInt32BE b 20 in
  Ok (w, h).

Definition generatePreviewUrl (b : Buffer.t) (mime : string) : string :=
  dataUrlPrefix mime +:+ Buffer.toBase64 b.

Definition processMultipartUpload : Request -> outcome Buffer.t :=
  processMultipartUpload FILE_UPLOAD_LIMITS "PNG".

(** What the process reads from its environment: [uuidv4()] and
    [new Date().toISOString()]. *)
Record Env : Type := mkEnv {
  uuid : string;
  now : string
}.

Definition uploadFailed (error : Thrown) : Thrown :=
  ServiceError "UPLOAD_FAILED"
    "Ocorreu um erro no servidor ao processar seu arquivo. Por favor, tente novamente mais tarde"
    500 (Cause error).

(** The body of the outer [try] of [fileUploadProcess]. *)
Definition fileUploadBody (env : Env) (req : Request) (st : FileUploadStore)
  : FileUploadStore * outcome JsObject :=
  match processMultipartUpload req with
  | Throw e => (st, Throw e)
  | Hang => (st, Hang)
  | Ok b =>
      if Buffer.length b >? MAX_FILE_SIZE FILE_UPLOAD_LIMITS
      then (st, Throw (fileTooLarge FILE_UPLOAD_LIMITS))
      else if negb (isPNGFile b)
      then (st, Throw (ServiceError "INVALID_FILE_TYPE"
             "O arquivo selecionado não é um PNG. Por favor, selecione um arquivo com extensão .png"
             400 NoDetails))
      else
        match try_catch (extractPNGDimensions b)
                (fun _ => Throw (ServiceError "CORRUPTED_FILE"
                   "O arquivo PNG selecionado parece estar corrompido ou não é um PNG válido"
                   400 NoDetails)) with
        | Throw e => (st, Throw e)
        | Hang => (st, Hang)
        | Ok (w, h) =>
            let mime := "image/png" in
            let entity := {|
              id := uuid env;
              fileName := fileNameOf req "upload.png";
              fileSize := Buffer.length b;
              fileSizeFormatted := formatFileSize (Buffer.length b);
              width := w;
              height := h;
              dimensions := pretty w +:+ " x " +:+ pretty h;
              previewUrl := generatePreviewUrl b mime;
              mimeType := mime;
              buffer := b;
              uploadedAt := now env
            |} in
            match add entity st with
            | (st', Ok _) => (st', Ok (toResponse entity))
            | (st', Throw e) => (st', Throw e)
            | (st', Hang) => (st', Hang)
            end
        end
  end.

Definition fileUploadProcess (env : Env) (req : Request) (st : FileUploadStore)
  : FileUploadStore * outcome JsObject :=
  let '(st', r) := fileUploadBody env req st in
  (st', try_catch r (fun error =>
          if isServiceError error then Throw error else Throw (uploadFailed error))).

Definition invalidId : Thrown :=
  ServiceError "VALIDATION_ERROR" "Invalid file ID" 400 ZodIssues.

Definition notFound : Thrown :=
  ServiceError "NOT_FOUND" "File not found" 404 NoDetails.

Definition fileUploadGet (params : JsObject) (st : FileUploadStore) : outcome JsObject :=
  match parseUuidField "id" params with
  | None => Throw invalidId
  | Some i =>
      match getById i st with
      | None => Throw notFound
      | Some entity => Ok (toResponse entity)
      end
  end.

Definition fileUploadCancel (params : JsObject) (st : FileUploadStore)
  : FileUploadStore * outcome JsObject :=
  match parseUuidField "id" params with
  | None => (st, Throw invalidId)
  | Some i =>
      if negb (exists_ i st) then (st, Throw notFound)
      else (fst (delete i st), Ok [("message", JString "File deleted successfully")])
  end.

End FileUpload.

(** ** Document uploads: [pdfUploadStore] and [pdfUploadService] *)
Module PdfUpload.

(** ['limpo' | 'infectado' | 'não_verificado' | 'erro_scan'] *)
Inductive ScanResult : Type := limpo | infectado | nao_verificado | erro_scan.

(** ['aguardando' | 'em_progresso' | 'concluido' | 'erro' | 'cancelado' | 'interrompido'] *)
Inductive Status : Type :=
  aguardando | em_progresso | concluido | erro | cancelado | interrompido.

(** The [type] of a [PDFCorruptionDetails]. *)
Inductive CorruptionType : Type :=
| cabecalho_invalido
| xref_corrompida
| trailer_ausente
| objeto_corrompido
| stream_invalida
| estrutura_invalida
| outro.

#[global] Instance ScanResult_eq_dec : EqDecision ScanResult.
Proof. solve_decision. Defined.
#[global] Instance Status_eq_dec : EqDecision Status.
Proof. solve_decision. Defined.
#[global] Instance CorruptionType_eq_dec : EqDecision CorruptionType.
Proof. solve_decision. Defined.

Definition scanResultString (r : ScanResult) : string :=
  match r with
  | limpo => "limpo"
  | infectado => "infectado"
  | nao_verificado => "não_verificado"
  | erro_scan => "erro_scan"
  end.

Definition statusString (s : Status) : string :=
  match s with
  | aguardando => "aguardando"
  | em_progresso => "em_progresso"
  | concluido => "concluido"
  | erro => "erro"
  | cancelado => "cancelado"
  | interrompido => "interrompido"
  end.

Definition corruptionTypeString (c : CorruptionType) : string :=
  match c with
  | cabecalho_invalido => "cabeçalho_inválido"
  | xref_corrompida => "xref_corrompida"
  | trailer_ausente => "trailer_ausente"
  | objeto_corrompido => "objeto_corrompido"
  | stream_invalida => "stream_inválida"
  | estrutura_invalida => "estrutura_inválida"
  | outro => "outro"
  end.

Record PDFCorruptionDetails : Type := mkCorruption {
  type : CorruptionType;
  message : string
}.

Record PDFUploadEntity : Type := mkEntity {
  id : string;
  fileName : string;
  fileSize : Z;
  fileSizeFormatted : string;
  mimeType : string;
  buffer : Buffer.t;
  uploadedAt : string;
  integrityValid : bool;
  corruptionType : option string;
  scanResult : ScanResult;
  token : string;
  status : Status
}.

Definition nullable (o : option string) : JsValue :=
  match o with Some s => JString s | None => JNull end.

(** The entity as the object literal builds it. *)
Definition toObject (e : PDFUploadEntity) : JsObject :=
  [ ("id", JString (id e));
    ("fileName", JString (fileName e));
    ("fileSize", JNumber (fileSize e));
    ("fileSizeFormatted", JString (fileSizeFormatted e));
    ("mimeType", JString (mimeType e));
    ("buffer", JBuffer (buffer e));
    ("uploadedAt", JString (uploadedAt e));
    ("integrityValid", JBool (integrityValid e));
    ("corruptionType", nullable (corruptionType e));
    ("scanResult", JString (scanResultString (scanResult e)));
    ("token", JString (token e));
    ("status", JString (statusString (status e))) ].

(** [const { buffer: _, status: __, ...response } = entity] *)
Definition toResponse (e : PDFUploadEntity) : JsObject :=
  omit ["buffer"; "status"] (toObject e).

(** *** [class PDFUploadStore] *)
Record PDFUploadStore : Type := mkStore {
  records : gmap string PDFUploadEntity;
  isolatedRecords : gmap string PDFUploadEntity;
  uploadInProgress : option string
}.

Definition empty : PDFUploadStore := mkStore ∅ ∅ None.

Definition hasUploadInProgress (st : PDFUploadStore) : bool :=
  bool_decide (uploadInProgress st ≠ None).

Definition setUploadInProgress (uploadId : string) (st : PDFUploadStore) : PDFUploadStore :=
  mkStore (records st) (isolatedRecords st) (Some uploadId).

Definition clearUploadInProgress (st : PDFUploadStore) : PDFUploadStore :=
  mkStore (records st) (isolatedRecords st) None.

(** [this.records.get(id) || this.isolatedRecords.get(id)] *)
Definition getById (i : string) (st : PDFUploadStore) : option PDFUploadEntity :=
  match records st !! i with
  | Some e => Some e
  | None => isolatedRecords st !! i
  end.

Definition add (record : PDFUploadEntity) (st : PDFUploadStore)
  : PDFUploadStore * outcome PDFUploadEntity :=
  if Z.of_nat (size (records st)) >=? MAX_RECORDS PDF_UPLOAD_LIMITS
  then (st, Throw (NativeError "Error" None "Maximum file upload limit reached"))
  else (mkStore (<[id record := record]> (records st)) (isolatedRecords st) (uploadInProgress st),
        Ok record).

Definition addToIsolated (record : PDFUploadEntity) (st : PDFUploadStore)
  : PDFUploadStore * outcome PDFUploadEntity :=
  if Z.of_nat (size (isolatedRecords st)) >=? MAX_RECORDS PDF_UPLOAD_LIMITS
  then (st, Throw (NativeError "Error" None "Maximum isolated file limit reached"))
  else (mkStore (records st) (<[id record := record]> (isolatedRecords st)) (uploadInProgress st),
        Ok record).

(** [this.records.delete(id) || this.isolatedRecords.delete(id)]: the
    isolated map is touched only when the primary one had no such key. *)
Definition delete (i : string) (st : PDFUploadStore) : PDFUploadStore * bool :=
  if bool_decide (is_Some (records st !! i))
  then (mkStore (base.delete i (records st)) (isolatedRecords st) (uploadInProgress st), true)
  else (mkStore (records st) (base.delete i (isolatedRecords st)) (uploadInProgress st),
        bool_decide (is_Some (isolatedRecords st !! i))).

Definition exists_ (i : string) (st : PDFUploadStore) : bool :=
  bool_decide (is_Some (records st !! i)) || bool_decide (is_Some (isolatedRecords st !! i)).

Definition count (st : PDFUploadStore) : Z :=
  Z.of_nat (size (records st)) + Z.of_nat (size (isolatedRecords st)).

(** *** [pdfUploadService] *)

Definition PDF_SIGNATURE : Buffer.t := [x25; x50; x44; x46; x2d].

Definition isPDFFile (b : Buffer.t) : bool :=
  if Buffer.length b <? Buffer.length PDF_SIGNATURE then false
  else Buffer.equals (Buffer.subarray0 b (Buffer.length PDF_SIGNATURE)) PDF_SIGNATURE.

Record StructureValidation : Type := mkValidation {
  valid : bool;
  corruption : option PDFCorruptionDetails
}.

Definition corrupt (t : CorruptionType) (msg : string) : StructureValidation :=
  mkValidation false (Some (mkCorruption t msg)).

(** The [try] block. *)
Definition validatePDFChecks (b : Buffer.t) : StructureValidation :=
  let content := Buffer.toLatin1 b in
  if negb (JsString.startsWith content "%PDF-") then
    corrupt cabecalho_invalido "O arquivo não possui um cabeçalho PDF válido"
  else if negb (JsString.includes content "xref") then
    corrupt xref_corrompida "A tabela de referência cruzada (xref) está ausente ou corrompida"
  else if negb (JsString.includes content "trailer") then
    corrupt trailer_ausente "O trailer do PDF está ausente"
  else if negb (JsString.includes content "startxref") then
    corrupt estrutura_invalida "A estrutura do PDF está incompleta (startxref ausente)"
  else if negb (JsString.includes content "%%EOF") then
    corrupt estrutura_invalida "O arquivo PDF está incompleto (marcador EOF ausente)"
  else
    let hasObjects := JsString.testObjHeader content in
    if negb hasObjects then
      corrupt objeto_corrompido "O PDF não contém objetos válidos"
    else mkValidation true None.

(** The value of the [catch] clause. *)
Definition validationCrashed : StructureValidation :=
  corrupt outro "Não foi possível validar a estrutura do PDF".

(** No step of the [try] block raises on a [Buffer], so the block always
    returns normally. *)
Definition validatePDFStructure (b : Buffer.t) : StructureValidation :=
  match try_catch (Ok (validatePDFChecks b)) (fun _ => Ok validationCrashed) with
  | Ok v => v
  | Throw _ | Hang => validationCrashed
  end.

(** Which promise of [Promise.race([scanPromise, timeoutPromise])] settles
    first; [RaceFails] is an exception inside the [try]. *)
Inductive Race : Type := ScanFirst | TimeoutFirst | RaceFails.

Definition scanForVirus (race : Race) (b : Buffer.t) : ScanResult :=
  match race with
  | ScanFirst => limpo
  | TimeoutFirst => erro_scan
  | RaceFails => erro_scan
  end.

Definition dquote : string := String (ascii_of_nat 34) EmptyString.

(** [Buffer.from(JSON.stringify({ fileId, exp })).toString('base64')]; a
    file id is a UUID, which JSON prints without escapes. *)
Definition generateAccessToken (fileId : string) (dateNow : Z) : string :=
  let exp := dateNow + 24 * 60 * 60 * 1000 in
  let json := "{" +:+ dquote +:+ "fileId" +:+ dquote +:+ ":" +:+ dquote +:+ fileId +:+ dquote +:+
              "," +:+ dquote +:+ "exp" +:+ dquote +:+ ":" +:+ pretty exp +:+ "}" in
  Buffer.toBase64 (list_byte_of_string json).

Definition processMultipartUpload : Request -> outcome Buffer.t :=
  processMultipartUpload PDF_UPLOAD_LIMITS "PDF".

(** What the process reads from its environment: [uuidv4()],
    [new Date().toISOString()], [Date.now()] and the scan race. *)
Record Env : Type := mkEnv {
  uuid : string;
  now : string;
  dateNow : Z;
  race : Race
}.

Definition uploadInProgressError : Thrown :=
  ServiceError "UPLOAD_IN_PROGRESS"
    "Já existe um upload em andamento. Por favor, aguarde a conclusão antes de enviar outro arquivo."
    409 NoDetails.

Definition uploadFailed (error : Thrown) : Thrown :=
  ServiceError "UPLOAD_FAILED"
    "Ocorreu um erro no servidor ao processar seu arquivo. Por favor, tente novamente mais tarde"
    500 (Cause error).

Definition corruptedFile (v : StructureValidation) : Thrown :=
  ServiceError "CORRUPTED_FILE"
    ("O arquivo PDF está corrompido: " +:+
     match corruption v with Some c => message c | None => "undefined" end)
    400
    (CorruptionInfo ((fun c => corruptionTypeString (type c)) <$> corruption v)).

Definition buildEntity (env : Env) (req : Request) (b : Buffer.t) (scan : ScanResult)
  : PDFUploadEntity := {|
  id := uuid env;
  fileName := fileNameOf req "upload.pdf";
  fileSize := Buffer.length b;
  fileSizeFormatted := formatFileSize (Buffer.length b);
  mimeType := "application/pdf";
  buffer := b;
  uploadedAt := now env;
  integrityValid := true;
  corruptionType := None;
  scanResult := scan;
  token := generateAccessToken (uuid env) (dateNow env);
  status := concluido
|}.

(** The inner [try] block, from [await processMultipartUpload(req)] to
    [return response]. *)
Definition pdfUploadInner (env : Env) (req : Request) (st : PDFUploadStore)
  : PDFUploadStore * outcome JsObject :=
  match processMultipartUpload req with
  | Throw e => (st, Throw e)
  | Hang => (st, Hang)
  | Ok b =>
      if Buffer.length b >? MAX_FILE_SIZE PDF_UPLOAD_LIMITS
      then (st, Throw (fileTooLarge PDF_UPLOAD_LIMITS))
      else if negb (isPDFFile b)
      then (st, Throw (ServiceError "INVALID_FILE_TYPE"
             "O arquivo selecionado não é um PDF. Por favor, selecione um arquivo com extensão .pdf"
             400 NoDetails))
      else
        let structureValidation := validatePDFStructure b in
        if negb (valid structureValidation)
        then (st, Throw (corruptedFile structureValidation))
        else
          let scan := scanForVirus (race env) b in
          if bool_decide (scan = infectado)
          then (st, Throw (ServiceError "MALWARE_DETECTED"
                 "O arquivo contém malware e foi rejeitado por motivos de segurança"
                 400 NoDetails))
          else
            let entity := buildEntity env req b scan in
            let stored :=
              if bool_decide (scan = erro_scan)
              then addToIsolated entity st
              else add entity st in
            match stored with
            | (st', Ok _) => (clearUploadInProgress st', Ok (toResponse entity))
            | (st', Throw e) => (st', Throw e)
            | (st', Hang) => (st', Hang)
            end
  end.

(** The inner [try]/[catch]: the gate is cleared and the error rethrown. *)
Definition pdfUploadGuarded (env : Env) (req : Request) (st : PDFUploadStore)
  : PDFUploadStore * outcome JsObject :=
  match pdfUploadInner env req st with
  | (st', Throw error) => (clearUploadInProgress st', Throw error)
  | other => other
  end.

(** The outer [catch]: a [ServiceError] passes, anything else is wrapped. *)
Definition normalize (r : outcome JsObject) : outcome JsObject :=
  try_catch r (fun error =>
    if isServiceError error then Throw error else Throw (uploadFailed error)).

Definition pdfUploadProcess (env : Env) (req : Request) (st : PDFUploadStore)
  : PDFUploadStore * outcome JsObject :=
  if hasUploadInProgress st
  then (st, normalize (Throw uploadInProgressError))
  else
    let st1 := setUploadInProgress (uuid env) st in
    let '(st2, r) := pdfUploadGuarded env req st1 in
    (st2, normalize r).

(** The two synchronous segments of [pdfUploadProcess] between which other
    requests run: up to the first [await], and from the resumption that
    follows the settled stream to the end. *)
Definition pdfUploadBegin (env : Env) (st : PDFUploadStore)
  : PDFUploadStore * outcome unit :=
  if hasUploadInProgress st
  then (st, Throw uploadInProgressError)
  else (setUploadInProgress (uuid env) st, Ok tt).

Definition pdfUploadFinish (env : Env) (req : Request) (st : PDFUploadStore)
  : PDFUploadStore * outcome JsObject :=
  let '(st', r) := pdfUploadGuarded env req st in (st', normalize r).

Definition invalidId : Thrown :=
  ServiceError "VALIDATION_ERROR" "Invalid file ID" 400 ZodIssues.

Definition notFound : Thrown :=
  ServiceError "NOT_FOUND" "File not found" 404 NoDetails.

Definition pdfUploadGet (params : JsObject) (st : PDFUploadStore) : outcome JsObject :=
  match parseUuidField "id" params with
  | None => Throw invalidId
  | Some i =>
      match getById i st with
      | None => Throw notFound
      | Some entity => Ok (toResponse entity)
      end
  end.

Definition pdfUploadCancel (params : JsObject) (st : PDFUploadStore)
  : PDFUploadStore * outcome JsObject :=
  match parseUuidField "id" params with
  | None => (st, Throw invalidId)
  | Some i =>
      if negb (exists_ i st) then (st, Throw notFound)
      else (fst (delete i st), Ok [("message", JString "File deleted successfully")])
  end.

(** *** The service as a transition system

    Requests interleave at [await]s only, so a document upload acts on the
    store twice: when it begins and when it finishes.  [inflight] holds the
    uploads that have begun and not finished. *)
Record System : Type := mkSystem {
  store : PDFUploadStore;
  inflight : list (Env * Request)
}.

Definition initial : System := mkSystem empty [].

Inductive step : System -> System -> Prop :=
| step_begin env req s st' :
    pdfUploadBegin env (store s) = (st', Ok tt) ->
    step s (mkSystem st' ((env, req) :: inflight s))
| step_blocked env s st' e :
    pdfUploadBegin env (store s) = (st', Throw e) ->
    step s (mkSystem st' (inflight s))
| step_finish env req s (pre post : list (Env * Request)) st' r :
    inflight s = (pre ++ (env, req) :: post)%list ->
    pdfUploadFinish env req (store s) = (st', r) ->
    r <> Hang ->
    step s (mkSystem st' (pre ++ post)%list)
| step_get (params : JsObject) s :
    step s s
| step_cancel params s :
    step s (mkSystem (fst (pdfUploadCancel params (store s))) (inflight s)).

Inductive reachable : System -> Prop :=
| reachable_initial : reachable initial
| reachable_step s s' : reachable s -> step s s' -> reachable s'.

(** A record [e] lies in the primary / the isolated partition. *)
Definition inPrimary (st : PDFUploadStore) (e : PDFUploadEntity) : Prop :=
  exists i, records st !! i = Some e.

Definition inIsolated (st : PDFUploadStore) (e : PDFUploadEntity) : Prop :=
  exists i, isolatedRecords st !! i = Some e.

End PdfUpload.

(** ** Image conversion: [pngConversionService] *)
Module PngConversion.
Import FileUpload.

Definition GRAYSCALE : Z := 0.
Definition RGB : Z := 2.
Definition INDEXED : Z := 3.
Definition GRAYSCALE_ALPHA : Z := 4.
Definition RGBA : Z := 6.

Record PNGMetadata : Type := mkMetadata {
  width : Z;
  height : Z;
  bitDepth : Z;
  colorType : Z;
  hasTransparency : bool
}.

Definition metadataObject (m : PNGMetadata) : JsObject :=
  [ ("width", JNumber (width m));
    ("height", JNumber (height m));
    ("bitDepth", JNumber (bitDepth m));
    ("colorType", JNumber (colorType m));
    ("hasTransparency", JBool (hasTransparency m)) ].

Definition metadataFailed (error : Thrown) : Thrown :=
  ServiceError "METADATA_EXTRACTION_FAILED"
    "Não foi possível extrair os metadados da imagem" 500 (Cause error).

Definition extractPNGMetadata (b : Buffer.t) : outcome PNGMetadata :=
  try_catch
    (let* width := Buffer.readUInt32BE b 16 in
     let* height := Buffer.readUInt32BE b 20 in
     let* bitDepth := Buffer.readUInt8 b 24 in
     let* colorType := Buffer.readUInt8 b 25 in
     let hasTransparency :=
       if (colorType =? GRAYSCALE_ALPHA) || (colorType =? RGBA) then true
       else JsString.includes (Buffer.toLatin1 b) "tRNS" in
     Ok (mkMetadata width height bitDepth colorType hasTransparency))
    (fun error => Throw (metadataFailed error)).

(** [Math.ceil((fileSize * 4) / 3) + mimePrefix.length] *)
Definition calculateExpectedBase64Size (fileSize : Z) (mimePrefix : string) : Z :=
  Qceiling (Qdiv (inject_Z (fileSize * 4)) (inject_Z 3)) + JsString.length mimePrefix.

(** [expectedSize * 0.01] and the comparison are taken over the rationals;
    double precision agrees with them on every size below 2^46. *)
Definition validateConversionIntegrity (actualSize expectedSize : Z) : bool :=
  let tolerance := Qmult (inject_Z expectedSize) (Qmake 1 100) in
  let difference := Z.abs (actualSize - expectedSize) in
  Qle_bool (inject_Z difference) tolerance.

(** [buffer.toString('base64')] as a step that may raise. *)
Definition Encoder : Type := Buffer.t -> outcome string.

Definition nodeEncoder : Encoder := fun b => Ok (Buffer.toBase64 b).

Definition convertToBase64 (encode : Encoder) (b : Buffer.t) (mime : string) : outcome string :=
  let* base64Data := encode b in
  Ok ("data:" +:+ mime +:+ ";base64," +:+ base64Data).

(** [Object.keys(ref).forEach((key) => delete ref[key])] *)
Definition clearObject (o : JsObject) : JsObject :=
  fold_left (fun acc key => omit [key] acc) (fst <$> o) o.

Record PNGConversionResponse : Type := mkResponse {
  fileId : string;
  base64String : string;
  base64Size : Z;
  expectedSize : Z;
  integrityValid : bool;
  metadata : JsObject;
  convertedAt : string
}.

Definition conversionFailedAt (msg : string) (error : Thrown) : Thrown :=
  ServiceError "CONVERSION_FAILED" msg 500 (Cause error).

Definition integrityError (expected actual : Z) : Thrown :=
  ServiceError "INTEGRITY_ERROR" "A conversão não preservou a integridade da imagem" 500
    (IntegrityInfo expected actual (Z.abs (actual - expected))).

Definition memoryError (error : Thrown) : Thrown :=
  ServiceError "MEMORY_ERROR" "Memória insuficiente para processar o arquivo" 500 (Cause error).

(** The [try] block.  The response holds the very [metadata] object that was
    pushed on [memoryReferences]. *)
Definition pngConversionBody (encode : Encoder) (convertedAt : string)
    (body : JsObject) (st : FileUploadStore) : outcome PNGConversionResponse :=
  match parseUuidField "fileId" body with
  | None => Throw (ServiceError "VALIDATION_ERROR" "ID do arquivo inválido" 400 ZodIssues)
  | Some fileId =>
      match getById fileId st with
      | None => Throw (ServiceError "NOT_FOUND"
                  "Arquivo não encontrado. Por favor, faça o upload novamente" 404 NoDetails)
      | Some fileEntity =>
          let* metadata := extractPNGMetadata (buffer fileEntity) in
          let mimePrefix := dataUrlPrefix (mimeType fileEntity) in
          let expectedSize := calculateExpectedBase64Size (fileSize fileEntity) mimePrefix in
          let* base64String :=
            try_catch (convertToBase64 encode (buffer fileEntity) (mimeType fileEntity))
              (fun error => Throw (conversionFailedAt
                 "Não foi possível converter o arquivo para base64" error)) in
          let actualSize := JsString.length base64String in
          let integrityValid := validateConversionIntegrity actualSize expectedSize in
          if negb integrityValid
          then Throw (integrityError expectedSize actualSize)
          else Ok (mkResponse fileId base64String actualSize expectedSize integrityValid
                     (metadataObject metadata) convertedAt)
      end
  end.

(** The [catch] clause. *)
Definition conversionCatch (error : Thrown) : outcome PNGConversionResponse :=
  if isServiceError error then Throw error
  else if isRangeError error || bool_decide (errorCode error = Some "ERR_BUFFER_OUT_OF_BOUNDS")
  then Throw (memoryError error)
  else Throw (conversionFailedAt "Ocorreu um erro ao processar a conversão" error).

(** The [finally] clause empties every object on [memoryReferences]; the
    metadata object is one of them, and the response shares it. *)
Definition cleanupMemory (r : PNGConversionResponse) : PNGConversionResponse :=
  mkResponse (fileId r) (base64String r) (base64Size r) (expectedSize r) (integrityValid r)
    (clearObject (metadata r)) (convertedAt r).

Definition pngConversionWith (encode : Encoder) (convertedAt : string)
    (body : JsObject) (st : FileUploadStore) : outcome PNGConversionResponse :=
  let* response :=
    try_catch (pngConversionBody encode convertedAt body st) conversionCatch in
  Ok (cleanupMemory response).

Definition pngConversionProcess : string -> JsObject -> FileUploadStore -> outcome PNGConversionResponse :=
  pngConversionWith nodeEncoder.

End PngConversion.

(** * Vocabulary of the properties *)

(** ** Streams *)

(** The bytes and the chunks carried by the [data] events of a stream. *)
Definition dataChunks (evs : list StreamEvent) : list Buffer.t :=
  omap (fun ev => match ev with DataEv c => Some c | _ => None end) evs.

Definition bytesOf (evs : list StreamEvent) : Z :=
  Buffer.length (Buffer.concat (dataChunks evs)).

Definition isData (ev : StreamEvent) : bool :=
  match ev with DataEv _ => true | _ => false end.

(** Node never emits an empty chunk from a byte stream. *)
Definition nonEmptyData (ev : StreamEvent) : Prop :=
  match ev with DataEv c => c <> [] | _ => True end.

Definition ingestionOf (limits : UploadLimits) (kind : string) (evs : list StreamEvent)
  : outcome Buffer.t :=
  processMultipartUpload limits kind (mkRequest ∅ evs).

(** What the closure holds at any time: an unsettled promise has buffered
    exactly the bytes counted, within the limit; a resolved one carries a
    buffer within the limit. *)
Definition ingestInv (limits : UploadLimits) (s : Ingest) : Prop :=
  (settled s = None ->
     totalSize s = Buffer.length (Buffer.concat (chunks s)) /\
     totalSize s <= MAX_FILE_SIZE limits) /\
  (forall b, settled s = Some (Ok b) -> Buffer.length b <= MAX_FILE_SIZE limits).

(** The only errors ingestion rejects with. *)
Definition ingestionError (e : Thrown) : Prop :=
  isServiceError e = true /\
  (errorCode e = Some "FILE_TOO_LARGE" \/ errorCode e = Some "VALIDATION_ERROR" \/
   errorCode e = Some "UPLOAD_FAILED").

(** [res] is a failure with the given code, status and details that leaves the
    store as [st]. *)
Definition failsWith {S A : Type} (res : S * outcome A) (st : S)
    (code : string) (status : Z) (d : Details) : Prop :=
  exists msg, res = (st, Throw (ServiceError code msg status d)).

(** ** Concrete inputs used by the examples *)

(** A complete 1x1 RGBA image of 70 bytes (signature, IHDR, IDAT, IEND). *)
Definition png1x1 : Buffer.t :=
  [x89; x50; x4e; x47; x0d; x0a; x1a; x0a; x00; x00; x00; x0d; x49; x48; x44; x52;
   x00; x00; x00; x01; x00; x00; x00; x01; x08; x06; x00; x00; x00; x1f; x15; xc4;
   x89; x00; x00; x00; x0d; x49; x44; x41; x54; x78; xda; x63; x64; x60; xf8; x5f;
   x0f; x00; x02; x87; x01; x80; xeb; x47; xba; x92; x00; x00; x00; x00; x49; x45;
   x4e; x44; xae; x42; x60; x82].


Definition pdfMinimal : Buffer.t :=
  list_byte_of_string "%PDF-1.4 1 0 obj xref trailer startxref %%EOF".

Definition pdfNoXrefNoTrailer : Buffer.t :=
  list_byte_of_string "%PDF-1.4 1 0 obj %%EOF".

Definition idA : string := "123e4567-e89b-42d3-a456-426614174000".
Definition idB : string := "123e4567-e89b-42d3-a456-426614174001".

Definition pngEnv : FileUpload.Env := FileUpload.mkEnv idA "2024-01-01T00:00:00.000Z".

Definition pdfEnv (i : string) (r : PdfUpload.Race) : PdfUpload.Env :=
  PdfUpload.mkEnv i "2024-01-01T00:00:00.000Z" 1704067200000 r.

Definition whole (b : Buffer.t) : Request := mkRequest ∅ [DataEv b; EndEv].

(** A single chunk of [n] zero bytes. *)
Definition zeros (n : Z) : Buffer.t := repeat x00 (Z.to_nat n).

Definition connectionReset : Thrown :=
  NativeError "Error" (Some "ECONNRESET") "aborted".

(** ** The object-header pattern, declaratively *)

(** [run p s r]: [s] is one or more characters of class [p] followed by [r]. *)
Inductive run (p : ascii -> bool) : string -> string -> Prop :=
| run_one c r : p c = true -> run p (String c r) r
| run_more c s r : p c = true -> run p s r -> run p (String c s) r.

(** [s] begins with a match of [\d+\s+\d+\s+obj]. *)
Definition objHeaderAt (s : string) : Prop :=
  exists s1 s2 s3 s4,
    run JsString.isDigit s s1 /\ run JsString.isSpace s1 s2 /\
    run JsString.isDigit s2 s3 /\ run JsString.isSpace s3 s4 /\
    JsString.startsWith s4 "obj" = true.

(** Some suffix of [s] begins with a match. *)
Fixpoint objHeaderSomewhere (s : string) : Prop :=
  objHeaderAt s \/
  match s with
  | EmptyString => False
  | String _ s' => objHeaderSomewhere s'
  end.

(** ** Structural checks, as the specification words them *)

(** The checks as the specification lists them: a presence test on the text
    view of the buffer, and the corruption kind its absence reports. *)
Definition pdfChecks : list ((string -> bool) * PdfUpload.CorruptionType) :=
  [ (fun s => JsString.startsWith s "%PDF-", PdfUpload.cabecalho_invalido);
    (fun s => JsString.includes s "xref", PdfUpload.xref_corrompida);
    (fun s => JsString.includes s "trailer", PdfUpload.trailer_ausente);
    (fun s => JsString.includes s "startxref", PdfUpload.estrutura_invalida);
    (fun s => JsString.includes s "%%EOF", PdfUpload.estrutura_invalida);
    (JsString.testObjHeader, PdfUpload.objeto_corrompido) ].

(** The kind of the first check, in list order, that fails on [content]. *)
Fixpoint firstFailing (checks : list ((string -> bool) * PdfUpload.CorruptionType))
    (content : string) : option PdfUpload.CorruptionType :=
  match checks with
  | [] => None
  | (present, kind) :: rest =>
      if present content then firstFailing rest content else Some kind
  end.

Definition reportedKind (b : Buffer.t) : option PdfUpload.CorruptionType :=
  PdfUpload.type <$> PdfUpload.corruption (PdfUpload.validatePDFStructure b).

(** ** Stores *)

Definition limitReached : Thrown :=
  NativeError "Error" None "Maximum file upload limit reached".

Definition isolatedLimitReached : Thrown :=
  NativeError "Error" None "Maximum isolated file limit reached".

(** Stores filled by repeated uploads. *)
Definition uploadId (n : nat) : string :=
  "00000000-0000-4000-8000-0000000000" +:+ (if (n <? 10)%nat then "0" else "") +:+ pretty n.

Definition pngUploads (n : nat) : FileUpload.FileUploadStore :=
  fold_left
    (fun st k => fst (FileUpload.fileUploadProcess
                        (FileUpload.mkEnv (uploadId k) "2024-01-01T00:00:00.000Z")
                        (whole png1x1) st))
    (seq 0 n) FileUpload.empty.

Definition pdfUploads (r : PdfUpload.Race) (n : nat) : PdfUpload.PDFUploadStore :=
  fold_left
    (fun st k => fst (PdfUpload.pdfUploadProcess (pdfEnv (uploadId k) r) (whole pdfMinimal) st))
    (seq 0 n) PdfUpload.empty.

Definition pngEntity : FileUpload.FileUploadEntity := {|
  FileUpload.id := idA;
  FileUpload.fileName := "pixel.png";
  FileUpload.fileSize := 70;
  FileUpload.fileSizeFormatted := "0.07 KB";
  FileUpload.width := 1;
  FileUpload.height := 1;
  FileUpload.dimensions := "1 x 1";
  FileUpload.previewUrl := FileUpload.generatePreviewUrl png1x1 "image/png";
  FileUpload.mimeType := "image/png";
  FileUpload.buffer := png1x1;
  FileUpload.uploadedAt := "2024-01-01T00:00:00.000Z"
|}.

Definition pdfEntity (scan : PdfUpload.ScanResult) : PdfUpload.PDFUploadEntity :=
  PdfUpload.buildEntity (pdfEnv idA PdfUpload.ScanFirst) (whole pdfMinimal) pdfMinimal scan.

(** ** Whole operations, one after another *)
Inductive Operation : Type :=
| Upload (env : PdfUpload.Env) (req : Request)
| Get (params : JsObject)
| Cancel (params : JsObject).

Definition perform (st : PdfUpload.PDFUploadStore) (op : Operation) : PdfUpload.PDFUploadStore :=
  match op with
  | Upload env req => fst (PdfUpload.pdfUploadProcess env req st)
  | Get params => st
  | Cancel params => fst (PdfUpload.pdfUploadCancel params st)
  end.

Definition performAll (ops : list Operation) : PdfUpload.PDFUploadStore :=
  fold_left perform ops PdfUpload.empty.

(** A system reached by one clean upload, one quarantined upload and one
    rejected upload, each run to completion. *)
Definition demoOps : list Operation :=
  [ Upload (pdfEnv idA PdfUpload.ScanFirst) (whole pdfMinimal);
    Upload (pdfEnv idB PdfUpload.TimeoutFirst) (whole pdfMinimal);
    Upload (pdfEnv (uploadId 3) PdfUpload.ScanFirst) (whole pdfNoXrefNoTrailer) ].

Definition demoSystem : PdfUpload.System := PdfUpload.mkSystem (performAll demoOps) [].

Definition cleanRecord : PdfUpload.PDFUploadEntity :=
  PdfUpload.buildEntity (pdfEnv idA PdfUpload.ScanFirst) (whole pdfMinimal) pdfMinimal
    PdfUpload.limpo.

Definition quarantinedRecord : PdfUpload.PDFUploadEntity :=
  PdfUpload.buildEntity (pdfEnv idB PdfUpload.TimeoutFirst) (whole pdfMinimal) pdfMinimal
    PdfUpload.erro_scan.

Definition busyStore : PdfUpload.PDFUploadStore :=
  PdfUpload.setUploadInProgress idA PdfUpload.empty.

(** A payload with no [buffer] property and no [Buffer] value. *)
Definition carriesNoBuffer (payload : JsObject) : Prop :=
  hasProp payload "buffer" = false /\
  Forall (fun kv => isBufferValue (snd kv) = false) payload.

Definition convertRequest : JsObject := [("fileId", JString idA)].


Section DocumentVocabulary.
Import PdfUpload.

(** What every stored document record looks like. *)
Definition accepted (e : PDFUploadEntity) : Prop :=
  integrityValid e = true /\ corruptionType e = None /\ status e = concluido /\
  isPDFFile (buffer e) = true /\ valid (validatePDFStructure (buffer e)) = true.

(** The primary map holds clean records, the isolated map the records whose
    scan was unavailable. *)
Definition partitioned (st : PDFUploadStore) : Prop :=
  (forall i e, records st !! i = Some e ->
     accepted e /\ scanResult e = limpo /\ id e = i) /\
  (forall i e, isolatedRecords st !! i = Some e ->
     accepted e /\ scanResult e = erro_scan /\ id e = i).

(** Every upload of [ops], run from [st], comes to an end. *)
Fixpoint settling (st : PDFUploadStore) (ops : list Operation) : bool :=
  match ops with
  | [] => true
  | op :: rest =>
      match op with
      | Upload env req =>
          match snd (pdfUploadProcess env req st) with Hang => false | _ => true end
      | _ => true
      end && settling (perform st op) rest
  end.

End DocumentVocabulary.

(** ** Vocabulary of the further properties *)

(** *** Decoding base64 *)

(** The value of a character of the alphabet. *)
Definition unsextet (c : ascii) : option N :=
  let n := N_of_ascii c in
  if ((65 <=? n) && (n <=? 90))%N then Some (n - 65)%N
  else if ((97 <=? n) && (n <=? 122))%N then Some (n - 71)%N
  else if ((48 <=? n) && (n <=? 57))%N then Some (n + 4)%N
  else if (n =? 43)%N then Some 62%N
  else if (n =? 47)%N then Some 63%N
  else None.

Definition regroup (s0 s1 s2 s3 : N) : N := (s0 * 262144 + s1 * 4096 + s2 * 64 + s3)%N.

Definition ungroup (g : N) : option (byte * byte * byte) :=
  match Byte.of_N (g / 65536), Byte.of_N ((g / 256) mod 256), Byte.of_N (g mod 256) with
  | Some a, Some b, Some c => Some (a, b, c)
  | _, _, _ => None
  end.

(** The strict decoder: whole quadruples, padding only at the end. *)
Fixpoint fromBase64 (s : string) : option Buffer.t :=
  match s with
  | EmptyString => Some []
  | String c0 (String c1 (String c2 (String c3 rest))) =>
      match unsextet c0, unsextet c1 with
      | Some s0, Some s1 =>
          if Ascii.eqb c2 Buffer.pad then
            if Ascii.eqb c3 Buffer.pad && bool_decide (rest = EmptyString)
            then match ungroup (regroup s0 s1 0 0) with
                 | Some (a, _, _) => Some [a]
                 | None => None
                 end
            else None
          else
            match unsextet c2 with
            | Some s2 =>
                if Ascii.eqb c3 Buffer.pad then
                  if bool_decide (rest = EmptyString)
                  then match ungroup (regroup s0 s1 s2 0) with
                       | Some (a, b, _) => Some [a; b]
                       | None => None
                       end
                  else None
                else
                  match unsextet c3 with
                  | Some s3 =>
                      match ungroup (regroup s0 s1 s2 s3), fromBase64 rest with
                      | Some (a, b, c), Some tl => Some (a :: b :: c :: tl)
                      | _, _ => None
                      end
                  | None => None
                  end
            | None => None
            end
      | _, _ => None
      end
  | _ => None
  end.

(** *** Data URLs *)

(** [s] without the prefix [p], when it begins with it. *)
Fixpoint stripPrefix (p s : string) : option string :=
  match p, s with
  | EmptyString, _ => Some s
  | String c p', String d s' => if Ascii.eqb c d then stripPrefix p' s' else None
  | String _ _, EmptyString => None
  end.

(** The bytes a data URL of the given type encodes. *)
Definition dataUrlBytes (mime url : string) : option Buffer.t :=
  match stripPrefix (dataUrlPrefix mime) url with
  | Some data => fromBase64 data
  | None => None
  end.

(** *** Error tables *)

(** The code and the HTTP status of an error, when it is a [ServiceError]. *)
Definition codeAndStatus (e : Thrown) : option (string * Z) :=
  match e with
  | ServiceError c _ s _ => Some (c, s)
  | NativeError _ _ _ => None
  end.

(** The errors ingestion rejects with. *)
Definition ingestionStatus (e : Thrown) : Prop :=
  codeAndStatus e ∈
    [ Some ("FILE_TOO_LARGE", 413); Some ("VALIDATION_ERROR", 400); Some ("UPLOAD_FAILED", 500) ].

Definition imageUploadErrors : list (string * Z) :=
  [ ("FILE_TOO_LARGE", 413); ("VALIDATION_ERROR", 400); ("UPLOAD_FAILED", 500);
    ("INVALID_FILE_TYPE", 400); ("CORRUPTED_FILE", 400) ].

Definition documentUploadErrors : list (string * Z) :=
  ("UPLOAD_IN_PROGRESS", 409) :: imageUploadErrors.

Definition conversionErrors : list (string * Z) :=
  [ ("VALIDATION_ERROR", 400); ("NOT_FOUND", 404); ("METADATA_EXTRACTION_FAILED", 500);
    ("CONVERSION_FAILED", 500); ("INTEGRITY_ERROR", 500) ].

(** *** The stores over time *)

(** An image upload acts on the store once, in its last synchronous segment,
    so interleaved requests act on it as some sequence of whole operations. *)
Inductive ImageOperation : Type :=
| ImageUpload (env : FileUpload.Env) (req : Request)
| ImageGet (params : JsObject)
| ImageCancel (params : JsObject)
| ImageConvert (convertedAt : string) (body : JsObject).

Definition imagePerform (st : FileUpload.FileUploadStore) (op : ImageOperation)
  : FileUpload.FileUploadStore :=
  match op with
  | ImageUpload env req => fst (FileUpload.fileUploadProcess env req st)
  | ImageCancel params => fst (FileUpload.fileUploadCancel params st)
  | ImageGet _ | ImageConvert _ _ => st
  end.

Definition imageStoreAfter (ops : list ImageOperation) : FileUpload.FileUploadStore :=
  fold_left imagePerform ops FileUpload.empty.

(** What the record filed under [i] looks like. *)
Definition wellFormedImage (i : string) (e : FileUpload.FileUploadEntity) : Prop :=
  FileUpload.id e = i /\
  FileUpload.mimeType e = "image/png" /\
  FileUpload.fileSize e = Buffer.length (FileUpload.buffer e) /\
  24 <= Buffer.length (FileUpload.buffer e) <= 10 * 1024 * 1024 /\
  FileUpload.isPNGFile (FileUpload.buffer e) = true /\
  Buffer.readUInt32BE (FileUpload.buffer e) 16 = Ok (FileUpload.width e) /\
  Buffer.readUInt32BE (FileUpload.buffer e) 20 = Ok (FileUpload.height e) /\
  FileUpload.previewUrl e = FileUpload.generatePreviewUrl (FileUpload.buffer e) "image/png" /\
  FileUpload.fileSizeFormatted e = formatFileSize (FileUpload.fileSize e).

Definition imageStoreInv (st : FileUpload.FileUploadStore) : Prop :=
  (size (FileUpload.records st) <= 100)%nat /\
  forall i e, FileUpload.records st !! i = Some e -> wellFormedImage i e.

(** What a stored document looks like, in either partition. *)
Definition wellFormedDocument (i : string) (e : PdfUpload.PDFUploadEntity) : Prop :=
  PdfUpload.id e = i /\
  PdfUpload.mimeType e = "application/pdf" /\
  PdfUpload.fileSize e = Buffer.length (PdfUpload.buffer e) /\
  5 <= Buffer.length (PdfUpload.buffer e) <= 50 * 1024 * 1024 /\
  PdfUpload.fileSizeFormatted e = formatFileSize (PdfUpload.fileSize e) /\
  exists dateNow, PdfUpload.token e = PdfUpload.generateAccessToken i dateNow.

Definition documentStoreInv (st : PdfUpload.PDFUploadStore) : Prop :=
  (size (PdfUpload.records st) <= 100)%nat /\
  (size (PdfUpload.isolatedRecords st) <= 100)%nat /\
  (forall i e, PdfUpload.records st !! i = Some e -> wellFormedDocument i e) /\
  (forall i e, PdfUpload.isolatedRecords st !! i = Some e -> wellFormedDocument i e).

(** * Properties *)

(** ** The embedding on known values *)

Example base64_rfc4648 :
  Buffer.toBase64 (list_byte_of_string "") = "" /\
  Buffer.toBase64 (list_byte_of_string "f") = "Zg==" /\
  Buffer.toBase64 (list_byte_of_string "fo") = "Zm8=" /\
  Buffer.toBase64 (list_byte_of_string "foo") = "Zm9v" /\
  Buffer.toBase64 (list_byte_of_string "foob") = "Zm9vYg==" /\
  Buffer.toBase64 (list_byte_of_string "fooba") = "Zm9vYmE=" /\
  Buffer.toBase64 (list_byte_of_string "foobar") = "Zm9vYmFy".
Proof. repeat split; reflexivity. Qed.

Example base64_png1x1 :
  Buffer.toBase64 png1x1
  = "iVBORw0KGgoAAAANSUhEUgAAAAEAAAABCAYAAAAfFcSJAAAADUlEQVR42mNkYPhfDwAChwGA60e6kgAAAABJRU5ErkJggg==".
Proof. reflexivity. Qed.

Example formatFileSize_values :
  formatFileSize 0 = "0.00 KB" /\
  formatFileSize 70 = "0.07 KB" /\
  formatFileSize 1536 = "1.50 KB" /\
  formatFileSize 1000000 = "976.56 KB" /\
  formatFileSize (1024 * 1024) = "1.00 MB" /\
  formatFileSize (50 * 1024 * 1024) = "50.00 MB".
Proof. repeat split; reflexivity. Qed.

Example readUInt32BE_values :
  Buffer.readUInt32BE png1x1 16 = Ok 1 /\
  Buffer.readUInt32BE [x00; x00; x01; x02; x03; x04] 2 = Ok 16909060 /\
  Buffer.readUInt32BE [x00; x00; x01; x02; x03; x04] 3
    = Throw (NativeError "RangeError" (Some "ERR_OUT_OF_RANGE")
               "The value of offset is out of range") /\
  Buffer.readUInt32BE [x00; x01] 0
    = Throw (NativeError "RangeError" (Some "ERR_BUFFER_OUT_OF_BOUNDS")
               "Attempt to access memory outside buffer bounds").
Proof. repeat split; reflexivity. Qed.

Example isUuid_values :
  isUuid idA = true /\ isUuid (uploadId 7) = true /\
  isUuid "123e4567e89b42d3a456426614174000" = false /\
  isUuid "123e4567-e89b-42d3-a456-42661417400g" = false /\
  isUuid "" = false.
Proof. repeat split; reflexivity. Qed.

(** *** The string primitives against their declarative reading *)

Lemma startsWith_spec s p :
  JsString.startsWith s p = true <-> exists post, s = p +:+ post.
Proof.
  revert s. induction p as [| c p IH]; intros s.
  - split; [intros _; by exists s | by destruct s].
  - destruct s as [| d s].
    + split; [done | by intros [post Hpost]].
    + change (JsString.startsWith (String d s) (String c p))
        with (if Ascii.eqb c d then JsString.startsWith s p else false).
      destruct (Ascii.eqb_spec c d) as [<- | Hne].
      * rewrite IH. split; intros [post Hpost]; exists post.
        -- by rewrite Hpost.
        -- by injection Hpost.
      * split; [done |]. intros [post Hpost]. injection Hpost as Hcd _. congruence.
Qed.

Lemma includes_spec s sub :
  JsString.includes s sub = true <-> exists pre post, s = pre +:+ sub +:+ post.
Proof.
  induction s as [| c s IH].
  - change (JsString.includes "" sub) with (JsString.startsWith "" sub || false).
    rewrite orb_false_r, startsWith_spec. split.
    + intros [post Hpost]. by exists "", post.
    + intros ([| d pre] & post & Hpost); [by exists post | done].
  - change (JsString.includes (String c s) sub)
      with (JsString.startsWith (String c s) sub || JsString.includes s sub).
    rewrite orb_true_iff, startsWith_spec, IH. split.
    + intros [[post Hpost] | (pre & post & Hpost)].
      * by exists "", post.
      * exists (String c pre), post. by rewrite Hpost.
    + intros ([| d pre] & post & Hpost).
      * left. by exists post.
      * right. exists pre, post. by injection Hpost.
Qed.

(** *** The object-header probe against its declarative reading *)
Section ObjectHeader.
Import JsString.

Lemma skipWhile_stops p s c r : skipWhile p s = String c r -> p c = false.
Proof.
  induction s as [| d s IH]; [done |]. simpl.
  destruct (p d) eqn:Hd; [by apply IH | by intros [= <- <-]].
Qed.

Lemma run_skip p c s : p c = true -> run p (String c s) (skipWhile p s).
Proof.
  revert c. induction s as [| d s IH]; intros c Hc; simpl.
  - by apply run_one.
  - destruct (p d) eqn:Hd; [apply run_more; auto | by apply run_one].
Qed.

(** The longest run is a run. *)
Lemma oneOrMore_run p s r : oneOrMore p s = Some r -> run p s r.
Proof.
  destruct s as [| c s]; [done |]. simpl.
  destruct (p c) eqn:Hc; [| done]. intros [= <-]. by apply run_skip.
Qed.

(** A run that stops before a character outside the class is the longest. *)
Lemma run_oneOrMore p s r :
  run p s r ->
  match r with String c _ => p c = false | EmptyString => True end ->
  oneOrMore p s = Some r.
Proof.
  induction 1 as [c r Hc | c s r Hc Hrun IH]; intros Hstop; simpl; rewrite Hc; f_equal.
  - destruct r as [| d r]; [done |]. simpl. by rewrite Hstop.
  - specialize (IH Hstop). destruct s as [| d s]; [done |]. simpl in *.
    destruct (p d); [by injection IH | done].
Qed.

Lemma run_head p s r : run p s r -> exists c s', s = String c s' /\ p c = true.
Proof. destruct 1; eauto. Qed.

Lemma digit_not_space c : isDigit c = true -> isSpace c = false.
Proof.
  unfold isDigit, isSpace. intros H. apply andb_true_iff in H as [H1 H2].
  apply N.leb_le in H1, H2.
  repeat (apply orb_false_iff; split); [apply andb_false_iff; right | |];
    [apply N.leb_gt | apply N.eqb_neq | apply N.eqb_neq]; lia.
Qed.

Lemma space_not_digit c : isSpace c = true -> isDigit c = false.
Proof.
  intros Hs. destruct (isDigit c) eqn:Hd; [| done].
  apply digit_not_space in Hd. congruence.
Qed.

Lemma obj_not_space s : startsWith s "obj" = true ->
  match s with String c _ => isSpace c = false | EmptyString => True end.
Proof.
  destruct s as [| c s]; [done |].
  change (startsWith (String c s) "obj")
    with (if Ascii.eqb "o" c then startsWith s "bj" else false).
  destruct (Ascii.eqb_spec "o"%char c) as [<- | _]; [done | done].
Qed.

Lemma objHeaderHere_spec s : objHeaderHere s = true <-> objHeaderAt s.
Proof.
  unfold objHeaderHere, objHeaderAt. split.
  - destruct (oneOrMore isDigit s) as [s1 |] eqn:H1; [| done].
    destruct (oneOrMore isSpace s1) as [s2 |] eqn:H2; [| done].
    destruct (oneOrMore isDigit s2) as [s3 |] eqn:H3; [| done].
    destruct (oneOrMore isSpace s3) as [s4 |] eqn:H4; [| done].
    intros Hobj. exists s1, s2, s3, s4. split_and!; by try apply oneOrMore_run.
  - intros (s1 & s2 & s3 & s4 & R1 & R2 & R3 & R4 & Hobj).
    rewrite (run_oneOrMore _ _ _ R1).
    2:{ destruct (run_head _ _ _ R2) as (c & s' & -> & Hc). by apply space_not_digit. }
    rewrite (run_oneOrMore _ _ _ R2).
    2:{ destruct (run_head _ _ _ R3) as (c & s' & -> & Hc). by apply digit_not_space. }
    rewrite (run_oneOrMore _ _ _ R3).
    2:{ destruct (run_head _ _ _ R4) as (c & s' & -> & Hc). by apply space_not_digit. }
    rewrite (run_oneOrMore _ _ _ R4); [done |]. by apply obj_not_space.
Qed.

(** [testObjHeader] decides whether the pattern occurs in the text. *)
Lemma testObjHeader_spec s : testObjHeader s = true <-> objHeaderSomewhere s.
Proof.
  induction s as [| c s IH].
  - split; [done |]. intros [H | []]. by apply objHeaderHere_spec in H.
  - change (testObjHeader (String c s))
      with (objHeaderHere (String c s) || testObjHeader s).
    change (objHeaderSomewhere (String c s))
      with (objHeaderAt (String c s) \/ objHeaderSomewhere s).
    rewrite orb_true_iff, objHeaderHere_spec, IH. tauto.
Qed.

End ObjectHeader.

(** ** Signature validation *)
Section Signature.
Import FileUpload PdfUpload.

(** Both validators are the same test against a different constant. *)
Lemma signature_test_spec (sig b : Buffer.t) :
  (if Buffer.length b <? Buffer.length sig then false
   else Buffer.equals (Buffer.subarray0 b (Buffer.length sig)) sig) = true
  <-> take (List.length sig) b = sig.
Proof.
  unfold Buffer.length, Buffer.equals, Buffer.subarray0.
  rewrite Nat2Z.id.
  destruct (Z.ltb_spec (Z.of_nat (List.length b)) (Z.of_nat (List.length sig))) as [Hlt | Hge].
  - split; [discriminate |].
    intros Heq. apply (f_equal List.length) in Heq.
    rewrite length_take in Heq. lia.
  - apply bool_decide_eq_true.
Qed.

Lemma isPNGFile_spec b : isPNGFile b = true <-> take 8 b = PNG_SIGNATURE.
Proof. apply (signature_test_spec PNG_SIGNATURE). Qed.

Lemma isPDFFile_spec b : isPDFFile b = true <-> take 5 b = PDF_SIGNATURE.
Proof. apply (signature_test_spec PDF_SIGNATURE). Qed.

Lemma take_differs (sig b : Buffer.t) (i : nat) :
  (i < List.length sig)%nat -> b !! i ≠ sig !! i -> take (List.length sig) b ≠ sig.
Proof.
  intros Hi Hne Heq. apply Hne.
  transitivity (take (List.length sig) b !! i); [by rewrite lookup_take_lt | by rewrite Heq].
Qed.

Lemma take_short (sig b : Buffer.t) :
  (List.length b < List.length sig)%nat -> take (List.length sig) b ≠ sig.
Proof.
  intros Hlt Heq. apply (f_equal List.length) in Heq.
  rewrite length_take in Heq. lia.
Qed.

End Signature.

(** ** Stream ingestion *)

Lemma Buffer_length_nonneg b : 0 <= Buffer.length b.
Proof. unfold Buffer.length. lia. Qed.

Lemma Buffer_length_app (a b : Buffer.t) :
  Buffer.length (a ++ b)%list = Buffer.length a + Buffer.length b.
Proof. unfold Buffer.length. rewrite length_app. lia. Qed.

Lemma Buffer_concat_snoc (cs : list Buffer.t) (c : Buffer.t) :
  Buffer.concat (cs ++ [c])%list = (Buffer.concat cs ++ c)%list.
Proof. unfold Buffer.concat. rewrite concat_app. simpl. by rewrite app_nil_r. Qed.

Lemma bytesOf_cons_data c evs : bytesOf (DataEv c :: evs) = Buffer.length c + bytesOf evs.
Proof. unfold bytesOf. simpl. apply Buffer_length_app. Qed.

Section IngestionFacts.
Variable limits : UploadLimits.
Variable kind : string.

Local Abbreviation step := (dispatch limits kind).
Local Abbreviation ingest := (ingestAll limits kind).

Lemma settle_keeps r r' s : settled s = Some r -> settle r' s = s.
Proof. unfold settle. by intros ->. Qed.

Lemma dispatch_settled s ev r : settled s = Some r -> settled (step s ev) = Some r.
Proof.
  intros Hs. destruct ev as [c | | e]; simpl.
  - unfold onData. simpl. case_match; [| done].
    unfold settle. simpl. by rewrite Hs.
  - unfold onEnd. case_match; by rewrite (settle_keeps r).
  - unfold onError. by rewrite (settle_keeps r).
Qed.

(** A promise keeps its first settlement whatever the stream emits next. *)
Lemma fold_settled evs s r :
  settled s = Some r -> settled (fold_left step evs s) = Some r.
Proof.
  revert s. induction evs as [| ev evs IH]; intros s Hs; [done |].
  simpl. apply IH. by apply dispatch_settled.
Qed.

(** While the running total stays within the limit, [data] events only
    accumulate. *)
Lemma fold_data pre s :
  settled s = None ->
  forallb isData pre = true ->
  totalSize s + bytesOf pre <= MAX_FILE_SIZE limits ->
  fold_left step pre s =
    mkIngest (chunks s ++ dataChunks pre)%list (totalSize s + bytesOf pre) None.
Proof.
  revert s. induction pre as [| ev pre IH]; intros s Hs Hd Hb.
  - simpl. unfold bytesOf. simpl. rewrite app_nil_r, Z.add_0_r. by destruct s; simpl in *; subst.
  - destruct ev as [c | |]; try discriminate. simpl in Hd.
    rewrite bytesOf_cons_data in Hb |- *.
    pose proof (Buffer_length_nonneg (Buffer.concat (dataChunks pre))) as Hpos.
    fold (bytesOf pre) in Hpos.
    simpl. unfold onData at 1. simpl.
    destruct (Z.gtb_spec (totalSize s + Buffer.length c) (MAX_FILE_SIZE limits)) as [Hgt | Hle]; [lia |].
    rewrite IH; simpl; [| done | done | lia].
    f_equal; [by rewrite <- app_assoc | lia].
Qed.

Lemma processMultipartUpload_body req :
  processMultipartUpload limits kind req = ingestionOf limits kind (body req).
Proof. done. Qed.

Lemma ingest_prefix pre :
  forallb isData pre = true ->
  bytesOf pre <= MAX_FILE_SIZE limits ->
  ingest pre = mkIngest (dataChunks pre) (bytesOf pre) None.
Proof.
  intros Hd Hb. unfold ingestAll.
  rewrite fold_data; simpl; [done | done | done | lia].
Qed.

Lemma ingest_after pre ev rest r :
  forallb isData pre = true ->
  bytesOf pre <= MAX_FILE_SIZE limits ->
  settled (step (mkIngest (dataChunks pre) (bytesOf pre) None) ev) = Some r ->
  ingestionOf limits kind (pre ++ ev :: rest)%list = r.
Proof.
  intros Hd Hb Hev. unfold ingestionOf, processMultipartUpload. simpl.
  unfold ingestAll. rewrite fold_left_app. simpl.
  fold (ingest pre). rewrite ingest_prefix by done.
  by rewrite (fold_settled _ _ r).
Qed.

(** The instant the running total passes the limit the promise is rejected
    with [FILE_TOO_LARGE], whatever follows. *)
Lemma ingest_overflow pre c rest :
  forallb isData pre = true ->
  bytesOf pre <= MAX_FILE_SIZE limits ->
  bytesOf pre + Buffer.length c > MAX_FILE_SIZE limits ->
  ingestionOf limits kind (pre ++ DataEv c :: rest)%list = Throw (fileTooLarge limits).
Proof.
  intros Hd Hb Hover. apply ingest_after; [done | done |].
  simpl. unfold onData. simpl.
  destruct (Z.gtb_spec (bytesOf pre + Buffer.length c) (MAX_FILE_SIZE limits)); [done | lia].
Qed.

Lemma ingest_error pre cause rest :
  forallb isData pre = true ->
  bytesOf pre <= MAX_FILE_SIZE limits ->
  ingestionOf limits kind (pre ++ ErrorEv cause :: rest)%list =
    Throw (ServiceError "UPLOAD_FAILED"
      "Não foi possível fazer o upload do arquivo devido a problemas de conexão. Por favor, tente novamente"
      500 (Cause cause)).
Proof. intros Hd Hb. by apply ingest_after. Qed.

Lemma no_bytes_no_events pre :
  forallb isData pre = true -> Forall nonEmptyData pre -> bytesOf pre = 0 -> pre = [].
Proof.
  destruct pre as [| [c | |] pre]; try done.
  intros _ Hne Hz. apply Forall_cons in Hne as [Hc _]. simpl in Hc.
  rewrite bytesOf_cons_data in Hz.
  pose proof (Buffer_length_nonneg (Buffer.concat (dataChunks pre))) as Hpos.
  fold (bytesOf pre) in Hpos.
  destruct c; [done |]. unfold Buffer.length in Hz at 1. simpl in Hz. lia.
Qed.

Lemma ingest_empty pre rest :
  forallb isData pre = true -> Forall nonEmptyData pre -> bytesOf pre = 0 ->
  ingestionOf limits kind (pre ++ EndEv :: rest)%list =
    Throw (ServiceError "VALIDATION_ERROR"
      ("Nenhum arquivo foi selecionado. Por favor, selecione um arquivo " +:+ kind)
      400 NoDetails).
Proof.
  intros Hd Hne Hz. rewrite (no_bytes_no_events pre) by done.
  unfold ingestionOf, processMultipartUpload. simpl.
  unfold ingestAll. simpl.
  by rewrite (fold_settled _ _ (Throw (ServiceError "VALIDATION_ERROR"
      ("Nenhum arquivo foi selecionado. Por favor, selecione um arquivo " +:+ kind)
      400 NoDetails))).
Qed.

Lemma dispatch_inv s ev : ingestInv limits s -> ingestInv limits (step s ev).
Proof.
  intros [Hopen Hok]. destruct (settled s) as [r |] eqn:Hs.
  - split; intros; rewrite (dispatch_settled _ _ r) in * by done; [done |].
    apply Hok. congruence.
  - destruct (Hopen eq_refl) as [Htot Hle].
    destruct ev as [c | | e]; simpl.
    + unfold onData. simpl.
      destruct (Z.gtb_spec (totalSize s + Buffer.length c) (MAX_FILE_SIZE limits)).
      * unfold settle. simpl. rewrite Hs. simpl. split; done.
      * simpl. rewrite Hs. split; [| done]. intros _.
        simpl. rewrite Buffer_concat_snoc, Buffer_length_app. lia.
    + unfold onEnd, settle. rewrite Hs. case_match; simpl; split; try done.
      intros b [= <-]. lia.
    + unfold onError, settle. rewrite Hs. simpl. split; done.
Qed.

Lemma fold_inv evs s : ingestInv limits s -> ingestInv limits (fold_left step evs s).
Proof.
  revert s. induction evs as [| ev evs IH]; intros s Hs; [done |].
  simpl. apply IH. by apply dispatch_inv.
Qed.

(** A buffer that ingestion resolves with is within the limit, so the size
    test that follows [await processMultipartUpload(req)] never fires. *)
Lemma ingested_within_limit req b :
  0 <= MAX_FILE_SIZE limits ->
  processMultipartUpload limits kind req = Ok b ->
  (Buffer.length b >? MAX_FILE_SIZE limits) = false.
Proof.
  intros Hmax. unfold processMultipartUpload.
  destruct (settled (ingest (body req))) as [r |] eqn:Hs; [| done].
  intros ->.
  assert (ingestInv limits (ingest (body req))) as [_ Hok].
  { apply fold_inv. split; simpl; [| done]. intros _. split; [done | lia]. }
  specialize (Hok b Hs). lia.
Qed.

Lemma dispatch_errors s ev :
  (forall e, settled s = Some (Throw e) -> ingestionError e) ->
  forall e, settled (step s ev) = Some (Throw e) -> ingestionError e.
Proof.
  intros Hs e. destruct (settled s) as [r |] eqn:Hr.
  - rewrite (dispatch_settled _ _ r) by done. intros [= ->]. by apply Hs.
  - destruct ev as [c | | e']; simpl.
    + unfold onData. simpl. case_match; simpl; [| by rewrite Hr].
      unfold settle. simpl. rewrite Hr. simpl. intros [= <-]. split; [done | by left].
    + unfold onEnd, settle. rewrite Hr. case_match; simpl; [| done].
      intros [= <-]. split; [done | by right; left].
    + unfold onError, settle. rewrite Hr. simpl.
      intros [= <-]. split; [done | by right; right].
Qed.

Lemma fold_errors evs s :
  (forall e, settled s = Some (Throw e) -> ingestionError e) ->
  forall e, settled (fold_left step evs s) = Some (Throw e) -> ingestionError e.
Proof.
  revert s. induction evs as [| ev evs IH]; intros s Hs; [done |].
  simpl. apply IH. by apply dispatch_errors.
Qed.

Lemma ingestion_throws req e :
  processMultipartUpload limits kind req = Throw e -> ingestionError e.
Proof.
  unfold processMultipartUpload.
  destruct (settled (ingest (body req))) as [r |] eqn:Hs; [| done].
  intros ->. revert Hs. by apply fold_errors.
Qed.

End IngestionFacts.

(** ** The upload pipelines on a settled stream *)

Section Pipelines.
Import PdfUpload.

Lemma png_ingest_throw env req st e :
  FileUpload.processMultipartUpload req = Throw e ->
  isServiceError e = true ->
  FileUpload.fileUploadProcess env req st = (st, Throw e).
Proof.
  intros Hin Hsvc. unfold FileUpload.fileUploadProcess, FileUpload.fileUploadBody.
  rewrite Hin. simpl. by rewrite Hsvc.
Qed.

Lemma png_reject_signature env req st b :
  FileUpload.processMultipartUpload req = Ok b ->
  FileUpload.isPNGFile b = false ->
  failsWith (FileUpload.fileUploadProcess env req st) st "INVALID_FILE_TYPE" 400 NoDetails.
Proof.
  intros Hin Hsig. unfold FileUpload.fileUploadProcess, FileUpload.fileUploadBody.
  rewrite Hin.
  rewrite (ingested_within_limit FILE_UPLOAD_LIMITS "PNG" req b) by done.
  rewrite Hsig. simpl. by eexists.
Qed.

Lemma png_invalid_type_iff env req st :
  thrownCode (snd (FileUpload.fileUploadProcess env req st)) = Some "INVALID_FILE_TYPE"
  <-> exists b, FileUpload.processMultipartUpload req = Ok b /\ FileUpload.isPNGFile b = false.
Proof.
  destruct (FileUpload.processMultipartUpload req) as [b | e |] eqn:Hin.
  - destruct (FileUpload.isPNGFile b) eqn:Hsig.
    + split; [| by intros (b' & [= <-] & ?); congruence].
      unfold FileUpload.fileUploadProcess, FileUpload.fileUploadBody.
      rewrite Hin.
      rewrite (ingested_within_limit FILE_UPLOAD_LIMITS "PNG" req b) by done.
      rewrite Hsig. simpl.
      destruct (FileUpload.extractPNGDimensions b) as [[w h] | e |]; simpl; try done.
      destruct (FileUpload.add _ st) as [st' [r | e |]] eqn:Hadd; simpl; try done.
      unfold FileUpload.add in Hadd. case_match; by simplify_eq.
    + destruct (png_reject_signature env req st b Hin Hsig) as [msg ->].
      simpl. split; [by exists b | done].
  - destruct (ingestion_throws _ _ _ _ Hin) as [Hsvc Hcode].
    rewrite (png_ingest_throw env req st e Hin Hsvc). simpl.
    split; [| by intros (b & ? & _)].
    intros Heq. rewrite Heq in Hcode. by destruct Hcode as [? | [? | ?]].
  - unfold FileUpload.fileUploadProcess, FileUpload.fileUploadBody. rewrite Hin. simpl.
    split; [done | by intros (b & ? & _)].
Qed.

Lemma gate_roundtrip st u :
  hasUploadInProgress st = false ->
  clearUploadInProgress (setUploadInProgress u st) = st.
Proof.
  unfold hasUploadInProgress, clearUploadInProgress. simpl.
  intros Hfree. apply bool_decide_eq_false in Hfree.
  destruct st as [r q [g |]]; simpl in *; [| done].
  by destruct Hfree.
Qed.

Lemma pdf_ingest_throw env req st e :
  hasUploadInProgress st = false ->
  PdfUpload.processMultipartUpload req = Throw e ->
  isServiceError e = true ->
  pdfUploadProcess env req st = (st, Throw e).
Proof.
  intros Hfree Hin Hsvc. unfold pdfUploadProcess, pdfUploadGuarded, pdfUploadInner.
  rewrite Hfree, Hin. simpl. rewrite Hsvc.
  by rewrite (gate_roundtrip st (uuid env) Hfree).
Qed.

Lemma pdf_reject_signature env req st b :
  hasUploadInProgress st = false ->
  PdfUpload.processMultipartUpload req = Ok b ->
  isPDFFile b = false ->
  failsWith (pdfUploadProcess env req st) st "INVALID_FILE_TYPE" 400 NoDetails.
Proof.
  intros Hfree Hin Hsig. unfold pdfUploadProcess, pdfUploadGuarded, pdfUploadInner.
  rewrite Hfree, Hin.
  rewrite (ingested_within_limit PDF_UPLOAD_LIMITS "PDF" req b) by done.
  rewrite Hsig. simpl. rewrite (gate_roundtrip st (uuid env) Hfree). by eexists.
Qed.

(** The store operation at the end of the inner [try]. *)
Lemma stored_outcome (entity : PDFUploadEntity) (isolate : bool) st :
  exists st' r, (if isolate then addToIsolated entity st else add entity st) = (st', r) /\
    ((r = Ok entity) \/ (exists m, r = Throw (NativeError "Error" None m) /\ st' = st)).
Proof.
  unfold addToIsolated, add.
  destruct isolate; case_match; eauto 7.
Qed.

Lemma pdf_invalid_type_iff env req st :
  hasUploadInProgress st = false ->
  thrownCode (snd (pdfUploadProcess env req st)) = Some "INVALID_FILE_TYPE"
  <-> exists b, PdfUpload.processMultipartUpload req = Ok b /\ isPDFFile b = false.
Proof.
  intros Hfree.
  destruct (PdfUpload.processMultipartUpload req) as [b | e |] eqn:Hin.
  - destruct (isPDFFile b) eqn:Hsig.
    + split; [| by intros (b' & [= <-] & ?); congruence].
      unfold pdfUploadProcess, pdfUploadGuarded, pdfUploadInner.
      rewrite Hfree, Hin.
      rewrite (ingested_within_limit PDF_UPLOAD_LIMITS "PDF" req b) by done.
      rewrite Hsig. simpl.
      destruct (valid (validatePDFStructure b)); simpl; [| done].
      destruct (bool_decide (scanForVirus (race env) b = infectado)); simpl; [done |].
      destruct (stored_outcome (buildEntity env req b (scanForVirus (race env) b))
                  (bool_decide (scanForVirus (race env) b = erro_scan))
                  (setUploadInProgress (uuid env) st))
        as (st' & r & -> & [-> | (m & -> & ->)]); simpl; done.
    + destruct (pdf_reject_signature env req st b Hfree Hin Hsig) as [msg ->].
      simpl. split; [by exists b | done].
  - destruct (ingestion_throws _ _ _ _ Hin) as [Hsvc Hcode].
    rewrite (pdf_ingest_throw env req st e Hfree Hin Hsvc). simpl.
    split; [| by intros (b & ? & _)].
    intros Heq. rewrite Heq in Hcode. by destruct Hcode as [? | [? | ?]].
  - unfold pdfUploadProcess, pdfUploadGuarded, pdfUploadInner. rewrite Hfree, Hin. simpl.
    split; [done | by intros (b & ? & _)].
Qed.

End Pipelines.

Lemma zeros_length n : 0 <= n -> Buffer.length (zeros n) = n.
Proof. intros Hn. unfold Buffer.length, zeros. rewrite repeat_length. lia. Qed.

(** ** C5: signature validation *)

(** C5. A buffer is accepted as PNG (resp. PDF) exactly when its first 8
    (resp. 5) bytes are the magic sequence: a shorter buffer, or one that
    differs at any of those positions, is rejected, and the upload then fails
    with INVALID_FILE_TYPE.  Whether an upload fails with that code is
    determined by the bytes of the request body alone: the headers (declared
    name and type), the environment and the store play no part. *)
Theorem signature_validator_is_byte_exact :
  (forall b, FileUpload.isPNGFile b = true <-> take 8 b = FileUpload.PNG_SIGNATURE) /\
  (forall b, Buffer.length b < 8 -> FileUpload.isPNGFile b = false) /\
  (forall b i, (i < 8)%nat -> b !! i <> FileUpload.PNG_SIGNATURE !! i ->
     FileUpload.isPNGFile b = false) /\
  (forall b, PdfUpload.isPDFFile b = true <-> take 5 b = PdfUpload.PDF_SIGNATURE) /\
  (forall b, Buffer.length b < 5 -> PdfUpload.isPDFFile b = false) /\
  (forall b i, (i < 5)%nat -> b !! i <> PdfUpload.PDF_SIGNATURE !! i ->
     PdfUpload.isPDFFile b = false) /\
  (forall env req st,
     thrownCode (snd (FileUpload.fileUploadProcess env req st)) = Some "INVALID_FILE_TYPE"
     <-> exists b, ingestionOf FILE_UPLOAD_LIMITS "PNG" (body req) = Ok b /\
                   FileUpload.isPNGFile b = false) /\
  (forall env req st, PdfUpload.hasUploadInProgress st = false ->
     (thrownCode (snd (PdfUpload.pdfUploadProcess env req st)) = Some "INVALID_FILE_TYPE"
      <-> exists b, ingestionOf PDF_UPLOAD_LIMITS "PDF" (body req) = Ok b /\
                    PdfUpload.isPDFFile b = false)).
Proof.
  split_and!.
  - apply isPNGFile_spec.
  - intros b Hlen. apply not_true_is_false. rewrite isPNGFile_spec.
    apply (take_short FileUpload.PNG_SIGNATURE). unfold Buffer.length in Hlen. simpl. lia.
  - intros b i Hi Hne. apply not_true_is_false. rewrite isPNGFile_spec.
    by apply (take_differs FileUpload.PNG_SIGNATURE b i).
  - apply isPDFFile_spec.
  - intros b Hlen. apply not_true_is_false. rewrite isPDFFile_spec.
    apply (take_short PdfUpload.PDF_SIGNATURE). unfold Buffer.length in Hlen. simpl. lia.
  - intros b i Hi Hne. apply not_true_is_false. rewrite isPDFFile_spec.
    by apply (take_differs PdfUpload.PDF_SIGNATURE b i).
  - intros env req st. apply png_invalid_type_iff.
  - intros env req st Hfree. by apply pdf_invalid_type_iff.
Qed.

Lemma signature_validator_is_byte_exact_witness :
  FileUpload.isPNGFile png1x1 = true /\
  FileUpload.isPNGFile [x89; x50; x4e; x47] = false /\
  FileUpload.isPNGFile (x88 :: drop 1 png1x1) = false /\
  PdfUpload.isPDFFile pdfMinimal = true /\
  PdfUpload.isPDFFile [x25; x50] = false /\
  PdfUpload.isPDFFile (take 4 pdfMinimal ++ [x2e])%list = false /\
  thrownCode (snd (FileUpload.fileUploadProcess pngEnv (whole pdfMinimal) FileUpload.empty))
    = Some "INVALID_FILE_TYPE" /\
  thrownCode (snd (PdfUpload.pdfUploadProcess (pdfEnv idA PdfUpload.ScanFirst)
                     (whole png1x1) PdfUpload.empty))
    = Some "INVALID_FILE_TYPE".
Proof.
  destruct signature_validator_is_byte_exact
    as (Hpng & Hpng_short & Hpng_diff & Hpdf & Hpdf_short & Hpdf_diff & Hup_png & Hup_pdf).
  split_and!.
  - apply Hpng. reflexivity.
  - apply Hpng_short. vm_compute. reflexivity.
  - apply (Hpng_diff _ 0%nat); [lia | discriminate].
  - apply Hpdf. reflexivity.
  - apply Hpdf_short. vm_compute. reflexivity.
  - apply (Hpdf_diff _ 4%nat); [lia | discriminate].
  - apply Hup_png. exists pdfMinimal. split; reflexivity.
  - apply Hup_pdf; [reflexivity |]. exists png1x1. split; reflexivity.
Defined.

(** ** C9: the size guard and the stream's failure modes *)

(** C9. On both pipelines (ceiling 10 MiB for images, 50 MiB for documents):
    - once the running total of the [data] events passes the ceiling, the
      upload fails with FILE_TOO_LARGE whatever the stream emits afterwards
      (it may never end), and the store is left as it was;
    - a stream that ends with zero bytes observed fails with
      VALIDATION_ERROR;
    - a stream error fails with UPLOAD_FAILED whose details are the cause.
    For documents the store left behind has its in-flight gate cleared. *)
Theorem size_guard_outcomes :
  (forall env hdrs st pre c rest,
     forallb isData pre = true ->
     bytesOf pre <= 10 * 1024 * 1024 ->
     bytesOf pre + Buffer.length c > 10 * 1024 * 1024 ->
     failsWith (FileUpload.fileUploadProcess env (mkRequest hdrs (pre ++ DataEv c :: rest)) st)
       st "FILE_TOO_LARGE" 413 NoDetails) /\
  (forall env hdrs st pre c rest,
     PdfUpload.hasUploadInProgress st = false ->
     forallb isData pre = true ->
     bytesOf pre <= 50 * 1024 * 1024 ->
     bytesOf pre + Buffer.length c > 50 * 1024 * 1024 ->
     failsWith (PdfUpload.pdfUploadProcess env (mkRequest hdrs (pre ++ DataEv c :: rest)) st)
       st "FILE_TOO_LARGE" 413 NoDetails) /\
  (forall env hdrs st pre rest,
     forallb isData pre = true -> Forall nonEmptyData pre -> bytesOf pre = 0 ->
     failsWith (FileUpload.fileUploadProcess env (mkRequest hdrs (pre ++ EndEv :: rest)) st)
       st "VALIDATION_ERROR" 400 NoDetails) /\
  (forall env hdrs st pre rest,
     PdfUpload.hasUploadInProgress st = false ->
     forallb isData pre = true -> Forall nonEmptyData pre -> bytesOf pre = 0 ->
     failsWith (PdfUpload.pdfUploadProcess env (mkRequest hdrs (pre ++ EndEv :: rest)) st)
       st "VALIDATION_ERROR" 400 NoDetails) /\
  (forall env hdrs st pre cause rest,
     forallb isData pre = true ->
     bytesOf pre <= 10 * 1024 * 1024 ->
     failsWith (FileUpload.fileUploadProcess env (mkRequest hdrs (pre ++ ErrorEv cause :: rest)) st)
       st "UPLOAD_FAILED" 500 (Cause cause)) /\
  (forall env hdrs st pre cause rest,
     PdfUpload.hasUploadInProgress st = false ->
     forallb isData pre = true ->
     bytesOf pre <= 50 * 1024 * 1024 ->
     failsWith (PdfUpload.pdfUploadProcess env (mkRequest hdrs (pre ++ ErrorEv cause :: rest)) st)
       st "UPLOAD_FAILED" 500 (Cause cause)).
Proof.
  split_and!.
  - intros env hdrs st pre c rest Hd Hb Hover. eexists.
    apply png_ingest_throw; [| done].
    by apply (ingest_overflow FILE_UPLOAD_LIMITS "PNG").
  - intros env hdrs st pre c rest Hfree Hd Hb Hover. eexists.
    apply pdf_ingest_throw; [done | | done].
    by apply (ingest_overflow PDF_UPLOAD_LIMITS "PDF").
  - intros env hdrs st pre rest Hd Hne Hz. eexists.
    apply png_ingest_throw; [| done].
    by apply (ingest_empty FILE_UPLOAD_LIMITS "PNG").
  - intros env hdrs st pre rest Hfree Hd Hne Hz. eexists.
    apply pdf_ingest_throw; [done | | done].
    by apply (ingest_empty PDF_UPLOAD_LIMITS "PDF").
  - intros env hdrs st pre cause rest Hd Hb. eexists.
    apply png_ingest_throw; [| done].
    by apply (ingest_error FILE_UPLOAD_LIMITS "PNG").
  - intros env hdrs st pre cause rest Hfree Hd Hb. eexists.
    apply pdf_ingest_throw; [done | | done].
    by apply (ingest_error PDF_UPLOAD_LIMITS "PDF").
Qed.

Lemma size_guard_outcomes_witness :
  failsWith (FileUpload.fileUploadProcess pngEnv
               (mkRequest ∅ ([DataEv png1x1] ++ DataEv (zeros (10 * 1024 * 1024)) :: []))
               FileUpload.empty)
    FileUpload.empty "FILE_TOO_LARGE" 413 NoDetails /\
  failsWith (PdfUpload.pdfUploadProcess (pdfEnv idA PdfUpload.ScanFirst)
               (mkRequest ∅ ([DataEv pdfMinimal] ++ DataEv (zeros (50 * 1024 * 1024)) :: [EndEv]))
               PdfUpload.empty)
    PdfUpload.empty "FILE_TOO_LARGE" 413 NoDetails /\
  failsWith (FileUpload.fileUploadProcess pngEnv (mkRequest ∅ ([] ++ EndEv :: []))
               FileUpload.empty)
    FileUpload.empty "VALIDATION_ERROR" 400 NoDetails /\
  failsWith (PdfUpload.pdfUploadProcess (pdfEnv idA PdfUpload.ScanFirst)
               (mkRequest ∅ ([] ++ EndEv :: [])) PdfUpload.empty)
    PdfUpload.empty "VALIDATION_ERROR" 400 NoDetails /\
  failsWith (FileUpload.fileUploadProcess pngEnv
               (mkRequest ∅ ([DataEv png1x1] ++ ErrorEv connectionReset :: []))
               FileUpload.empty)
    FileUpload.empty "UPLOAD_FAILED" 500 (Cause connectionReset) /\
  failsWith (PdfUpload.pdfUploadProcess (pdfEnv idA PdfUpload.ScanFirst)
               (mkRequest ∅ ([DataEv pdfMinimal] ++ ErrorEv connectionReset :: []))
               PdfUpload.empty)
    PdfUpload.empty "UPLOAD_FAILED" 500 (Cause connectionReset).
Proof.
  destruct size_guard_outcomes as (Hbig & Hbig' & Hnone & Hnone' & Herr & Herr').
  assert (bytesOf [DataEv png1x1] = 70) as Hpng by reflexivity.
  assert (bytesOf [DataEv pdfMinimal] = 45) as Hpdf by reflexivity.
  split_and!.
  - apply Hbig; [reflexivity | rewrite Hpng; lia |].
    rewrite Hpng, zeros_length; lia.
  - apply Hbig'; [reflexivity | reflexivity | rewrite Hpdf; lia |].
    rewrite Hpdf, zeros_length; lia.
  - apply Hnone; [reflexivity | constructor | reflexivity].
  - apply Hnone'; [reflexivity | reflexivity | constructor | reflexivity].
  - apply Herr; [reflexivity | rewrite Hpng; lia].
  - apply Herr'; [reflexivity | reflexivity | rewrite Hpdf; lia].
Defined.

(** ** C4: order of the structural checks *)

Lemma firstFailing_split pre present kind post content :
  Forall (fun c => fst c content = true) pre ->
  present content = false ->
  firstFailing (pre ++ (present, kind) :: post)%list content = Some kind.
Proof.
  induction 1 as [| [p k] pre Hp _ IH]; intros Hfail; simpl.
  - by rewrite Hfail.
  - simpl in Hp. rewrite Hp. by apply IH.
Qed.

Lemma validatePDFStructure_firstFailing b :
  reportedKind b = firstFailing pdfChecks (Buffer.toLatin1 b) /\
  PdfUpload.valid (PdfUpload.validatePDFStructure b)
    = bool_decide (firstFailing pdfChecks (Buffer.toLatin1 b) = None).
Proof.
  unfold reportedKind, PdfUpload.validatePDFStructure, PdfUpload.validatePDFChecks, pdfChecks.
  simpl.
  destruct (JsString.startsWith (Buffer.toLatin1 b) "%PDF-"); simpl; [| done].
  destruct (JsString.includes (Buffer.toLatin1 b) "xref"); simpl; [| done].
  destruct (JsString.includes (Buffer.toLatin1 b) "trailer"); simpl; [| done].
  destruct (JsString.includes (Buffer.toLatin1 b) "startxref"); simpl; [| done].
  destruct (JsString.includes (Buffer.toLatin1 b) "%%EOF"); simpl; [| done].
  destruct (JsString.testObjHeader (Buffer.toLatin1 b)); simpl; done.
Qed.

(** C4. Structural validation reports the kind of the first failing check in
    the order header, xref, trailer, startxref, %%EOF, object pattern: the
    report is the first failure of that ordered list; whenever the checks
    before some check pass and that check fails, its kind is reported whatever
    the later checks would say; and a buffer with a PDF header and neither
    [xref] nor [trailer] reports the xref kind. *)
Theorem structural_checks_first_failure_wins :
  (forall b,
     reportedKind b = firstFailing pdfChecks (Buffer.toLatin1 b) /\
     (PdfUpload.valid (PdfUpload.validatePDFStructure b) = true
      <-> firstFailing pdfChecks (Buffer.toLatin1 b) = None)) /\
  (forall b pre present kind post,
     pdfChecks = (pre ++ (present, kind) :: post)%list ->
     Forall (fun c => fst c (Buffer.toLatin1 b) = true) pre ->
     present (Buffer.toLatin1 b) = false ->
     reportedKind b = Some kind /\
     PdfUpload.valid (PdfUpload.validatePDFStructure b) = false) /\
  (forall b,
     JsString.startsWith (Buffer.toLatin1 b) "%PDF-" = true ->
     JsString.includes (Buffer.toLatin1 b) "xref" = false ->
     JsString.includes (Buffer.toLatin1 b) "trailer" = false ->
     reportedKind b = Some PdfUpload.xref_corrompida /\
     reportedKind b <> Some PdfUpload.trailer_ausente).
Proof.
  split_and!.
  - intros b. destruct (validatePDFStructure_firstFailing b) as [Hkind Hvalid].
    split; [done |]. rewrite Hvalid. apply bool_decide_eq_true.
  - intros b pre present kind post Hsplit Hpre Hfail.
    destruct (validatePDFStructure_firstFailing b) as [Hkind Hvalid].
    rewrite Hkind, Hvalid, Hsplit, (firstFailing_split pre present kind post) by done.
    split; [done |]. by apply bool_decide_eq_false.
  - intros b Hhead Hxref Htrailer.
    destruct (validatePDFStructure_firstFailing b) as [Hkind _].
    rewrite Hkind. unfold pdfChecks. simpl. rewrite Hhead, Hxref. done.
Qed.

Lemma structural_checks_first_failure_wins_witness :
  (reportedKind pdfMinimal = None /\
   PdfUpload.valid (PdfUpload.validatePDFStructure pdfMinimal) = true) /\
  (reportedKind (list_byte_of_string "%PDF-1.7 xref 1 0 obj") = Some PdfUpload.trailer_ausente /\
   PdfUpload.valid (PdfUpload.validatePDFStructure (list_byte_of_string "%PDF-1.7 xref 1 0 obj"))
     = false) /\
  (reportedKind pdfNoXrefNoTrailer = Some PdfUpload.xref_corrompida /\
   reportedKind pdfNoXrefNoTrailer <> Some PdfUpload.trailer_ausente).
Proof.
  destruct structural_checks_first_failure_wins as (Hfirst & Hsplit & Hxref).
  split; [| split].
  - split; [by rewrite (proj1 (Hfirst pdfMinimal)) | by apply (Hfirst pdfMinimal)].
  - apply (Hsplit _ (take 2 pdfChecks) (fun s => JsString.includes s "trailer")
             PdfUpload.trailer_ausente (drop 3 pdfChecks));
      [reflexivity | by repeat constructor | reflexivity].
  - apply Hxref; reflexivity.
Defined.

(** ** C6: capacity of the stores *)

Section Capacity.

Lemma png_add_full st e :
  (100 <= size (FileUpload.records st))%nat ->
  FileUpload.add e st = (st, Throw limitReached).
Proof.
  intros Hfull. unfold FileUpload.add. simpl.
  destruct (Z.geb_spec (Z.of_nat (size (FileUpload.records st))) 100); [done | lia].
Qed.

Lemma png_add_room st e :
  (size (FileUpload.records st) < 100)%nat ->
  FileUpload.add e st =
    (FileUpload.mkStore (<[FileUpload.id e := e]> (FileUpload.records st)), Ok e).
Proof.
  intros Hroom. unfold FileUpload.add. simpl.
  destruct (Z.geb_spec (Z.of_nat (size (FileUpload.records st))) 100); [lia | done].
Qed.

Lemma pdf_add_full st e :
  (100 <= size (PdfUpload.records st))%nat ->
  PdfUpload.add e st = (st, Throw limitReached).
Proof.
  intros Hfull. unfold PdfUpload.add. simpl.
  destruct (Z.geb_spec (Z.of_nat (size (PdfUpload.records st))) 100); [done | lia].
Qed.

Lemma pdf_add_room st e :
  (size (PdfUpload.records st) < 100)%nat ->
  PdfUpload.add e st =
    (PdfUpload.mkStore (<[PdfUpload.id e := e]> (PdfUpload.records st))
       (PdfUpload.isolatedRecords st) (PdfUpload.uploadInProgress st), Ok e).
Proof.
  intros Hroom. unfold PdfUpload.add. simpl.
  destruct (Z.geb_spec (Z.of_nat (size (PdfUpload.records st))) 100); [lia | done].
Qed.

Lemma pdf_isolate_full st e :
  (100 <= size (PdfUpload.isolatedRecords st))%nat ->
  PdfUpload.addToIsolated e st = (st, Throw isolatedLimitReached).
Proof.
  intros Hfull. unfold PdfUpload.addToIsolated. simpl.
  destruct (Z.geb_spec (Z.of_nat (size (PdfUpload.isolatedRecords st))) 100); [done | lia].
Qed.

Lemma pdf_isolate_room st e :
  (size (PdfUpload.isolatedRecords st) < 100)%nat ->
  PdfUpload.addToIsolated e st =
    (PdfUpload.mkStore (PdfUpload.records st)
       (<[PdfUpload.id e := e]> (PdfUpload.isolatedRecords st))
       (PdfUpload.uploadInProgress st), Ok e).
Proof.
  intros Hroom. unfold PdfUpload.addToIsolated. simpl.
  destruct (Z.geb_spec (Z.of_nat (size (PdfUpload.isolatedRecords st))) 100); [lia | done].
Qed.

Lemma size_after_delete {V} (m : gmap string V) i :
  is_Some (m !! i) -> S (size (base.delete i m)) = size m.
Proof.
  intros [v Hv]. rewrite <- (insert_delete_id m i v Hv) at 2.
  rewrite map_size_insert_None; [done | apply lookup_delete_eq].
Qed.

(** Deleting an id that only the isolated map holds frees no room in the
    primary map. *)
Lemma pdf_delete_isolated_only st i :
  PdfUpload.records st !! i = None ->
  PdfUpload.records (fst (PdfUpload.delete i st)) = PdfUpload.records st /\
  PdfUpload.isolatedRecords (fst (PdfUpload.delete i st))
    = base.delete i (PdfUpload.isolatedRecords st).
Proof.
  intros Hnone. unfold PdfUpload.delete. rewrite Hnone.
  by rewrite bool_decide_eq_false_2 by (by intros [? ?]).
Qed.

End Capacity.

(** C6. In both stores [add] fails with the capacity error once the primary
    map holds 100 records, and succeeds again after the [delete] of an id the
    primary map holds; the document store's [addToIsolated] fails exactly when
    the isolated map holds 100 records or more, whatever the size of the
    primary map, and [add] likewise ignores the isolated map. *)
Theorem capacity_is_a_live_count :
  (forall st e, size (FileUpload.records st) = 100%nat ->
     FileUpload.add e st = (st, Throw limitReached)) /\
  (forall st i e, size (FileUpload.records st) = 100%nat ->
     is_Some (FileUpload.records st !! i) ->
     snd (FileUpload.delete i st) = true /\
     snd (FileUpload.add e (fst (FileUpload.delete i st))) = Ok e /\
     FileUpload.getById (FileUpload.id e)
       (fst (FileUpload.add e (fst (FileUpload.delete i st)))) = Some e) /\
  (forall st e, size (PdfUpload.records st) = 100%nat ->
     PdfUpload.add e st = (st, Throw limitReached)) /\
  (forall st i e, size (PdfUpload.records st) = 100%nat ->
     is_Some (PdfUpload.records st !! i) ->
     snd (PdfUpload.delete i st) = true /\
     snd (PdfUpload.add e (fst (PdfUpload.delete i st))) = Ok e /\
     PdfUpload.getById (PdfUpload.id e)
       (fst (PdfUpload.add e (fst (PdfUpload.delete i st)))) = Some e) /\
  (forall st e,
     (100 <= size (PdfUpload.isolatedRecords st))%nat ->
     PdfUpload.addToIsolated e st = (st, Throw isolatedLimitReached)) /\
  (forall st e,
     (size (PdfUpload.isolatedRecords st) < 100)%nat ->
     snd (PdfUpload.addToIsolated e st) = Ok e /\
     PdfUpload.isolatedRecords (fst (PdfUpload.addToIsolated e st)) !! PdfUpload.id e = Some e /\
     PdfUpload.records (fst (PdfUpload.addToIsolated e st)) = PdfUpload.records st) /\
  (forall st e,
     (size (PdfUpload.records st) < 100)%nat ->
     snd (PdfUpload.add e st) = Ok e /\
     PdfUpload.isolatedRecords (fst (PdfUpload.add e st)) = PdfUpload.isolatedRecords st).
Proof.
  split_and!.
  - intros st e Hfull. apply png_add_full. lia.
  - intros st i e Hfull Hin.
    pose proof (size_after_delete _ i Hin) as Hsize.
    unfold FileUpload.delete. simpl. split; [by apply bool_decide_eq_true |].
    rewrite png_add_room by (simpl; lia). simpl.
    split; [done | apply lookup_insert_eq].
  - intros st e Hfull. apply pdf_add_full. lia.
  - intros st i e Hfull Hin.
    pose proof (size_after_delete _ i Hin) as Hsize.
    unfold PdfUpload.delete. rewrite bool_decide_eq_true_2 by done. simpl.
    split; [done |].
    rewrite pdf_add_room by (simpl; lia). simpl.
    split; [done |]. unfold PdfUpload.getById. simpl. by rewrite lookup_insert_eq.
  - intros st e Hfull. by apply pdf_isolate_full.
  - intros st e Hroom. rewrite pdf_isolate_room by done. simpl.
    split_and!; [done | apply lookup_insert_eq | done].
  - intros st e Hroom. by rewrite pdf_add_room.
Qed.

Lemma capacity_is_a_live_count_witness :
  FileUpload.add pngEntity (pngUploads 100) = (pngUploads 100, Throw limitReached) /\
  (snd (FileUpload.delete (uploadId 7) (pngUploads 100)) = true /\
   snd (FileUpload.add pngEntity (fst (FileUpload.delete (uploadId 7) (pngUploads 100))))
     = Ok pngEntity /\
   FileUpload.getById (FileUpload.id pngEntity)
     (fst (FileUpload.add pngEntity (fst (FileUpload.delete (uploadId 7) (pngUploads 100)))))
     = Some pngEntity) /\
  PdfUpload.add (pdfEntity PdfUpload.limpo) (pdfUploads PdfUpload.ScanFirst 100)
    = (pdfUploads PdfUpload.ScanFirst 100, Throw limitReached) /\
  (snd (PdfUpload.delete (uploadId 99) (pdfUploads PdfUpload.ScanFirst 100)) = true /\
   snd (PdfUpload.add (pdfEntity PdfUpload.limpo)
          (fst (PdfUpload.delete (uploadId 99) (pdfUploads PdfUpload.ScanFirst 100))))
     = Ok (pdfEntity PdfUpload.limpo) /\
   PdfUpload.getById (PdfUpload.id (pdfEntity PdfUpload.limpo))
     (fst (PdfUpload.add (pdfEntity PdfUpload.limpo)
             (fst (PdfUpload.delete (uploadId 99) (pdfUploads PdfUpload.ScanFirst 100)))))
     = Some (pdfEntity PdfUpload.limpo)) /\
  PdfUpload.addToIsolated (pdfEntity PdfUpload.erro_scan) (pdfUploads PdfUpload.TimeoutFirst 100)
    = (pdfUploads PdfUpload.TimeoutFirst 100, Throw isolatedLimitReached) /\
  (snd (PdfUpload.addToIsolated (pdfEntity PdfUpload.erro_scan)
          (pdfUploads PdfUpload.ScanFirst 100)) = Ok (pdfEntity PdfUpload.erro_scan) /\
   PdfUpload.isolatedRecords
     (fst (PdfUpload.addToIsolated (pdfEntity PdfUpload.erro_scan)
             (pdfUploads PdfUpload.ScanFirst 100)))
     !! PdfUpload.id (pdfEntity PdfUpload.erro_scan) = Some (pdfEntity PdfUpload.erro_scan) /\
   PdfUpload.records
     (fst (PdfUpload.addToIsolated (pdfEntity PdfUpload.erro_scan)
             (pdfUploads PdfUpload.ScanFirst 100)))
     = PdfUpload.records (pdfUploads PdfUpload.ScanFirst 100)) /\
  (snd (PdfUpload.add (pdfEntity PdfUpload.limpo) (pdfUploads PdfUpload.TimeoutFirst 100))
     = Ok (pdfEntity PdfUpload.limpo) /\
   PdfUpload.isolatedRecords
     (fst (PdfUpload.add (pdfEntity PdfUpload.limpo) (pdfUploads PdfUpload.TimeoutFirst 100)))
     = PdfUpload.isolatedRecords (pdfUploads PdfUpload.TimeoutFirst 100)).
Proof.
  destruct capacity_is_a_live_count
    as (Hpng & Hpng_del & Hpdf & Hpdf_del & Hiso_full & Hiso_room & Hadd_room).
  split; [| split; [| split; [| split; [| split; [| split]]]]].
  - apply Hpng. vm_compute. reflexivity.
  - apply Hpng_del; [vm_compute; reflexivity |].
    apply (bool_decide_unpack _). vm_compute. exact I.
  - apply Hpdf. vm_compute. reflexivity.
  - apply Hpdf_del; [vm_compute; reflexivity |].
    apply (bool_decide_unpack _). vm_compute. exact I.
  - apply Hiso_full. apply Nat.leb_le. vm_compute. reflexivity.
  - apply Hiso_room. apply Nat.ltb_lt. vm_compute. reflexivity.
  - apply Hadd_room. apply Nat.ltb_lt. vm_compute. reflexivity.
Defined.

(** ** The document service as a state machine *)
Section DocumentInvariants.
Import PdfUpload.

Lemma partitioned_empty : partitioned empty.
Proof. split; intros i e; simpl; by rewrite lookup_empty. Qed.

Lemma partitioned_gate st g :
  partitioned st -> partitioned (mkStore (records st) (isolatedRecords st) g).
Proof. done. Qed.

Lemma partitioned_add st e st' r :
  partitioned st -> accepted e -> scanResult e = limpo ->
  add e st = (st', r) -> partitioned st'.
Proof.
  intros [Hp Hq] Hacc Hscan. unfold add. case_match; intros [= <- <-]; [done |].
  split; simpl; [| done].
  intros i e'. rewrite lookup_insert. case_decide; [| by apply Hp].
  by intros [= <-].
Qed.

Lemma partitioned_isolate st e st' r :
  partitioned st -> accepted e -> scanResult e = erro_scan ->
  addToIsolated e st = (st', r) -> partitioned st'.
Proof.
  intros [Hp Hq] Hacc Hscan. unfold addToIsolated. case_match; intros [= <- <-]; [done |].
  split; simpl; [done |].
  intros i e'. rewrite lookup_insert. case_decide; [| by apply Hq].
  by intros [= <-].
Qed.

Lemma partitioned_delete st i : partitioned st -> partitioned (fst (delete i st)).
Proof.
  intros [Hp Hq]. unfold delete. case_match; simpl; split; simpl; try done.
  - intros j e. rewrite lookup_delete. case_decide; [done | by apply Hp].
  - intros j e. rewrite lookup_delete. case_decide; [done | by apply Hq].
Qed.

Lemma scan_outcomes r b : scanForVirus r b = limpo \/ scanForVirus r b = erro_scan.
Proof. destruct r; simpl; auto. Qed.

Lemma partitioned_inner env req st :
  partitioned st -> partitioned (fst (pdfUploadInner env req st)).
Proof.
  intros Hst. unfold pdfUploadInner.
  destruct (PdfUpload.processMultipartUpload req) as [b | e |]; [| done | done].
  destruct (Buffer.length b >? MAX_FILE_SIZE PDF_UPLOAD_LIMITS); [done |].
  destruct (isPDFFile b) eqn:Hsig; [| done].
  destruct (valid (validatePDFStructure b)) eqn:Hvalid; [| done].
  destruct (bool_decide (scanForVirus (race env) b = infectado)); [done |]. simpl.
  set (scan := scanForVirus (race env) b).
  set (entity := buildEntity env req b scan).
  assert (accepted entity) as Hacc by (by split_and!).
  destruct (scan_outcomes (race env) b) as [Hscan | Hscan]; fold scan in Hscan; rewrite Hscan.
  - simpl. destruct (add entity st) as [st' r] eqn:Hadd.
    assert (partitioned st') as Hst'.
    { by apply (partitioned_add st entity st' r). }
    by destruct r.
  - simpl. destruct (addToIsolated entity st) as [st' r] eqn:Hadd.
    assert (partitioned st') as Hst'.
    { by apply (partitioned_isolate st entity st' r). }
    by destruct r.
Qed.

Lemma partitioned_finish env req st :
  partitioned st -> partitioned (fst (pdfUploadFinish env req st)).
Proof.
  intros Hst. unfold pdfUploadFinish, pdfUploadGuarded.
  pose proof (partitioned_inner env req st Hst) as Hin.
  destruct (pdfUploadInner env req st) as [st' [a | e |]]; done.
Qed.

Lemma partitioned_begin env st :
  partitioned st -> partitioned (fst (pdfUploadBegin env st)).
Proof. intros Hst. unfold pdfUploadBegin. by case_match. Qed.

Lemma partitioned_cancel params st :
  partitioned st -> partitioned (fst (pdfUploadCancel params st)).
Proof.
  intros Hst. unfold pdfUploadCancel.
  destruct (parseUuidField "id" params); [| done].
  case_match; [done |]. by apply partitioned_delete.
Qed.

Lemma step_partitioned s s' : step s s' -> partitioned (store s) -> partitioned (store s').
Proof.
  intros Hstep Hst. destruct Hstep as [env req s st' Hb | env s st' e Hb
    | env req s pre post st' r _ Hf _ | params s | params s]; simpl.
  - pose proof (partitioned_begin env (store s) Hst) as H. by rewrite Hb in H.
  - pose proof (partitioned_begin env (store s) Hst) as H. by rewrite Hb in H.
  - pose proof (partitioned_finish env req (store s) Hst) as H. by rewrite Hf in H.
  - done.
  - by apply partitioned_cancel.
Qed.

Lemma reachable_partitioned s : reachable s -> partitioned (store s).
Proof.
  induction 1 as [| s s' _ IH Hstep]; [apply partitioned_empty |].
  by apply (step_partitioned s s').
Qed.

(** *** The gate *)

(** The ways the inner [try] block ends. *)
Lemma inner_outcome env req st :
  pdfUploadInner env req st = (st, Hang) \/
  (exists e, pdfUploadInner env req st = (st, Throw e) /\
             isServiceError e = true /\ errorCode e <> Some "UPLOAD_IN_PROGRESS") \/
  (exists m, pdfUploadInner env req st = (st, Throw (NativeError "Error" None m))) \/
  (exists b st1,
     let entity := buildEntity env req b (scanForVirus (race env) b) in
     PdfUpload.processMultipartUpload req = Ok b /\
     (if bool_decide (scanForVirus (race env) b = erro_scan)
      then addToIsolated entity st else add entity st) = (st1, Ok entity) /\
     pdfUploadInner env req st = (clearUploadInProgress st1, Ok (toResponse entity))).
Proof.
  unfold pdfUploadInner.
  destruct (PdfUpload.processMultipartUpload req) as [b | e |] eqn:Hin; [| | by left].
  - destruct (Buffer.length b >? MAX_FILE_SIZE PDF_UPLOAD_LIMITS);
      [right; left; by eexists |].
    destruct (isPDFFile b); simpl; [| right; left; by eexists].
    destruct (valid (validatePDFStructure b)); simpl; [| right; left; by eexists].
    destruct (bool_decide (scanForVirus (race env) b = infectado)); simpl;
      [right; left; by eexists |].
    destruct (stored_outcome (buildEntity env req b (scanForVirus (race env) b))
                (bool_decide (scanForVirus (race env) b = erro_scan)) st)
      as (st1 & r1 & Hst & [-> | (m & -> & ->)]); rewrite Hst.
    + right; right; right. by exists b, st1.
    + right; right; left. by exists m.
  - destruct (ingestion_throws _ _ _ _ Hin) as [Hsvc Hcode].
    right; left. exists e. split_and!; [done | done |].
    intros Heq. rewrite Heq in Hcode. by destruct Hcode as [? | [? | ?]].
Qed.

Lemma finish_clears_gate env req st st' r :
  pdfUploadFinish env req st = (st', r) -> r <> Hang -> uploadInProgress st' = None.
Proof.
  unfold pdfUploadFinish, pdfUploadGuarded.
  destruct (inner_outcome env req st)
    as [-> | [(e & -> & _) | [(m & ->) | (b & st1 & _ & _ & ->)]]];
    simpl; by intros [= <- <-].
Qed.

Lemma process_two_phase env req st :
  pdfUploadProcess env req st =
    match pdfUploadBegin env st with
    | (st1, Ok _) => pdfUploadFinish env req st1
    | (st1, Throw e) => (st1, Throw e)
    | (st1, Hang) => (st1, Hang)
    end.
Proof.
  unfold pdfUploadProcess, pdfUploadBegin, pdfUploadFinish.
  by destruct (hasUploadInProgress st).
Qed.

Lemma process_blocked env req st :
  hasUploadInProgress st = true ->
  pdfUploadProcess env req st = (st, Throw uploadInProgressError).
Proof. intros Hbusy. unfold pdfUploadProcess. by rewrite Hbusy. Qed.

Lemma gate_free_iff st : hasUploadInProgress st = false <-> uploadInProgress st = None.
Proof.
  unfold hasUploadInProgress. rewrite bool_decide_eq_false.
  destruct (uploadInProgress st) as [g |]; split; intros H; try done.
  - by destruct H.
  - intros Hne. by apply Hne.
Qed.

Lemma process_clears_gate env req st st' r :
  hasUploadInProgress st = false ->
  pdfUploadProcess env req st = (st', r) -> r <> Hang ->
  hasUploadInProgress st' = false.
Proof.
  intros Hfree. rewrite process_two_phase. unfold pdfUploadBegin. rewrite Hfree.
  intros Hfin Hr. apply gate_free_iff. by apply (finish_clears_gate _ _ _ _ _ Hfin).
Qed.

(** With the gate free an upload does not fail with UPLOAD_IN_PROGRESS. *)
Lemma process_not_blocked env req st :
  hasUploadInProgress st = false ->
  thrownCode (snd (pdfUploadProcess env req st)) <> Some "UPLOAD_IN_PROGRESS".
Proof.
  intros Hfree. unfold pdfUploadProcess, pdfUploadGuarded. rewrite Hfree.
  destruct (inner_outcome env req (setUploadInProgress (uuid env) st))
    as [-> | [(e & -> & Hsvc & Hcode) | [(m & ->) | (b & st1 & _ & _ & ->)]]];
    simpl; try done.
  by rewrite Hsvc.
Qed.

End DocumentInvariants.

Section Sequential.
Import PdfUpload.

(** An upload run to completion is a [begin] step followed at once by its
    [finish] step. *)
Lemma upload_reachable env req st fl st' r :
  reachable (mkSystem st fl) ->
  pdfUploadProcess env req st = (st', r) -> r <> Hang ->
  reachable (mkSystem st' fl).
Proof.
  intros Hreach Hrun Hr. rewrite process_two_phase in Hrun.
  destruct (pdfUploadBegin env st) as [st1 [[] | e |]] eqn:Hbegin.
  - apply (reachable_step (mkSystem st1 ((env, req) :: fl))).
    + apply (reachable_step (mkSystem st fl)); [done |].
      by apply (step_begin env req (mkSystem st fl)).
    + by apply (step_finish env req (mkSystem st1 ((env, req) :: fl)) [] fl st' r).
  - injection Hrun as <- <-.
    apply (reachable_step (mkSystem st fl)); [done |].
    by apply (step_blocked env (mkSystem st fl) st1 e).
  - by injection Hrun as <- <-.
Qed.

Lemma upload_hanging env req st fl :
  reachable (mkSystem st fl) ->
  snd (pdfUploadProcess env req st) = Hang ->
  reachable (mkSystem (fst (pdfUploadProcess env req st)) ((env, req) :: fl)).
Proof.
  intros Hreach. rewrite process_two_phase.
  destruct (pdfUploadBegin env st) as [st1 [[] | e |]] eqn:Hbegin; simpl; try done.
  - unfold pdfUploadFinish, pdfUploadGuarded.
    destruct (inner_outcome env req st1)
      as [-> | [(e & -> & Hsvc & _) | [(m & ->) | (b & st2 & _ & _ & ->)]]]; simpl; try done.
    + intros _. apply (reachable_step (mkSystem st fl)); [done |].
      by apply (step_begin env req (mkSystem st fl)).
    + by rewrite Hsvc.
  - unfold pdfUploadBegin in Hbegin. by case_match.
Qed.

Lemma perform_reachable st fl op :
  reachable (mkSystem st fl) -> exists fl', reachable (mkSystem (perform st op) fl').
Proof.
  intros Hreach. destruct op as [env req | params | params]; simpl.
  - destruct (pdfUploadProcess env req st) as [st' r] eqn:Hrun.
    assert (r = Hang \/ r <> Hang) as [-> | Hr] by (destruct r; auto).
    + exists ((env, req) :: fl).
      pose proof (upload_hanging env req st fl Hreach) as H. rewrite Hrun in H. by apply H.
    + exists fl. by apply (upload_reachable env req st fl st' r).
  - by exists fl.
  - exists fl. apply (reachable_step (mkSystem st fl)); [done |].
    apply (step_cancel params (mkSystem st fl)).
Qed.

Lemma sequential_reachable ops : exists fl, reachable (mkSystem (performAll ops) fl).
Proof.
  unfold performAll. induction ops as [| op ops IH] using rev_ind.
  - exists []. apply reachable_initial.
  - rewrite fold_left_app. simpl. destruct IH as [fl Hreach].
    by apply (perform_reachable _ fl).
Qed.

Lemma settling_reachable ops st fl :
  reachable (mkSystem st fl) -> settling st ops = true ->
  reachable (mkSystem (fold_left perform ops st) fl).
Proof.
  revert st. induction ops as [| op ops IH]; intros st Hreach Hops; [done |].
  apply andb_true_iff in Hops as [Hop Hrest].
  change (fold_left perform (op :: ops) st) with (fold_left perform ops (perform st op)).
  apply IH; [| done].
  destruct op as [env req | params | params].
  - change (perform st (Upload env req)) with (fst (pdfUploadProcess env req st)).
    destruct (pdfUploadProcess env req st) as [st' r] eqn:Hrun.
    apply (upload_reachable env req st fl st' r); [done | done |].
    intros ->. done.
  - done.
  - apply (reachable_step (mkSystem st fl)); [done |].
    apply (step_cancel params (mkSystem st fl)).
Qed.

End Sequential.

Lemma demo_reachable : PdfUpload.reachable demoSystem.
Proof.
  refine (settling_reachable demoOps PdfUpload.empty [] PdfUpload.reachable_initial _).
  vm_compute. reflexivity.
Qed.

Lemma demo_clean_stored : PdfUpload.inPrimary (PdfUpload.store demoSystem) cleanRecord.
Proof. exists idA. vm_compute. reflexivity. Qed.

Lemma demo_quarantined_stored :
  PdfUpload.inIsolated (PdfUpload.store demoSystem) quarantinedRecord.
Proof. exists idB. vm_compute. reflexivity. Qed.

(** ** C2: the quarantine partition *)

(** C2. In every state the document service can reach (uploads, lookups and
    cancellations, interleaved at their [await]s or run one after another), a
    stored record lies in the isolated partition exactly when its scan result
    is [erro_scan], and in the primary partition exactly when it is not. *)
Theorem quarantine_iff_scan_unavailable (s : PdfUpload.System) (e : PdfUpload.PDFUploadEntity) :
  PdfUpload.reachable s ->
  PdfUpload.inPrimary (PdfUpload.store s) e \/ PdfUpload.inIsolated (PdfUpload.store s) e ->
  (PdfUpload.inIsolated (PdfUpload.store s) e <-> PdfUpload.scanResult e = PdfUpload.erro_scan) /\
  (PdfUpload.inPrimary (PdfUpload.store s) e <-> PdfUpload.scanResult e <> PdfUpload.erro_scan).
Proof.
  intros Hreach Hstored.
  destruct (reachable_partitioned s Hreach) as [Hprimary Hisolated].
  assert (PdfUpload.inPrimary (PdfUpload.store s) e -> PdfUpload.scanResult e = PdfUpload.limpo)
    as Hp by (intros [i Hi]; by apply (Hprimary i)).
  assert (PdfUpload.inIsolated (PdfUpload.store s) e -> PdfUpload.scanResult e = PdfUpload.erro_scan)
    as Hq by (intros [i Hi]; by apply (Hisolated i)).
  split; split.
  - apply Hq.
  - intros Hscan. destruct Hstored as [Hin | Hin]; [| done].
    apply Hp in Hin. congruence.
  - intros Hin Hscan. apply Hp in Hin. congruence.
  - intros Hscan. destruct Hstored as [Hin | Hin]; [done |].
    apply Hq in Hin. congruence.
Qed.

Lemma quarantine_iff_scan_unavailable_witness :
  (PdfUpload.inIsolated (PdfUpload.store demoSystem) quarantinedRecord
   <-> PdfUpload.scanResult quarantinedRecord = PdfUpload.erro_scan) /\
  (PdfUpload.inPrimary (PdfUpload.store demoSystem) quarantinedRecord
   <-> PdfUpload.scanResult quarantinedRecord <> PdfUpload.erro_scan).
Proof.
  apply (quarantine_iff_scan_unavailable demoSystem quarantinedRecord).
  - exact demo_reachable.
  - right. exact demo_quarantined_stored.
Defined.

(** The same over whole operations run one after another. *)
Corollary quarantine_sequential (ops : list Operation) (e : PdfUpload.PDFUploadEntity) :
  PdfUpload.inPrimary (performAll ops) e \/ PdfUpload.inIsolated (performAll ops) e ->
  (PdfUpload.inIsolated (performAll ops) e <-> PdfUpload.scanResult e = PdfUpload.erro_scan) /\
  (PdfUpload.inPrimary (performAll ops) e <-> PdfUpload.scanResult e <> PdfUpload.erro_scan).
Proof.
  destruct (sequential_reachable ops) as [fl Hreach].
  apply (reachable_partitioned _) in Hreach. simpl in Hreach.
  destruct Hreach as [Hprimary Hisolated]. intros Hstored.
  assert (PdfUpload.inPrimary (performAll ops) e -> PdfUpload.scanResult e = PdfUpload.limpo)
    as Hp by (intros [i Hi]; by apply (Hprimary i)).
  assert (PdfUpload.inIsolated (performAll ops) e -> PdfUpload.scanResult e = PdfUpload.erro_scan)
    as Hq by (intros [i Hi]; by apply (Hisolated i)).
  split; split; [apply Hq | | |].
  - intros Hscan. destruct Hstored as [Hin | Hin]; [| done]. apply Hp in Hin. congruence.
  - intros Hin Hscan. apply Hp in Hin. congruence.
  - intros Hscan. destruct Hstored as [Hin | Hin]; [done |]. apply Hq in Hin. congruence.
Qed.

(** ** C10: what a stored document record carries *)

(** C10. Every record held by either partition in a reachable state has
    [integrityValid = true], [corruptionType = null], [status = 'concluido']
    and a scan result that is [limpo] or [erro_scan] (never [infectado] or
    [não_verificado]); its bytes carry the PDF signature and pass structural
    validation. *)
Theorem stored_documents_are_validated (s : PdfUpload.System) (e : PdfUpload.PDFUploadEntity) :
  PdfUpload.reachable s ->
  PdfUpload.inPrimary (PdfUpload.store s) e \/ PdfUpload.inIsolated (PdfUpload.store s) e ->
  PdfUpload.integrityValid e = true /\
  PdfUpload.corruptionType e = None /\
  PdfUpload.status e = PdfUpload.concluido /\
  (PdfUpload.scanResult e = PdfUpload.limpo \/ PdfUpload.scanResult e = PdfUpload.erro_scan) /\
  PdfUpload.scanResult e <> PdfUpload.infectado /\
  PdfUpload.scanResult e <> PdfUpload.nao_verificado /\
  PdfUpload.isPDFFile (PdfUpload.buffer e) = true /\
  PdfUpload.valid (PdfUpload.validatePDFStructure (PdfUpload.buffer e)) = true.
Proof.
  intros Hreach Hstored.
  destruct (reachable_partitioned s Hreach) as [Hprimary Hisolated].
  assert (accepted e /\
          (PdfUpload.scanResult e = PdfUpload.limpo \/ PdfUpload.scanResult e = PdfUpload.erro_scan))
    as [(Hint & Hcor & Hsta & Hsig & Hval) Hscan].
  { destruct Hstored as [[i Hi] | [i Hi]].
    - destruct (Hprimary i e Hi) as (? & ? & _). auto.
    - destruct (Hisolated i e Hi) as (? & ? & _). auto. }
  split_and!; try done; destruct Hscan as [-> | ->]; done.
Qed.

Lemma stored_documents_are_validated_witness :
  PdfUpload.integrityValid cleanRecord = true /\
  PdfUpload.corruptionType cleanRecord = None /\
  PdfUpload.status cleanRecord = PdfUpload.concluido /\
  (PdfUpload.scanResult cleanRecord = PdfUpload.limpo \/
   PdfUpload.scanResult cleanRecord = PdfUpload.erro_scan) /\
  PdfUpload.scanResult cleanRecord <> PdfUpload.infectado /\
  PdfUpload.scanResult cleanRecord <> PdfUpload.nao_verificado /\
  PdfUpload.isPDFFile (PdfUpload.buffer cleanRecord) = true /\
  PdfUpload.valid (PdfUpload.validatePDFStructure (PdfUpload.buffer cleanRecord)) = true.
Proof.
  apply (stored_documents_are_validated demoSystem cleanRecord).
  - exact demo_reachable.
  - left. exact demo_clean_stored.
Defined.

(** ** C3: the in-flight gate *)

(** At most one upload is in flight, and the gate is set exactly while one
    is. *)
Lemma single_flight (s : PdfUpload.System) :
  PdfUpload.reachable s ->
  (List.length (PdfUpload.inflight s) <= 1)%nat /\
  (PdfUpload.uploadInProgress (PdfUpload.store s) = None <-> PdfUpload.inflight s = []).
Proof.
  induction 1 as [| s s' _ [Hlen Hgate] Hstep]; [simpl; split; [lia | done] |].
  destruct Hstep as [env req s st' Hb | env s st' e Hb
    | env req s pre post st' r Hfl Hf Hr | params s | params s]; simpl.
  - unfold PdfUpload.pdfUploadBegin in Hb. case_match eqn:Hbusy; [done |].
    injection Hb as <-. apply gate_free_iff, Hgate in Hbusy. rewrite Hbusy. simpl.
    split; [lia | done].
  - unfold PdfUpload.pdfUploadBegin in Hb. case_match; [| done]. by injection Hb as <- _.
  - rewrite Hfl in Hlen. rewrite length_app in Hlen. simpl in Hlen.
    destruct pre; [| simpl in Hlen; lia]. destruct post; [| simpl in Hlen; lia].
    simpl. split; [lia |]. by rewrite (finish_clears_gate _ _ _ _ _ Hf Hr).
  - done.
  - split; [done |]. rewrite <- Hgate. unfold PdfUpload.pdfUploadCancel.
    destruct (parseUuidField "id" params); [| done]. case_match; [done |].
    unfold PdfUpload.delete. by case_match.
Qed.

(** C3. While the gate is set an upload fails with UPLOAD_IN_PROGRESS (409)
    whatever its request holds, leaving the store untouched: the request is
    read only by the segment that follows a successful gate test.  Every
    upload that took the gate and came to an end (response, quarantine or
    error) leaves the gate clear, so that no later upload fails with
    UPLOAD_IN_PROGRESS because of it. *)
Theorem upload_gate_is_released :
  (forall env req st,
     PdfUpload.hasUploadInProgress st = true ->
     failsWith (PdfUpload.pdfUploadProcess env req st) st "UPLOAD_IN_PROGRESS" 409 NoDetails /\
     PdfUpload.pdfUploadBegin env st = (st, Throw PdfUpload.uploadInProgressError)) /\
  (forall env req st,
     PdfUpload.pdfUploadProcess env req st =
       match PdfUpload.pdfUploadBegin env st with
       | (st1, Ok _) => PdfUpload.pdfUploadFinish env req st1
       | (st1, Throw e) => (st1, Throw e)
       | (st1, Hang) => (st1, Hang)
       end) /\
  (forall env req st st' r,
     PdfUpload.pdfUploadFinish env req st = (st', r) -> r <> Hang ->
     PdfUpload.hasUploadInProgress st' = false) /\
  (forall env req st st' r,
     PdfUpload.hasUploadInProgress st = false ->
     PdfUpload.pdfUploadProcess env req st = (st', r) -> r <> Hang ->
     PdfUpload.hasUploadInProgress st' = false /\
     forall env' req',
       thrownCode (snd (PdfUpload.pdfUploadProcess env' req' st')) <> Some "UPLOAD_IN_PROGRESS").
Proof.
  split_and!.
  - intros env req st Hbusy. split.
    + eexists. by apply process_blocked.
    + unfold PdfUpload.pdfUploadBegin. by rewrite Hbusy.
  - apply process_two_phase.
  - intros env req st st' r Hfin Hr. apply gate_free_iff.
    by apply (finish_clears_gate env req st st' r).
  - intros env req st st' r Hfree Hrun Hr.
    assert (PdfUpload.hasUploadInProgress st' = false) as Hfree'
      by by apply (process_clears_gate env req st st' r).
    split; [done |]. intros env' req'. by apply process_not_blocked.
Qed.

Lemma upload_gate_is_released_witness :
  (failsWith (PdfUpload.pdfUploadProcess (pdfEnv idB PdfUpload.ScanFirst) (whole pdfMinimal)
                busyStore) busyStore "UPLOAD_IN_PROGRESS" 409 NoDetails /\
   PdfUpload.pdfUploadBegin (pdfEnv idB PdfUpload.ScanFirst) busyStore
     = (busyStore, Throw PdfUpload.uploadInProgressError)) /\
  PdfUpload.hasUploadInProgress
    (fst (PdfUpload.pdfUploadFinish (pdfEnv idA PdfUpload.TimeoutFirst) (whole pdfMinimal)
            busyStore)) = false /\
  (PdfUpload.hasUploadInProgress (performAll (take 1 demoOps)) = false /\
   forall env' req',
     thrownCode (snd (PdfUpload.pdfUploadProcess env' req' (performAll (take 1 demoOps))))
       <> Some "UPLOAD_IN_PROGRESS") /\
  (PdfUpload.hasUploadInProgress (performAll demoOps) = false /\
   forall env' req',
     thrownCode (snd (PdfUpload.pdfUploadProcess env' req' (performAll demoOps)))
       <> Some "UPLOAD_IN_PROGRESS").
Proof.
  destruct upload_gate_is_released as (Hblocked & _ & Hfinish & Hprocess).
  split; [| split; [| split]].
  - apply Hblocked. reflexivity.
  - apply (Hfinish (pdfEnv idA PdfUpload.TimeoutFirst) (whole pdfMinimal) busyStore _
             (snd (PdfUpload.pdfUploadFinish (pdfEnv idA PdfUpload.TimeoutFirst)
                     (whole pdfMinimal) busyStore))).
    + apply surjective_pairing.
    + vm_compute. discriminate.
  - apply (Hprocess (pdfEnv idA PdfUpload.ScanFirst) (whole pdfMinimal) PdfUpload.empty _
             (snd (PdfUpload.pdfUploadProcess (pdfEnv idA PdfUpload.ScanFirst)
                     (whole pdfMinimal) PdfUpload.empty))).
    + reflexivity.
    + apply surjective_pairing.
    + vm_compute. discriminate.
  - apply (Hprocess (pdfEnv (uploadId 3) PdfUpload.ScanFirst) (whole pdfNoXrefNoTrailer)
             (performAll (take 2 demoOps)) _
             (snd (PdfUpload.pdfUploadProcess (pdfEnv (uploadId 3) PdfUpload.ScanFirst)
                     (whole pdfNoXrefNoTrailer) (performAll (take 2 demoOps))))).
    + vm_compute. reflexivity.
    + apply surjective_pairing.
    + vm_compute. discriminate.
Defined.

(** ** C8: raw bytes and response payloads *)

Section Payloads.

Lemma pdf_response_no_buffer e : carriesNoBuffer (PdfUpload.toResponse e).
Proof.
  split; [reflexivity |].
  unfold PdfUpload.toResponse, PdfUpload.toObject, omit. simpl.
  repeat constructor. simpl. by destruct (PdfUpload.corruptionType e).
Qed.

Lemma png_response_no_buffer e : carriesNoBuffer (FileUpload.toResponse e).
Proof.
  split; [reflexivity |].
  unfold FileUpload.toResponse, FileUpload.toObject, omit. simpl.
  repeat constructor.
Qed.

Lemma pdf_upload_payload env req st payload :
  snd (PdfUpload.pdfUploadProcess env req st) = Ok payload ->
  exists e, payload = PdfUpload.toResponse e.
Proof.
  rewrite process_two_phase. unfold PdfUpload.pdfUploadBegin.
  destruct (PdfUpload.hasUploadInProgress st); [done |].
  unfold PdfUpload.pdfUploadFinish, PdfUpload.pdfUploadGuarded.
  destruct (inner_outcome env req (PdfUpload.setUploadInProgress (PdfUpload.uuid env) st))
    as [-> | [(e & -> & Hsvc & _) | [(m & ->) | (b & st1 & _ & _ & ->)]]]; simpl; try done.
  - by rewrite Hsvc.
  - intros [= <-]. by eexists.
Qed.

Lemma png_upload_payload env req st payload :
  snd (FileUpload.fileUploadProcess env req st) = Ok payload ->
  exists e, payload = FileUpload.toResponse e.
Proof.
  unfold FileUpload.fileUploadProcess, FileUpload.fileUploadBody.
  destruct (FileUpload.processMultipartUpload req) as [b | e |] eqn:Hin;
    [| simpl; by destruct (isServiceError e) | done].
  destruct (Buffer.length b >? MAX_FILE_SIZE FILE_UPLOAD_LIMITS); [done |].
  destruct (FileUpload.isPNGFile b); simpl; [| done].
  destruct (FileUpload.extractPNGDimensions b) as [[w h] | e |]; simpl; try done.
  destruct (FileUpload.add _ st) as [st' [r | e |]] eqn:Hadd; simpl; try done.
  - intros [= <-]. by eexists.
  - by destruct (isServiceError e).
Qed.

Lemma stored_holds (entity : PdfUpload.PDFUploadEntity) (isolate : bool) st st' :
  (if isolate then PdfUpload.addToIsolated entity st else PdfUpload.add entity st)
    = (st', Ok entity) ->
  PdfUpload.inPrimary st' entity \/ PdfUpload.inIsolated st' entity.
Proof.
  unfold PdfUpload.addToIsolated, PdfUpload.add.
  destruct isolate; case_match; intros [= <-]; [right | left];
    exists (PdfUpload.id entity); simpl; apply lookup_insert_eq.
Qed.

Lemma pdf_upload_stores env req st st' payload :
  PdfUpload.pdfUploadProcess env req st = (st', Ok payload) ->
  exists entity,
    payload = PdfUpload.toResponse entity /\
    (PdfUpload.inPrimary st' entity \/ PdfUpload.inIsolated st' entity) /\
    PdfUpload.processMultipartUpload req = Ok (PdfUpload.buffer entity).
Proof.
  rewrite process_two_phase. unfold PdfUpload.pdfUploadBegin.
  destruct (PdfUpload.hasUploadInProgress st); [done |].
  unfold PdfUpload.pdfUploadFinish, PdfUpload.pdfUploadGuarded.
  destruct (inner_outcome env req (PdfUpload.setUploadInProgress (PdfUpload.uuid env) st))
    as [-> | [(e & -> & Hsvc & _) | [(m & ->) | (b & st1 & Hin & Hst & ->)]]]; simpl; try done.
  - by rewrite Hsvc.
  - intros [= <- <-]. eexists. split; [done |]. split; [| done].
    apply stored_holds in Hst. destruct Hst as [[i Hi] | [i Hi]]; [left | right]; by exists i.
Qed.

Lemma pdf_failure_keeps_maps env req st st' e :
  PdfUpload.pdfUploadProcess env req st = (st', Throw e) ->
  PdfUpload.records st' = PdfUpload.records st /\
  PdfUpload.isolatedRecords st' = PdfUpload.isolatedRecords st.
Proof.
  rewrite process_two_phase. unfold PdfUpload.pdfUploadBegin.
  destruct (PdfUpload.hasUploadInProgress st); [by intros [= <- _] |].
  unfold PdfUpload.pdfUploadFinish, PdfUpload.pdfUploadGuarded.
  destruct (inner_outcome env req (PdfUpload.setUploadInProgress (PdfUpload.uuid env) st))
    as [-> | [(e' & -> & Hsvc & _) | [(m & ->) | (b & st1 & _ & _ & ->)]]]; simpl; try done.
  - by intros [= <- _].
  - by intros [= <- _].
Qed.

Lemma png_upload_cases env req st :
  (exists e, FileUpload.fileUploadProcess env req st = (st, Throw e)) \/
  FileUpload.fileUploadProcess env req st = (st, Hang) \/
  (exists entity,
     FileUpload.fileUploadProcess env req st
       = (FileUpload.mkStore (<[FileUpload.id entity := entity]> (FileUpload.records st)),
          Ok (FileUpload.toResponse entity)) /\
     FileUpload.processMultipartUpload req = Ok (FileUpload.buffer entity)).
Proof.
  unfold FileUpload.fileUploadProcess, FileUpload.fileUploadBody.
  destruct (FileUpload.processMultipartUpload req) as [b | e |] eqn:Hin;
    [| left; simpl; destruct (isServiceError e); by eexists | by right; left].
  destruct (Buffer.length b >? MAX_FILE_SIZE FILE_UPLOAD_LIMITS); [left; by eexists |].
  destruct (FileUpload.isPNGFile b); simpl; [| left; by eexists].
  destruct (FileUpload.extractPNGDimensions b) as [[w h] | e |]; simpl;
    [| left; by eexists | by right; left].
  match goal with
  | |- context [FileUpload.add ?entity st] =>
      destruct (Z_lt_ge_dec (Z.of_nat (size (FileUpload.records st))) 100) as [Hroom | Hfull];
      [rewrite (png_add_room st entity) by lia | rewrite (png_add_full st entity) by lia]
  end; simpl.
  - right; right.
    match goal with
    | |- context [Ok (FileUpload.toResponse ?entity)] => exists entity
    end.
    split; [reflexivity | done].
  - left. by eexists.
Qed.

Lemma png_upload_stores env req st st' payload :
  FileUpload.fileUploadProcess env req st = (st', Ok payload) ->
  exists entity,
    payload = FileUpload.toResponse entity /\
    FileUpload.getById (FileUpload.id entity) st' = Some entity /\
    FileUpload.processMultipartUpload req = Ok (FileUpload.buffer entity).
Proof.
  destruct (png_upload_cases env req st) as [[e ->] | [-> | (entity & -> & Hin)]]; try done.
  intros [= <- <-]. exists entity. split_and!; [done | | done].
  unfold FileUpload.getById. simpl. apply lookup_insert_eq.
Qed.

Lemma png_failure_keeps_store env req st st' e :
  FileUpload.fileUploadProcess env req st = (st', Throw e) -> st' = st.
Proof.
  destruct (png_upload_cases env req st) as [[e' ->] | [-> | (entity & -> & Hin)]]; try done.
  by intros [= <- _].
Qed.

End Payloads.

(** C8. No response of upload or get, for documents or images, has a [buffer]
    property or carries a [Buffer] value: each is the stored entity with
    [buffer] (and, for documents, [status]) left out, and does not change when
    only the entity's buffer changes.  The bytes are kept with a stored record
    and nowhere else: a successful upload stores the entity that holds the
    ingested buffer, a failed one leaves the maps as they were, and a store
    answers [exists] for an id exactly when [getById] yields an entity, whose
    object holds the buffer.  (An image entity also has the separate text
    field [previewUrl]; it is part of the response.) *)
Theorem responses_omit_raw_bytes :
  (forall env req st payload,
     snd (PdfUpload.pdfUploadProcess env req st) = Ok payload -> carriesNoBuffer payload) /\
  (forall params st payload,
     PdfUpload.pdfUploadGet params st = Ok payload -> carriesNoBuffer payload) /\
  (forall env req st payload,
     snd (FileUpload.fileUploadProcess env req st) = Ok payload -> carriesNoBuffer payload) /\
  (forall params st payload,
     FileUpload.fileUploadGet params st = Ok payload -> carriesNoBuffer payload) /\
  (forall i n sz sf mt b b' u v c s t z,
     PdfUpload.toResponse (PdfUpload.mkEntity i n sz sf mt b u v c s t z)
     = PdfUpload.toResponse (PdfUpload.mkEntity i n sz sf mt b' u v c s t z)) /\
  (forall i n sz sf w h d p mt b b' u,
     FileUpload.toResponse (FileUpload.mkEntity i n sz sf w h d p mt b u)
     = FileUpload.toResponse (FileUpload.mkEntity i n sz sf w h d p mt b' u)) /\
  (forall env req st st' payload,
     PdfUpload.pdfUploadProcess env req st = (st', Ok payload) ->
     exists entity,
       payload = PdfUpload.toResponse entity /\
       (PdfUpload.inPrimary st' entity \/ PdfUpload.inIsolated st' entity) /\
       PdfUpload.processMultipartUpload req = Ok (PdfUpload.buffer entity)) /\
  (forall env req st st' payload,
     FileUpload.fileUploadProcess env req st = (st', Ok payload) ->
     exists entity,
       payload = FileUpload.toResponse entity /\
       FileUpload.getById (FileUpload.id entity) st' = Some entity /\
       FileUpload.processMultipartUpload req = Ok (FileUpload.buffer entity)) /\
  (forall env req st st' e,
     PdfUpload.pdfUploadProcess env req st = (st', Throw e) ->
     PdfUpload.records st' = PdfUpload.records st /\
     PdfUpload.isolatedRecords st' = PdfUpload.isolatedRecords st) /\
  (forall env req st st' e,
     FileUpload.fileUploadProcess env req st = (st', Throw e) -> st' = st) /\
  (forall st i,
     PdfUpload.exists_ i st = true
     <-> exists e, PdfUpload.getById i st = Some e /\
                   getProp (PdfUpload.toObject e) "buffer" = Some (JBuffer (PdfUpload.buffer e))) /\
  (forall st i,
     FileUpload.exists_ i st = true
     <-> exists e, FileUpload.getById i st = Some e /\
                   getProp (FileUpload.toObject e) "buffer" = Some (JBuffer (FileUpload.buffer e))).
Proof.
  split_and!.
  - intros env req st payload Hok.
    destruct (pdf_upload_payload env req st payload Hok) as [e ->].
    apply pdf_response_no_buffer.
  - intros params st payload. unfold PdfUpload.pdfUploadGet.
    destruct (parseUuidField "id" params) as [i |]; [| done].
    destruct (PdfUpload.getById i st) as [e |]; [| done].
    intros [= <-]. apply pdf_response_no_buffer.
  - intros env req st payload Hok.
    destruct (png_upload_payload env req st payload Hok) as [e ->].
    apply png_response_no_buffer.
  - intros params st payload. unfold FileUpload.fileUploadGet.
    destruct (parseUuidField "id" params) as [i |]; [| done].
    destruct (FileUpload.getById i st) as [e |]; [| done].
    intros [= <-]. apply png_response_no_buffer.
  - reflexivity.
  - reflexivity.
  - apply pdf_upload_stores.
  - apply png_upload_stores.
  - apply pdf_failure_keeps_maps.
  - apply png_failure_keeps_store.
  - intros st i. unfold PdfUpload.exists_, PdfUpload.getById.
    rewrite orb_true_iff, !bool_decide_eq_true.
    destruct (PdfUpload.records st !! i) as [e |] eqn:Hp.
    + split; [intros _; by exists e | intros _; left; by eexists].
    + split.
      * intros [[e He] | [e He]]; [done |]. by exists e.
      * intros (e & He & _). right. by exists e.
  - intros st i. unfold FileUpload.exists_, FileUpload.getById.
    rewrite bool_decide_eq_true. split.
    + intros [e He]. by exists e.
    + intros (e & He & _). by exists e.
Qed.

Lemma responses_omit_raw_bytes_witness :
  carriesNoBuffer
    [("id", JString idA); ("fileName", JString "upload.pdf"); ("fileSize", JNumber 45);
     ("fileSizeFormatted", JString "0.04 KB"); ("mimeType", JString "application/pdf");
     ("uploadedAt", JString "2024-01-01T00:00:00.000Z"); ("integrityValid", JBool true);
     ("corruptionType", JNull); ("scanResult", JString "limpo");
     ("token", JString (PdfUpload.generateAccessToken idA 1704067200000))] /\
  (PdfUpload.exists_ idB (performAll demoOps) = true
   <-> exists e, PdfUpload.getById idB (performAll demoOps) = Some e /\
                 getProp (PdfUpload.toObject e) "buffer" = Some (JBuffer (PdfUpload.buffer e))).
Proof.
  destruct responses_omit_raw_bytes
    as (Hupload & _ & _ & _ & _ & _ & _ & _ & _ & _ & Hexists & _).
  split.
  - apply (Hupload (pdfEnv idA PdfUpload.ScanFirst) (whole pdfMinimal) PdfUpload.empty).
    vm_compute. reflexivity.
  - apply Hexists.
Defined.

(** ** Base64 and the expected size *)
Section Base64.

Lemma list_ind3 {A} (P : list A -> Prop) :
  P [] -> (forall a, P [a]) -> (forall a b, P [a; b]) ->
  (forall a b c l, P l -> P (a :: b :: c :: l)) ->
  forall l, P l.
Proof.
  intros H0 H1 H2 H3 l.
  assert (P l /\ (forall a, P (a :: l)) /\ (forall a b, P (a :: b :: l))) as [Hl _];
    [| done].
  induction l as [| x l (IH0 & IH1 & IH2)]; [done |].
  split_and!; [apply IH1 | intros a; apply IH2 | intros a b; by apply H3].
Qed.

(** Every group of three bytes, complete or not, yields four characters. *)
Lemma toBase64_length (b : Buffer.t) :
  JsString.length (Buffer.toBase64 b) = 4 * ((Buffer.length b + 2) / 3).
Proof.
  unfold JsString.length, Buffer.length.
  induction b as [| a0 | a0 a1 | a0 a1 a2 rest IH] using list_ind3; try reflexivity.
  change (Buffer.toBase64 (a0 :: a1 :: a2 :: rest))
    with (String (Buffer.sextetAt (Buffer.group a0 a1 a2) 0)
           (String (Buffer.sextetAt (Buffer.group a0 a1 a2) 1)
             (String (Buffer.sextetAt (Buffer.group a0 a1 a2) 2)
               (String (Buffer.sextetAt (Buffer.group a0 a1 a2) 3) (Buffer.toBase64 rest))))).
  cbn [String.length List.length].
  replace (Z.of_nat (S (S (S (List.length rest)))) + 2)
    with ((Z.of_nat (List.length rest) + 2) + 1 * 3) by lia.
  rewrite Z.div_add by lia. lia.
Qed.

Lemma JsString_length_append (s t : string) :
  JsString.length (s +:+ t) = JsString.length s + JsString.length t.
Proof.
  unfold JsString.length. induction s as [| c s IH].
  - change (EmptyString +:+ t) with t. simpl. lia.
  - change (String c s +:+ t) with (String c (s +:+ t)).
    cbn [String.length]. lia.
Qed.

Lemma append_assoc (s t u : string) : (s +:+ t) +:+ u = s +:+ (t +:+ u).
Proof.
  induction s as [| c s IH]; [done |].
  change (String c s +:+ t) with (String c (s +:+ t)).
  change (String c (s +:+ t) +:+ u) with (String c ((s +:+ t) +:+ u)).
  by rewrite IH.
Qed.

(** The template literal of [convertToBase64] is the prefix followed by the
    encoded bytes. *)
Lemma data_url_prefixed (mime data : string) :
  "data:" +:+ mime +:+ ";base64," +:+ data = dataUrlPrefix mime +:+ data.
Proof. unfold dataUrlPrefix. by rewrite !append_assoc. Qed.

(** [Math.ceil(n / 3)] on an integer [n]. *)
Lemma ceil_third (n : Z) : Qceiling (Qdiv (inject_Z n) (inject_Z 3)) = (n + 2) / 3.
Proof.
  unfold Qceiling, Qfloor, Qdiv, Qmult, Qinv, Qopp, inject_Z. simpl.
  rewrite Z.mul_1_r. change (Z.pos (1 * 3)) with 3.
  pose proof (Z.div_mod (- n) 3 ltac:(lia)) as H1.
  pose proof (Z.mod_pos_bound (- n) 3 ltac:(lia)) as H2.
  pose proof (Z.div_mod (n + 2) 3 ltac:(lia)) as H3.
  pose proof (Z.mod_pos_bound (n + 2) 3 ltac:(lia)) as H4.
  lia.
Qed.

Lemma expected_size_formula (fileSize : Z) (mimePrefix : string) :
  PngConversion.calculateExpectedBase64Size fileSize mimePrefix
  = (fileSize * 4 + 2) / 3 + JsString.length mimePrefix.
Proof. unfold PngConversion.calculateExpectedBase64Size. by rewrite ceil_third. Qed.

Lemma integrity_check_spec (actualSize expectedSize : Z) :
  PngConversion.validateConversionIntegrity actualSize expectedSize = true
  <-> 100 * Z.abs (actualSize - expectedSize) <= expectedSize.
Proof.
  unfold PngConversion.validateConversionIntegrity.
  rewrite Qle_bool_iff. unfold Qle, Qmult, inject_Z. simpl. lia.
Qed.

(** The length of the produced data URL exceeds the expected size by the
    base64 padding: 0, 2 or 1 characters as the byte count is 0, 1 or 2
    modulo 3. *)
Lemma actual_minus_expected (b : Buffer.t) (mime : string) :
  let actual := JsString.length (dataUrlPrefix mime +:+ Buffer.toBase64 b) in
  let expected :=
    PngConversion.calculateExpectedBase64Size (Buffer.length b) (dataUrlPrefix mime) in
  actual - expected = (3 - Buffer.length b mod 3) mod 3.
Proof.
  simpl. rewrite JsString_length_append, toBase64_length, expected_size_formula.
  pose proof (Buffer_length_nonneg b) as Hn.
  pose proof (Z.div_mod (Buffer.length b) 3 ltac:(lia)) as H0.
  pose proof (Z.mod_pos_bound (Buffer.length b) 3 ltac:(lia)) as H0'.
  pose proof (Z.div_mod (Buffer.length b + 2) 3 ltac:(lia)) as H1.
  pose proof (Z.mod_pos_bound (Buffer.length b + 2) 3 ltac:(lia)) as H1'.
  pose proof (Z.div_mod (Buffer.length b * 4 + 2) 3 ltac:(lia)) as H2.
  pose proof (Z.mod_pos_bound (Buffer.length b * 4 + 2) 3 ltac:(lia)) as H2'.
  pose proof (Z.div_mod (3 - Buffer.length b mod 3) 3 ltac:(lia)) as H3.
  pose proof (Z.mod_pos_bound (3 - Buffer.length b mod 3) 3 ltac:(lia)) as H3'.
  lia.
Qed.

End Base64.

(** ** Conversion *)
Section Conversion.
Import PngConversion.

Lemma byteAt_None (b : Buffer.t) (i : Z) : Buffer.length b <= i -> Buffer.byteAt b i = None.
Proof.
  unfold Buffer.byteAt, Buffer.length. intros Hlen.
  destruct (i <? 0); [done |].
  assert (b !! Z.to_nat i = None) as -> by (apply lookup_ge_None_2; lia).
  done.
Qed.

Lemma byteAt_Some (b : Buffer.t) (i : Z) :
  0 <= i < Buffer.length b -> exists v, Buffer.byteAt b i = Some v.
Proof.
  unfold Buffer.byteAt, Buffer.length. intros Hi.
  destruct (Z.ltb_spec i 0); [lia |].
  destruct (lookup_lt_is_Some_2 b (Z.to_nat i)) as [x Hx]; [lia |].
  exists (Z.of_N (Byte.to_N x)). by rewrite Hx.
Qed.

Lemma boundsError_range b w : isRangeError (Buffer.boundsError b w) = true.
Proof. unfold Buffer.boundsError. by case_match. Qed.

Lemma readUInt32BE_cases b off :
  (exists v, Buffer.readUInt32BE b off = Ok v) \/
  Buffer.readUInt32BE b off = Throw (Buffer.boundsError b 4).
Proof.
  unfold Buffer.readUInt32BE.
  destruct (Buffer.byteAt b off); [| by right].
  destruct (Buffer.byteAt b (off + 1)); [| by right].
  destruct (Buffer.byteAt b (off + 2)); [| by right].
  destruct (Buffer.byteAt b (off + 3)); [| by right].
  left. by eexists.
Qed.

Lemma readUInt8_cases b off :
  (exists v, Buffer.readUInt8 b off = Ok v) \/
  Buffer.readUInt8 b off = Throw (Buffer.boundsError b 1).
Proof.
  unfold Buffer.readUInt8. destruct (Buffer.byteAt b off); [left; by eexists | by right].
Qed.

(** A buffer of fewer than 26 bytes fails metadata extraction, and the
    failure leaves [extractPNGMetadata] already wrapped. *)
Lemma extract_short b :
  Buffer.length b < 26 ->
  exists cause, extractPNGMetadata b = Throw (metadataFailed cause) /\
                isRangeError cause = true.
Proof.
  intros Hlen. unfold extractPNGMetadata.
  destruct (readUInt32BE_cases b 16) as [[w ->] | ->]; simpl;
    [| eexists; split; [done | apply boundsError_range]].
  destruct (readUInt32BE_cases b 20) as [[h ->] | ->]; simpl;
    [| eexists; split; [done | apply boundsError_range]].
  destruct (readUInt8_cases b 24) as [[d ->] | ->]; simpl;
    [| eexists; split; [done | apply boundsError_range]].
  unfold Buffer.readUInt8. rewrite byteAt_None by lia. simpl.
  eexists; split; [done | apply boundsError_range].
Qed.

Lemma extract_long b :
  26 <= Buffer.length b -> exists m, extractPNGMetadata b = Ok m.
Proof.
  intros Hlen. unfold extractPNGMetadata, Buffer.readUInt32BE, Buffer.readUInt8.
  repeat match goal with
  | |- context [Buffer.byteAt b ?i] =>
      let v := fresh "v" in
      destruct (byteAt_Some b i ltac:(lia)) as [v ->]
  end.
  simpl. by eexists.
Qed.

Lemma extract_outcome b :
  (exists m, extractPNGMetadata b = Ok m) \/
  (exists cause, extractPNGMetadata b = Throw (metadataFailed cause)).
Proof.
  destruct (Z.lt_ge_cases (Buffer.length b) 26) as [Hlt | Hge].
  - right. destruct (extract_short b Hlt) as (cause & -> & _). by eexists.
  - left. by apply extract_long.
Qed.

(** Whatever the [try] block throws is a [ServiceError] whose code is not
    MEMORY_ERROR. *)
Lemma body_throws enc t body st e :
  pngConversionBody enc t body st = Throw e ->
  isServiceError e = true /\ errorCode e <> Some "MEMORY_ERROR".
Proof.
  unfold pngConversionBody.
  destruct (parseUuidField "fileId" body) as [fileId |]; [| by intros [= <-]].
  destruct (FileUpload.getById fileId st) as [entity |]; [| by intros [= <-]].
  destruct (extract_outcome (FileUpload.buffer entity)) as [[m ->] | [cause ->]]; simpl;
    [| by intros [= <-]].
  unfold convertToBase64.
  destruct (enc (FileUpload.buffer entity)) as [s | err |]; simpl; [| by intros [= <-] | done].
  case_match; [by intros [= <-] | done].
Qed.

Lemma conversion_never_memory_error enc t body st :
  thrownCode (pngConversionWith enc t body st) <> Some "MEMORY_ERROR".
Proof.
  unfold pngConversionWith.
  destruct (pngConversionBody enc t body st) as [r | e |] eqn:Hbody; simpl; try done.
  destruct (body_throws enc t body st e Hbody) as [Hsvc Hcode].
  unfold conversionCatch. by rewrite Hsvc.
Qed.

Lemma conversion_short_buffer enc t body st fileId entity :
  parseUuidField "fileId" body = Some fileId ->
  FileUpload.getById fileId st = Some entity ->
  Buffer.length (FileUpload.buffer entity) < 26 ->
  exists cause,
    pngConversionWith enc t body st = Throw (metadataFailed cause) /\
    isRangeError cause = true.
Proof.
  intros Hparse Hget Hlen.
  destruct (extract_short _ Hlen) as (cause & Hextract & Hrange).
  exists cause. split; [| done].
  unfold pngConversionWith, pngConversionBody. by rewrite Hparse, Hget, Hextract.
Qed.


Lemma body_metadata enc t body st r :
  pngConversionBody enc t body st = Ok r -> exists m, metadata r = metadataObject m.
Proof.
  unfold pngConversionBody.
  destruct (parseUuidField "fileId" body) as [fileId |]; [| done].
  destruct (FileUpload.getById fileId st) as [entity |]; [| done].
  destruct (extract_outcome (FileUpload.buffer entity)) as [[m ->] | [cause ->]]; simpl;
    [| done].
  unfold convertToBase64.
  destruct (enc (FileUpload.buffer entity)) as [s | err |]; simpl; [| done | done].
  case_match; [done |]. intros [= <-]. by exists m.
Qed.

(** The [finally] clause empties the metadata object the response shares:
    every successful conversion answers with [metadata = {}]. *)
Lemma conversion_metadata_emptied enc t body st r :
  pngConversionWith enc t body st = Ok r -> metadata r = [].
Proof.
  unfold pngConversionWith.
  destruct (pngConversionBody enc t body st) as [r0 | e |] eqn:Hbody; simpl.
  - intros [= <-]. destruct (body_metadata enc t body st r0 Hbody) as [m Hm].
    simpl. by rewrite Hm.
  - unfold conversionCatch. by repeat case_match.
  - done.
Qed.

(** The conversion of a record as the upload stored it ([fileSize] is the
    length of [buffer]) succeeds exactly when one hundred times the base64
    padding fits in the expected size. *)
Lemma conversion_integrity t body st fileId entity :
  parseUuidField "fileId" body = Some fileId ->
  FileUpload.getById fileId st = Some entity ->
  FileUpload.fileSize entity = Buffer.length (FileUpload.buffer entity) ->
  26 <= Buffer.length (FileUpload.buffer entity) ->
  let S := Buffer.length (FileUpload.buffer entity) in
  let expected := (S * 4 + 2) / 3 + JsString.length (dataUrlPrefix (FileUpload.mimeType entity)) in
  let actual := expected + (3 - S mod 3) mod 3 in
  if 100 * ((3 - S mod 3) mod 3) <=? expected
  then exists r, pngConversionProcess t body st = Ok r /\
                 integrityValid r = true /\ expectedSize r = expected /\ base64Size r = actual
  else pngConversionProcess t body st = Throw (integrityError expected actual).
Proof.
  intros Hparse Hget Hsize Hlen S expected actual.
  destruct (extract_long _ Hlen) as [m Hextract].
  pose proof (actual_minus_expected (FileUpload.buffer entity) (FileUpload.mimeType entity))
    as Hdiff. simpl in Hdiff. rewrite expected_size_formula in Hdiff.
  fold S expected in Hdiff.
  assert (0 <= (3 - S mod 3) mod 3) as Hpad by (apply Z.mod_pos_bound; lia).
  unfold pngConversionProcess, pngConversionWith, pngConversionBody, convertToBase64, nodeEncoder.
  rewrite Hparse, Hget, Hextract, Hsize, expected_size_formula. simpl.
  fold S expected.
  rewrite data_url_prefixed.
  assert (JsString.length (dataUrlPrefix (FileUpload.mimeType entity) +:+
                           Buffer.toBase64 (FileUpload.buffer entity)) = actual)
    as Hactual by (unfold actual; lia).
  rewrite !Hactual.
  destruct (validateConversionIntegrity actual expected) eqn:Hv.
  - apply integrity_check_spec in Hv.
    replace (Z.abs (actual - expected)) with ((3 - S mod 3) mod 3) in Hv by (unfold actual; lia).
    destruct (Z.leb_spec (100 * ((3 - S mod 3) mod 3)) expected); [| lia].
    simpl. eexists. split; [done |]. by simpl.
  - assert (~ 100 * Z.abs (actual - expected) <= expected) as Hn
      by (rewrite <- integrity_check_spec; congruence).
    replace (Z.abs (actual - expected)) with ((3 - S mod 3) mod 3) in Hn by (unfold actual; lia).
    destruct (Z.leb_spec (100 * ((3 - S mod 3) mod 3)) expected); [lia |].
    by simpl.
Qed.

End Conversion.

(** A stored image of at least 133 bytes converts with [integrityValid]. *)
Lemma conversion_accepts_large t body st fileId entity :
  parseUuidField "fileId" body = Some fileId ->
  FileUpload.getById fileId st = Some entity ->
  FileUpload.fileSize entity = Buffer.length (FileUpload.buffer entity) ->
  FileUpload.mimeType entity = "image/png" ->
  133 <= Buffer.length (FileUpload.buffer entity) ->
  exists r, PngConversion.pngConversionProcess t body st = Ok r /\
            PngConversion.integrityValid r = true.
Proof.
  intros Hparse Hget Hsize Hmime Hlen.
  pose proof (conversion_integrity t body st fileId entity Hparse Hget Hsize ltac:(lia)) as H.
  simpl in H. rewrite Hmime in H.
  change (JsString.length (dataUrlPrefix "image/png")) with 22 in H.
  set (S := Buffer.length (FileUpload.buffer entity)) in *.
  assert (0 <= (3 - S mod 3) mod 3 < 3) as Hpad by (apply Z.mod_pos_bound; lia).
  assert (178 <= (S * 4 + 2) / 3) as Hexp by (apply Z.div_le_lower_bound; lia).
  destruct (Z.leb_spec (100 * ((3 - S mod 3) mod 3)) ((S * 4 + 2) / 3 + 22)); [| lia].
  destruct H as (r & Hr & Hvalid & _). by exists r.
Qed.

(** ** C1: the size-integrity check *)

(** C1. The expected size is [ceil(S * 4 / 3) + P].  The complete 70-byte
    image [png1x1] is accepted by the upload, and its conversion is rejected
    with INTEGRITY_ERROR: the data URL has 118 characters, the expected size
    is 116, and the difference 2 exceeds the tolerance 1.16. *)
Theorem small_png_fails_integrity :
  (forall fileSize mimePrefix,
     PngConversion.calculateExpectedBase64Size fileSize mimePrefix
     = (fileSize * 4 + 2) / 3 + JsString.length mimePrefix) /\
  FileUpload.isPNGFile png1x1 = true /\
  (exists payload,
     snd (FileUpload.fileUploadProcess pngEnv (whole png1x1) FileUpload.empty) = Ok payload) /\
  PngConversion.validateConversionIntegrity 118 116 = false /\
  PngConversion.pngConversionProcess "2024-01-01T00:00:01.000Z" convertRequest
    (fst (FileUpload.fileUploadProcess pngEnv (whole png1x1) FileUpload.empty))
  = Throw (PngConversion.integrityError 116 118).
Proof.
  split_and!.
  - apply expected_size_formula.
  - reflexivity.
  - eexists. vm_compute. reflexivity.
  - reflexivity.
  - vm_compute. reflexivity.
Qed.

(** ** C7: error codes of the conversion *)




(** * Further properties *)

(** Membership in, and case analysis on, a literal table. *)
Ltac in_table := repeat first [apply list_elem_of_here | apply list_elem_of_further].
Ltac table_cases H :=
  repeat (apply elem_of_cons in H as [H | H]); try (by apply elem_of_nil in H).

(** ** Base64 both ways *)
Section Decoding.

Lemma sextet_range (n : N) :
  (n < 64)%N ->
  unsextet (Buffer.sextet n) = Some n /\ Ascii.eqb (Buffer.sextet n) Buffer.pad = false.
Proof.
  intros Hn.
  assert (exists k, (k < 64)%nat /\ n = N.of_nat k) as (k & Hk & ->)
    by (exists (N.to_nat n); lia).
  do 64 (destruct k as [| k]; [by vm_compute |]). lia.
Qed.

Lemma sextets_regroup (g : N) :
  (g < 16777216)%N ->
  regroup ((g / 262144) mod 64) ((g / 4096) mod 64) ((g / 64) mod 64) (g mod 64) = g.
Proof. intros Hg. unfold regroup. zify; Z.to_euclidean_division_equations; lia. Qed.

Lemma group_bound a b c : (Buffer.group a b c < 16777216)%N.
Proof.
  unfold Buffer.group.
  pose proof (Byte.to_N_bounded a). pose proof (Byte.to_N_bounded b).
  pose proof (Byte.to_N_bounded c). lia.
Qed.

Lemma ungroup_group a b c : ungroup (Buffer.group a b c) = Some (a, b, c).
Proof.
  unfold ungroup, Buffer.group.
  pose proof (Byte.to_N_bounded a) as Ha. pose proof (Byte.to_N_bounded b) as Hb.
  pose proof (Byte.to_N_bounded c) as Hc.
  replace ((Byte.to_N a * 65536 + Byte.to_N b * 256 + Byte.to_N c) / 65536)%N
    with (Byte.to_N a) by (zify; Z.to_euclidean_division_equations; lia).
  replace (((Byte.to_N a * 65536 + Byte.to_N b * 256 + Byte.to_N c) / 256) mod 256)%N
    with (Byte.to_N b) by (zify; Z.to_euclidean_division_equations; lia).
  replace ((Byte.to_N a * 65536 + Byte.to_N b * 256 + Byte.to_N c) mod 256)%N
    with (Byte.to_N c) by (zify; Z.to_euclidean_division_equations; lia).
  by rewrite !Byte.of_to_N.
Qed.

Lemma sextetAt_index (g : N) :
  Buffer.sextetAt g 0 = Buffer.sextet ((g / 262144) mod 64) /\
  Buffer.sextetAt g 1 = Buffer.sextet ((g / 4096) mod 64) /\
  Buffer.sextetAt g 2 = Buffer.sextet ((g / 64) mod 64) /\
  Buffer.sextetAt g 3 = Buffer.sextet (g mod 64).
Proof.
  unfold Buffer.sextetAt. repeat split; try reflexivity.
  change (64 ^ (3 - 3))%N with 1%N. by rewrite N.div_1_r.
Qed.

Lemma fromBase64_quad c0 c1 c2 c3 rest :
  fromBase64 (String c0 (String c1 (String c2 (String c3 rest)))) =
  match unsextet c0, unsextet c1 with
  | Some s0, Some s1 =>
      if Ascii.eqb c2 Buffer.pad then
        if Ascii.eqb c3 Buffer.pad && bool_decide (rest = EmptyString)
        then match ungroup (regroup s0 s1 0 0) with
             | Some (a, _, _) => Some [a]
             | None => None
             end
        else None
      else
        match unsextet c2 with
        | Some s2 =>
            if Ascii.eqb c3 Buffer.pad then
              if bool_decide (rest = EmptyString)
              then match ungroup (regroup s0 s1 s2 0) with
                   | Some (a, b, _) => Some [a; b]
                   | None => None
                   end
              else None
            else
              match unsextet c3 with
              | Some s3 =>
                  match ungroup (regroup s0 s1 s2 s3), fromBase64 rest with
                  | Some (a, b, c), Some tl => Some (a :: b :: c :: tl)
                  | _, _ => None
                  end
              | None => None
              end
        | None => None
        end
  | _, _ => None
  end.
Proof. reflexivity. Qed.

Lemma mod64_lt (n : N) : (n mod 64 < 64)%N.
Proof. apply N.mod_lt. lia. Qed.

(** Decoding undoes [buffer.toString('base64')]. *)
Lemma fromBase64_toBase64 (b : Buffer.t) : fromBase64 (Buffer.toBase64 b) = Some b.
Proof.
  induction b as [| a | a0 a1 | a0 a1 a2 l IH] using list_ind3.
  - reflexivity.
  - change (Buffer.toBase64 [a]) with
      (let g := Buffer.group a x00 x00 in
       String (Buffer.sextetAt g 0) (String (Buffer.sextetAt g 1)
         (String Buffer.pad (String Buffer.pad EmptyString)))).
    cbv zeta. rewrite fromBase64_quad.
    destruct (sextetAt_index (Buffer.group a x00 x00)) as (-> & -> & _ & _).
    rewrite !(proj1 (sextet_range _ (mod64_lt _))).
    change (Ascii.eqb Buffer.pad Buffer.pad) with true. cbn [andb].
    rewrite bool_decide_eq_true_2 by done.
    pose proof (sextets_regroup _ (group_bound a x00 x00)) as Hg.
    replace ((Buffer.group a x00 x00 / 64) mod 64)%N with 0%N in Hg
      by (unfold Buffer.group; change (Byte.to_N x00) with 0%N; zify; Z.to_euclidean_division_equations; lia).
    replace (Buffer.group a x00 x00 mod 64)%N with 0%N in Hg
      by (unfold Buffer.group; change (Byte.to_N x00) with 0%N; zify; Z.to_euclidean_division_equations; lia).
    by rewrite Hg, ungroup_group.
  - change (Buffer.toBase64 [a0; a1]) with
      (let g := Buffer.group a0 a1 x00 in
       String (Buffer.sextetAt g 0) (String (Buffer.sextetAt g 1)
         (String (Buffer.sextetAt g 2) (String Buffer.pad EmptyString)))).
    cbv zeta. rewrite fromBase64_quad.
    destruct (sextetAt_index (Buffer.group a0 a1 x00)) as (-> & -> & -> & _).
    rewrite !(proj1 (sextet_range _ (mod64_lt _))).
    rewrite (proj2 (sextet_range _ (mod64_lt _))).
    change (Ascii.eqb Buffer.pad Buffer.pad) with true. cbn [andb].
    rewrite bool_decide_eq_true_2 by done.
    pose proof (sextets_regroup _ (group_bound a0 a1 x00)) as Hg.
    replace (Buffer.group a0 a1 x00 mod 64)%N with 0%N in Hg
      by (unfold Buffer.group; change (Byte.to_N x00) with 0%N; zify; Z.to_euclidean_division_equations; lia).
    by rewrite Hg, ungroup_group.
  - change (Buffer.toBase64 (a0 :: a1 :: a2 :: l)) with
      (let g := Buffer.group a0 a1 a2 in
       String (Buffer.sextetAt g 0) (String (Buffer.sextetAt g 1)
         (String (Buffer.sextetAt g 2) (String (Buffer.sextetAt g 3) (Buffer.toBase64 l))))).
    cbv zeta. rewrite fromBase64_quad.
    destruct (sextetAt_index (Buffer.group a0 a1 a2)) as (-> & -> & -> & ->).
    rewrite !(proj1 (sextet_range _ (mod64_lt _))).
    rewrite !(proj2 (sextet_range _ (mod64_lt _))).
    by rewrite (sextets_regroup _ (group_bound a0 a1 a2)), ungroup_group, IH.
Qed.

Lemma toBase64_inj (a b : Buffer.t) : Buffer.toBase64 a = Buffer.toBase64 b -> a = b.
Proof.
  intros H. apply (f_equal fromBase64) in H.
  rewrite !fromBase64_toBase64 in H. by injection H.
Qed.

End Decoding.

(** ** Ingestion: the remaining outcomes *)
Section IngestionOutcomes.
Variable limits : UploadLimits.
Variable kind : string.

Lemma dataChunks_nonempty pre :
  forallb isData pre = true -> pre <> [] -> dataChunks pre <> [].
Proof. by destruct pre as [| [c | |] pre]. Qed.

Lemma bytesOf_nonneg evs : 0 <= bytesOf evs.
Proof. apply Buffer_length_nonneg. Qed.

Lemma pending_iff evs s :
  settled s = None ->
  totalSize s <= MAX_FILE_SIZE limits ->
  settled (fold_left (dispatch limits kind) evs s) = None
  <-> forallb isData evs = true /\ totalSize s + bytesOf evs <= MAX_FILE_SIZE limits.
Proof.
  revert s. induction evs as [| ev evs IH]; intros s Hs Hb.
  - simpl. unfold bytesOf. simpl. change (Buffer.length []) with 0. split; [split; [done | lia] | done].
  - pose proof (bytesOf_nonneg evs) as Hpos.
    destruct ev as [c | | e]; simpl.
    + rewrite bytesOf_cons_data. unfold onData at 1. simpl.
      pose proof (Buffer_length_nonneg c) as Hc.
      destruct (Z.gtb_spec (totalSize s + Buffer.length c) (MAX_FILE_SIZE limits)) as [Hgt | Hle].
      * unfold settle. simpl. rewrite Hs.
        rewrite (fold_settled limits kind _ _ (Throw (fileTooLarge limits))) by done.
        split; [done | lia].
      * rewrite IH; simpl; [| done | lia].
        split; (intros [? ?]; split; [done | lia]).
    + assert (exists r, settled (onEnd kind s) = Some r) as [r Hr].
      { unfold onEnd, settle. rewrite Hs. case_match; simpl; eauto. }
      rewrite (fold_settled limits kind _ _ r Hr). split; [done | by intros [? _]].
    + assert (exists r, settled (onError e s) = Some r) as [r Hr].
      { unfold onError, settle. rewrite Hs. simpl; eauto. }
      rewrite (fold_settled limits kind _ _ r Hr). split; [done | by intros [? _]].
Qed.

(** A promise is resolved or rejected, never settled with a pending value. *)
Lemma never_settles_hang evs s :
  settled s <> Some Hang ->
  settled (fold_left (dispatch limits kind) evs s) <> Some Hang.
Proof.
  revert s. induction evs as [| ev evs IH]; intros s Hs; [done |].
  simpl. apply IH. destruct ev as [c | | e]; simpl.
  - unfold onData. simpl. case_match; [| done]. unfold settle. simpl.
    destruct (settled s) eqn:E; simpl; congruence.
  - unfold onEnd, settle. destruct (settled s) eqn:E; case_match; simpl; congruence.
  - unfold onError, settle. destruct (settled s) eqn:E; simpl; congruence.
Qed.

End IngestionOutcomes.

(** X1. A stream of [data] events within the limit followed by [end] resolves
    with the chunks concatenated in arrival order, whatever the stream emits
    afterwards.  The emptiness test counts chunks, not bytes. *)
Theorem ingestion_concatenates_chunks limits kind pre rest :
  forallb isData pre = true ->
  pre <> [] ->
  bytesOf pre <= MAX_FILE_SIZE limits ->
  ingestionOf limits kind (pre ++ EndEv :: rest)%list = Ok (Buffer.concat (dataChunks pre)).
Proof.
  intros Hd Hne Hb. apply ingest_after; [done | done |].
  simpl. unfold onEnd. simpl.
  rewrite bool_decide_eq_false_2; [done |].
  pose proof (dataChunks_nonempty pre Hd Hne). by destruct (dataChunks pre).
Qed.

Lemma ingestion_concatenates_chunks_witness :
  ingestionOf FILE_UPLOAD_LIMITS "PNG"
    ([DataEv (take 8 png1x1); DataEv (drop 8 png1x1)] ++ EndEv :: [ErrorEv connectionReset])%list
  = Ok (Buffer.concat (dataChunks [DataEv (take 8 png1x1); DataEv (drop 8 png1x1)])).
Proof.
  apply (ingestion_concatenates_chunks FILE_UPLOAD_LIMITS "PNG"
           [DataEv (take 8 png1x1); DataEv (drop 8 png1x1)] [ErrorEv connectionReset]);
    [reflexivity | discriminate | vm_compute; discriminate].
Defined.

(** X2. The promise keeps its first settlement: once the events seen so far
    have resolved or rejected it, no later event changes the result. *)
Theorem ingestion_settles_once limits kind evs more r :
  ingestionOf limits kind evs = r ->
  r <> Hang ->
  ingestionOf limits kind (evs ++ more)%list = r.
Proof.
  unfold ingestionOf, processMultipartUpload. simpl. intros Hr Hne.
  destruct (settled (ingestAll limits kind evs)) as [r0 |] eqn:Hs; [| congruence].
  unfold ingestAll in *. rewrite fold_left_app.
  by rewrite (fold_settled limits kind _ _ r0 Hs).
Qed.

Lemma ingestion_settles_once_witness :
  ingestionOf PDF_UPLOAD_LIMITS "PDF" ([DataEv pdfMinimal; EndEv] ++ [DataEv (zeros 1); EndEv])%list
  = Ok pdfMinimal.
Proof.
  apply (ingestion_settles_once PDF_UPLOAD_LIMITS "PDF" [DataEv pdfMinimal; EndEv]
           [DataEv (zeros 1); EndEv] (Ok pdfMinimal));
    [vm_compute; reflexivity | discriminate].
Defined.

(** X3. The promise stays pending exactly on the streams that have emitted
    nothing but [data] within the limit: only [end], [error] or an overflow
    settles it. *)
Theorem ingestion_pending_iff limits kind evs :
  0 <= MAX_FILE_SIZE limits ->
  (ingestionOf limits kind evs = Hang
   <-> forallb isData evs = true /\ bytesOf evs <= MAX_FILE_SIZE limits).
Proof.
  intros Hmax.
  pose proof (pending_iff limits kind evs (mkIngest [] 0 None) eq_refl Hmax) as H.
  simpl in H. rewrite <- H.
  unfold ingestionOf, processMultipartUpload, ingestAll. simpl.
  destruct (settled (fold_left (dispatch limits kind) evs (mkIngest [] 0 None)))
    as [r |] eqn:Hs; [| done].
  split; [| done]. intros ->. exfalso. revert Hs. by apply never_settles_hang.
Qed.

Lemma ingestion_pending_iff_witness :
  ingestionOf FILE_UPLOAD_LIMITS "PNG" [DataEv png1x1] = Hang
  <-> forallb isData [DataEv png1x1] = true /\
      bytesOf [DataEv png1x1] <= MAX_FILE_SIZE FILE_UPLOAD_LIMITS.
Proof. apply (ingestion_pending_iff FILE_UPLOAD_LIMITS "PNG" [DataEv png1x1]). vm_compute. discriminate. Defined.

(** ** Reads by length *)
Section Reads.

Lemma byteAt_range (b : Buffer.t) (i v : Z) : Buffer.byteAt b i = Some v -> 0 <= v < 256.
Proof.
  unfold Buffer.byteAt. destruct (i <? 0); [done |].
  destruct (b !! Z.to_nat i) as [x |]; [| done]. simpl. intros [= <-].
  pose proof (Byte.to_N_bounded x). lia.
Qed.

Lemma readUInt8_ok (b : Buffer.t) (off : Z) :
  0 <= off < Buffer.length b ->
  exists v, Buffer.readUInt8 b off = Ok v /\ 0 <= v < 256.
Proof.
  intros Hoff. unfold Buffer.readUInt8.
  destruct (byteAt_Some b off Hoff) as [v Hv]. rewrite Hv.
  exists v. split; [done | by apply (byteAt_range b off)].
Qed.

Lemma readUInt32BE_ok (b : Buffer.t) (off : Z) :
  0 <= off -> off + 4 <= Buffer.length b ->
  exists v, Buffer.readUInt32BE b off = Ok v /\ 0 <= v < 2 ^ 32.
Proof.
  intros H0 Hlen. unfold Buffer.readUInt32BE.
  destruct (byteAt_Some b off ltac:(lia)) as [v0 Hv0].
  destruct (byteAt_Some b (off + 1) ltac:(lia)) as [v1 Hv1].
  destruct (byteAt_Some b (off + 2) ltac:(lia)) as [v2 Hv2].
  destruct (byteAt_Some b (off + 3) ltac:(lia)) as [v3 Hv3].
  rewrite Hv0, Hv1, Hv2, Hv3.
  apply byteAt_range in Hv0, Hv1, Hv2, Hv3.
  eexists. split; [done | lia].
Qed.

Lemma readUInt32BE_short (b : Buffer.t) (off : Z) :
  Buffer.length b < off + 4 ->
  Buffer.readUInt32BE b off = Throw (Buffer.boundsError b 4).
Proof.
  intros Hlen. unfold Buffer.readUInt32BE.
  rewrite (byteAt_None b (off + 3)) by lia.
  by repeat case_match.
Qed.

End Reads.

(** X4. What an image upload does with a body that has been received whole:
    any other byte than the signature in the first eight is INVALID_FILE_TYPE;
    a signed body shorter than 24 bytes is CORRUPTED_FILE; a full store is
    UPLOAD_FAILED carrying the store's error; otherwise the record is filed
    under the fresh identifier, with the dimensions read at offsets 16 and 20.
    The size test after ingestion never fires, and nothing past byte 24 is
    looked at. *)
Theorem image_upload_decision env req st b :
  FileUpload.processMultipartUpload req = Ok b ->
  let res := FileUpload.fileUploadProcess env req st in
  if negb (FileUpload.isPNGFile b) then failsWith res st "INVALID_FILE_TYPE" 400 NoDetails
  else if Buffer.length b <? 24 then failsWith res st "CORRUPTED_FILE" 400 NoDetails
  else
    exists w h,
      Buffer.readUInt32BE b 16 = Ok w /\ Buffer.readUInt32BE b 20 = Ok h /\
      0 <= w < 2 ^ 32 /\ 0 <= h < 2 ^ 32 /\
      let entity :=
        FileUpload.mkEntity (FileUpload.uuid env) (fileNameOf req "upload.png")
          (Buffer.length b) (formatFileSize (Buffer.length b)) w h
          (pretty w +:+ " x " +:+ pretty h)
          (FileUpload.generatePreviewUrl b "image/png") "image/png" b (FileUpload.now env) in
      if (100 <=? size (FileUpload.records st))%nat
      then failsWith res st "UPLOAD_FAILED" 500 (Cause limitReached)
      else res = (FileUpload.mkStore (<[FileUpload.uuid env := entity]> (FileUpload.records st)),
                  Ok (FileUpload.toResponse entity)).
Proof.
  intros Hin res. subst res.
  pose proof (ingested_within_limit FILE_UPLOAD_LIMITS "PNG" req b ltac:(done) Hin) as Hsize.
  unfold failsWith, FileUpload.fileUploadProcess, FileUpload.fileUploadBody.
  rewrite Hin, Hsize.
  destruct (FileUpload.isPNGFile b); cbn [negb]; [| simpl; by eexists].
  destruct (Z.ltb_spec (Buffer.length b) 24) as [Hshort | Hlong].
  - unfold FileUpload.extractPNGDimensions.
    destruct (readUInt32BE_cases b 16) as [[w ->] | ->]; simpl; [| by eexists].
    rewrite (readUInt32BE_short b 20) by lia. simpl. by eexists.
  - destruct (readUInt32BE_ok b 16) as (w & Hw & Hwr); [lia | lia |].
    destruct (readUInt32BE_ok b 20) as (h & Hh & Hhr); [lia | lia |].
    exists w, h. split_and!; try done; try lia.
    unfold FileUpload.extractPNGDimensions. rewrite Hw, Hh.
    destruct (Nat.leb_spec 100 (size (FileUpload.records st))) as [Hfull | Hroom]; simpl.
    + rewrite png_add_full by done. simpl. by eexists.
    + by rewrite png_add_room by done.
Qed.

Lemma image_upload_decision_witness :
  failsWith (FileUpload.fileUploadProcess pngEnv (whole (take 16 png1x1)) FileUpload.empty)
    FileUpload.empty "CORRUPTED_FILE" 400 NoDetails.
Proof.
  exact (image_upload_decision pngEnv (whole (take 16 png1x1)) FileUpload.empty
           (take 16 png1x1) eq_refl).
Defined.

(** ** Document uploads: the decision and the errors *)

Section IngestionStatus.
Variable limits : UploadLimits.
Variable kind : string.

Lemma dispatch_status s ev :
  (forall e, settled s = Some (Throw e) -> ingestionStatus e) ->
  forall e, settled (dispatch limits kind s ev) = Some (Throw e) -> ingestionStatus e.
Proof.
  intros Hs e. destruct (settled s) as [r |] eqn:Hr.
  - rewrite (dispatch_settled _ _ _ _ r) by done. intros [= ->]. by apply Hs.
  - unfold ingestionStatus. destruct ev as [c | | e']; simpl.
    + unfold onData. simpl. case_match; simpl; [| by rewrite Hr].
      unfold settle. simpl. rewrite Hr. simpl. intros [= <-]. simpl. in_table.
    + unfold onEnd, settle. rewrite Hr. case_match; simpl; [| done].
      intros [= <-]. simpl. in_table.
    + unfold onError, settle. rewrite Hr. simpl.
      intros [= <-]. simpl. in_table.
Qed.

Lemma fold_status evs s :
  (forall e, settled s = Some (Throw e) -> ingestionStatus e) ->
  forall e, settled (fold_left (dispatch limits kind) evs s) = Some (Throw e) ->
            ingestionStatus e.
Proof.
  revert s. induction evs as [| ev evs IH]; intros s Hs; [done |].
  simpl. apply IH. by apply dispatch_status.
Qed.

Lemma ingestion_error_status req e :
  processMultipartUpload limits kind req = Throw e -> ingestionStatus e.
Proof.
  unfold processMultipartUpload.
  destruct (settled (ingestAll limits kind (body req))) as [r |] eqn:Hs; [| done].
  intros ->. revert Hs. by apply fold_status.
Qed.

End IngestionStatus.

Section DocumentDecision.
Import PdfUpload.

(** X5. What a document upload does, with the gate free, with a body that has
    been received whole: a wrong signature is INVALID_FILE_TYPE; a failed
    structural check is CORRUPTED_FILE naming the kind of the first failing
    check; an accepted file goes to the partition the scan selects, and a full
    partition is UPLOAD_FAILED.  In every case the gate is free afterwards,
    and a failure leaves the store as it was. *)
Theorem document_upload_decision env req st b :
  hasUploadInProgress st = false ->
  PdfUpload.processMultipartUpload req = Ok b ->
  let res := pdfUploadProcess env req st in
  if negb (isPDFFile b) then failsWith res st "INVALID_FILE_TYPE" 400 NoDetails
  else
    match firstFailing pdfChecks (Buffer.toLatin1 b) with
    | Some kind =>
        failsWith res st "CORRUPTED_FILE" 400 (CorruptionInfo (Some (corruptionTypeString kind)))
    | None =>
        match race env with
        | ScanFirst =>
            let entity := buildEntity env req b limpo in
            if (100 <=? size (records st))%nat
            then failsWith res st "UPLOAD_FAILED" 500 (Cause limitReached)
            else res = (mkStore (<[uuid env := entity]> (records st)) (isolatedRecords st) None,
                        Ok (toResponse entity))
        | TimeoutFirst | RaceFails =>
            let entity := buildEntity env req b erro_scan in
            if (100 <=? size (isolatedRecords st))%nat
            then failsWith res st "UPLOAD_FAILED" 500 (Cause isolatedLimitReached)
            else res = (mkStore (records st) (<[uuid env := entity]> (isolatedRecords st)) None,
                        Ok (toResponse entity))
        end
    end.
Proof.
  intros Hfree Hin res. subst res.
  pose proof (ingested_within_limit PDF_UPLOAD_LIMITS "PDF" req b ltac:(done) Hin) as Hsize.
  pose proof (gate_roundtrip st (uuid env) Hfree) as Hgate.
  destruct (validatePDFStructure_firstFailing b) as [Hkind Hvalid].
  unfold failsWith, pdfUploadProcess, pdfUploadGuarded, pdfUploadInner.
  rewrite Hfree, Hin, Hsize.
  destruct (isPDFFile b); cbn [negb]; [| simpl; rewrite Hgate; by eexists].
  rewrite Hvalid. unfold corruptedFile.
  unfold reportedKind in Hkind.
  destruct (firstFailing pdfChecks (Buffer.toLatin1 b)) as [kind |].
  - rewrite bool_decide_eq_false_2 by done. cbn [negb].
    destruct (corruption (validatePDFStructure b)) as [c |]; [| done].
    injection Hkind as Hk. simpl. rewrite Hk, Hgate. by eexists.
  - rewrite bool_decide_eq_true_2 by done. cbn [negb].
    destruct (race env); cbn [scanForVirus].
    + rewrite !bool_decide_eq_false_2 by done.
      destruct (Nat.leb_spec 100 (size (records st))) as [Hfull | Hroom].
      * rewrite pdf_add_full by done. simpl. rewrite Hgate. by eexists.
      * rewrite pdf_add_room by done. by simpl.
    + rewrite bool_decide_eq_false_2 by done. rewrite bool_decide_eq_true_2 by done.
      destruct (Nat.leb_spec 100 (size (isolatedRecords st))) as [Hfull | Hroom].
      * rewrite pdf_isolate_full by done. simpl. rewrite Hgate. by eexists.
      * rewrite pdf_isolate_room by done. by simpl.
    + rewrite bool_decide_eq_false_2 by done. rewrite bool_decide_eq_true_2 by done.
      destruct (Nat.leb_spec 100 (size (isolatedRecords st))) as [Hfull | Hroom].
      * rewrite pdf_isolate_full by done. simpl. rewrite Hgate. by eexists.
      * rewrite pdf_isolate_room by done. by simpl.
Qed.

End DocumentDecision.

Lemma document_upload_decision_witness :
  failsWith (PdfUpload.pdfUploadProcess (pdfEnv idA PdfUpload.ScanFirst)
               (whole pdfNoXrefNoTrailer) PdfUpload.empty)
    PdfUpload.empty "CORRUPTED_FILE" 400 (CorruptionInfo (Some "xref_corrompida")).
Proof.
  exact (document_upload_decision (pdfEnv idA PdfUpload.ScanFirst) (whole pdfNoXrefNoTrailer)
           PdfUpload.empty pdfNoXrefNoTrailer eq_refl eq_refl).
Defined.

Lemma inner_errors env req st st' e :
  PdfUpload.pdfUploadInner env req st = (st', Throw e) ->
  (exists c s, codeAndStatus e = Some (c, s) /\ (c, s) ∈ imageUploadErrors) \/
  (exists m, e = NativeError "Error" None m).
Proof.
  unfold PdfUpload.pdfUploadInner.
  destruct (PdfUpload.processMultipartUpload req) as [b | e0 |] eqn:Hin; [| | done].
  - destruct (Buffer.length b >? MAX_FILE_SIZE PDF_UPLOAD_LIMITS).
    { intros [= _ <-]. left. do 2 eexists. split; [done | in_table]. }
    destruct (PdfUpload.isPDFFile b); cbn [negb];
      [| intros [= _ <-]; left; do 2 eexists; split; [done | in_table]].
    destruct (PdfUpload.valid (PdfUpload.validatePDFStructure b)); cbn [negb];
      [| intros [= _ <-]; left; do 2 eexists; split; [done | in_table]].
    destruct (bool_decide_reflect
                (PdfUpload.scanForVirus (PdfUpload.race env) b = PdfUpload.infectado))
      as [Hscan | _].
    { destruct (scan_outcomes (PdfUpload.race env) b); congruence. }
    destruct (stored_outcome
                (PdfUpload.buildEntity env req b (PdfUpload.scanForVirus (PdfUpload.race env) b))
                (bool_decide (PdfUpload.scanForVirus (PdfUpload.race env) b = PdfUpload.erro_scan))
                st)
      as (st1 & r1 & Hst & [-> | (m & -> & ->)]); rewrite Hst; [done |].
    intros [= _ <-]. right. by exists m.
  - intros [= _ <-]. left.
    pose proof (ingestion_error_status _ _ _ _ Hin) as Hst. unfold ingestionStatus in Hst.
    table_cases Hst; destruct e0 as [| c m s d]; try done; simpl in Hst;
      injection Hst as -> ->; do 2 eexists; (split; [done | in_table]).
Qed.

(** X6. Every failure of a document upload is a [ServiceError] with one of
    six codes, each with its status; MALWARE_DETECTED is not among them, and a
    successful upload reports the scan as [limpo] or [erro_scan]. *)
Theorem document_upload_errors env req st :
  (forall e, snd (PdfUpload.pdfUploadProcess env req st) = Throw e ->
     exists c s, codeAndStatus e = Some (c, s) /\ (c, s) ∈ documentUploadErrors) /\
  thrownCode (snd (PdfUpload.pdfUploadProcess env req st)) <> Some "MALWARE_DETECTED" /\
  (forall payload, snd (PdfUpload.pdfUploadProcess env req st) = Ok payload ->
     getProp payload "scanResult" = Some (JString "limpo") \/
     getProp payload "scanResult" = Some (JString "erro_scan")).
Proof.
  assert (forall e, snd (PdfUpload.pdfUploadProcess env req st) = Throw e ->
            exists c s, codeAndStatus e = Some (c, s) /\ (c, s) ∈ documentUploadErrors) as Herr.
  { unfold PdfUpload.pdfUploadProcess.
    destruct (PdfUpload.hasUploadInProgress st).
    { intros e [= <-]. do 2 eexists. split; [done | in_table]. }
    unfold PdfUpload.pdfUploadGuarded.
    destruct (PdfUpload.pdfUploadInner env req _) as [st1 [r | e0 |]] eqn:Hinner; simpl; try done.
    destruct (inner_errors _ _ _ _ _ Hinner) as [(c & s & Hcs & Hmem) | (m & ->)].
    - destruct e0 as [| c' m s' d]; [done |]. simpl in *. injection Hcs as -> ->.
      intros e [= <-]. exists c, s. split; [done | by apply list_elem_of_further].
    - simpl. intros e [= <-]. do 2 eexists. split; [done | in_table]. }
  split_and!; [done | |].
  - destruct (snd (PdfUpload.pdfUploadProcess env req st)) as [r | e |] eqn:Hres; simpl; try done.
    destruct (Herr e eq_refl) as (c & s & Hcs & Hmem).
    destruct e as [| c' m s' d]; [done |]. simpl in *. injection Hcs as -> ->.
    intros [= ->]. table_cases Hmem; discriminate.
  - intros payload Hok.
    destruct (PdfUpload.pdfUploadProcess env req st) as [st' r] eqn:Hres. simpl in Hok. subst r.
    revert Hres. unfold PdfUpload.pdfUploadProcess.
    destruct (PdfUpload.hasUploadInProgress st); [done |].
    unfold PdfUpload.pdfUploadGuarded.
    destruct (inner_outcome env req (PdfUpload.setUploadInProgress (PdfUpload.uuid env) st))
      as [-> | [(e & -> & Hsvc & _) | [(m & ->) | (b & st1 & _ & _ & ->)]]]; simpl; try done.
    + by rewrite Hsvc.
    + intros [= _ <-].
      destruct (scan_outcomes (PdfUpload.race env) b) as [-> | ->]; [by left | by right].
Qed.

(** ** Accepted uploads *)
Section Accepted.

(** The shape of a successful image upload. *)
Lemma image_upload_success env req st st' payload :
  FileUpload.fileUploadProcess env req st = (st', Ok payload) ->
  exists b w h,
    FileUpload.processMultipartUpload req = Ok b /\
    FileUpload.isPNGFile b = true /\
    Buffer.readUInt32BE b 16 = Ok w /\ Buffer.readUInt32BE b 20 = Ok h /\
    (size (FileUpload.records st) < 100)%nat /\
    let entity :=
      FileUpload.mkEntity (FileUpload.uuid env) (fileNameOf req "upload.png")
        (Buffer.length b) (formatFileSize (Buffer.length b)) w h
        (pretty w +:+ " x " +:+ pretty h)
        (FileUpload.generatePreviewUrl b "image/png") "image/png" b (FileUpload.now env) in
    st' = FileUpload.mkStore (<[FileUpload.uuid env := entity]> (FileUpload.records st)) /\
    payload = FileUpload.toResponse entity.
Proof.
  unfold FileUpload.fileUploadProcess, FileUpload.fileUploadBody.
  destruct (FileUpload.processMultipartUpload req) as [b | e |] eqn:Hin;
    [| simpl; by destruct (isServiceError e) | done].
  destruct (Buffer.length b >? MAX_FILE_SIZE FILE_UPLOAD_LIMITS); [done |].
  destruct (FileUpload.isPNGFile b) eqn:Hsig; cbn [negb]; [| done].
  unfold FileUpload.extractPNGDimensions.
  destruct (Buffer.readUInt32BE b 16) as [w | e |] eqn:Hw; [| done | done].
  destruct (Buffer.readUInt32BE b 20) as [h | e |] eqn:Hh; [| done | done].
  cbn [obind try_catch].
  destruct (Nat.leb_spec 100 (size (FileUpload.records st))) as [Hfull | Hroom].
  - rewrite png_add_full by done. done.
  - rewrite png_add_room by done. cbn [try_catch FileUpload.id].
    intros [= <- <-]. by exists b, w, h.
Qed.

(** The shape of a successful document upload. *)
Lemma document_upload_success env req st st' payload :
  PdfUpload.pdfUploadProcess env req st = (st', Ok payload) ->
  PdfUpload.uploadInProgress st = None /\
  exists b scan,
    PdfUpload.processMultipartUpload req = Ok b /\
    scan = PdfUpload.scanForVirus (PdfUpload.race env) b /\
    let entity := PdfUpload.buildEntity env req b scan in
    payload = PdfUpload.toResponse entity /\
    ((scan = PdfUpload.limpo /\ (size (PdfUpload.records st) < 100)%nat /\
      st' = PdfUpload.mkStore (<[PdfUpload.uuid env := entity]> (PdfUpload.records st))
              (PdfUpload.isolatedRecords st) None) \/
     (scan = PdfUpload.erro_scan /\ (size (PdfUpload.isolatedRecords st) < 100)%nat /\
      st' = PdfUpload.mkStore (PdfUpload.records st)
              (<[PdfUpload.uuid env := entity]> (PdfUpload.isolatedRecords st)) None)).
Proof.
  unfold PdfUpload.pdfUploadProcess.
  destruct (PdfUpload.hasUploadInProgress st) eqn:Hfree; [done |].
  apply gate_free_iff in Hfree. intros Hres. split; [done |]. revert Hres.
  unfold PdfUpload.pdfUploadGuarded.
  destruct (inner_outcome env req (PdfUpload.setUploadInProgress (PdfUpload.uuid env) st))
    as [-> | [(e & -> & Hsvc & _) | [(m & ->) | (b & st1 & Hin & Hadd & ->)]]];
    simpl; try done.
  { by rewrite Hsvc. }
  intros [= <- <-]. exists b, (PdfUpload.scanForVirus (PdfUpload.race env) b).
  split_and!; [done | done | done |].
  destruct (scan_outcomes (PdfUpload.race env) b) as [Hscan | Hscan]; rewrite Hscan in Hadd |- *.
  - left. rewrite bool_decide_eq_false_2 in Hadd by done.
    destruct (Nat.leb_spec 100 (size (PdfUpload.records st))) as [Hfull | Hroom].
    + rewrite pdf_add_full in Hadd by done. done.
    + rewrite pdf_add_room in Hadd by done. by injection Hadd as <-.
  - right. rewrite bool_decide_eq_true_2 in Hadd by done.
    destruct (Nat.leb_spec 100 (size (PdfUpload.isolatedRecords st))) as [Hfull | Hroom].
    + rewrite pdf_isolate_full in Hadd by done. done.
    + rewrite pdf_isolate_room in Hadd by done. by injection Hadd as <-.
Qed.

Lemma parse_own_id (i : string) :
  isUuid i = true -> parseUuidField "id" [("id", JString i)] = Some i.
Proof. intros Hi. unfold parseUuidField. simpl. by rewrite Hi. Qed.

End Accepted.

(** X7. The life of an image record: once an upload under a fresh identifier
    has succeeded, a read by that identifier returns the payload the upload
    returned, cancelling it answers with the deletion message and puts the
    store back exactly as it was before the upload, and a read then fails with
    NOT_FOUND. *)
Theorem image_lifecycle env req st st' payload :
  isUuid (FileUpload.uuid env) = true ->
  FileUpload.getById (FileUpload.uuid env) st = None ->
  FileUpload.fileUploadProcess env req st = (st', Ok payload) ->
  let params := [("id", JString (FileUpload.uuid env))] in
  FileUpload.fileUploadGet params st' = Ok payload /\
  FileUpload.fileUploadCancel params st'
    = (st, Ok [("message", JString "File deleted successfully")]) /\
  FileUpload.fileUploadGet params st = Throw FileUpload.notFound.
Proof.
  intros Hid Hfresh Hup params.
  destruct (image_upload_success env req st st' payload Hup)
    as (b & w & h & _ & _ & _ & _ & _ & -> & ->).
  unfold FileUpload.fileUploadGet, FileUpload.fileUploadCancel, FileUpload.exists_,
    FileUpload.delete, FileUpload.getById in *.
  subst params. rewrite (parse_own_id _ Hid). cbn [FileUpload.records].
  rewrite lookup_insert_eq, Hfresh.
  rewrite bool_decide_eq_true_2 by eauto. cbn [negb fst].
  rewrite delete_insert_id by done.
  by destruct st.
Qed.

Lemma image_lifecycle_witness :
  let st' := fst (FileUpload.fileUploadProcess pngEnv (whole png1x1) FileUpload.empty) in
  let params := [("id", JString idA)] in
  FileUpload.fileUploadGet params st'
    = Ok (FileUpload.toResponse
            (FileUpload.mkEntity idA "upload.png" 70 "0.07 KB" 1 1 "1 x 1"
               (FileUpload.generatePreviewUrl png1x1 "image/png") "image/png" png1x1
               "2024-01-01T00:00:00.000Z")) /\
  FileUpload.fileUploadCancel params st'
    = (FileUpload.empty, Ok [("message", JString "File deleted successfully")]) /\
  FileUpload.fileUploadGet params FileUpload.empty = Throw FileUpload.notFound.
Proof.
  apply (image_lifecycle pngEnv (whole png1x1) FileUpload.empty);
    [reflexivity | reflexivity | vm_compute; reflexivity].
Defined.

(** X8. The life of a document record, clean or quarantined: with an
    identifier that neither partition holds, a read after the upload returns
    the upload's payload, cancelling puts both partitions and the gate back
    as they were, and a read then fails with NOT_FOUND. *)
Theorem document_lifecycle env req st st' payload :
  isUuid (PdfUpload.uuid env) = true ->
  PdfUpload.getById (PdfUpload.uuid env) st = None ->
  PdfUpload.pdfUploadProcess env req st = (st', Ok payload) ->
  let params := [("id", JString (PdfUpload.uuid env))] in
  PdfUpload.pdfUploadGet params st' = Ok payload /\
  PdfUpload.pdfUploadCancel params st'
    = (st, Ok [("message", JString "File deleted successfully")]) /\
  PdfUpload.pdfUploadGet params st = Throw PdfUpload.notFound.
Proof.
  intros Hid Hfresh Hup params.
  destruct (document_upload_success env req st st' payload Hup)
    as (Hgate & b & scan & _ & _ & -> & Hst).
  assert (PdfUpload.records st !! PdfUpload.uuid env = None /\
          PdfUpload.isolatedRecords st !! PdfUpload.uuid env = None) as [Hp Hq].
  { unfold PdfUpload.getById in Hfresh.
    by destruct (PdfUpload.records st !! PdfUpload.uuid env). }
  unfold PdfUpload.pdfUploadGet, PdfUpload.pdfUploadCancel, PdfUpload.exists_,
    PdfUpload.delete, PdfUpload.getById.
  subst params. rewrite (parse_own_id _ Hid).
  destruct Hst as [(_ & _ & ->) | (_ & _ & ->)]; cbn [PdfUpload.records PdfUpload.isolatedRecords].
  - rewrite lookup_insert_eq, Hp, Hq.
    rewrite (bool_decide_eq_true_2 (is_Some (Some _))) by eauto. cbn [orb negb fst].
    cbn [PdfUpload.records PdfUpload.isolatedRecords PdfUpload.uploadInProgress].
    rewrite delete_insert_id by done. split_and!; [done | | done].
    destruct st; simpl in *; by subst.
  - rewrite lookup_insert_eq, Hp, Hq.
    rewrite (bool_decide_eq_false_2 (is_Some None)) by (by intros [? ?]).
    rewrite (bool_decide_eq_true_2 (is_Some (Some _))) by eauto. cbn [orb negb fst].
    cbn [PdfUpload.records PdfUpload.isolatedRecords PdfUpload.uploadInProgress].
    rewrite delete_insert_id by done. split_and!; [done | | done].
    destruct st; simpl in *; by subst.
Qed.

Lemma document_lifecycle_witness :
  let st' := fst (PdfUpload.pdfUploadProcess (pdfEnv idB PdfUpload.TimeoutFirst)
                    (whole pdfMinimal) (performAll (take 1 demoOps))) in
  let params := [("id", JString idB)] in
  PdfUpload.pdfUploadGet params st' = Ok (PdfUpload.toResponse quarantinedRecord) /\
  PdfUpload.pdfUploadCancel params st'
    = (performAll (take 1 demoOps), Ok [("message", JString "File deleted successfully")]) /\
  PdfUpload.pdfUploadGet params (performAll (take 1 demoOps)) = Throw PdfUpload.notFound.
Proof.
  apply (document_lifecycle (pdfEnv idB PdfUpload.TimeoutFirst) (whole pdfMinimal)
           (performAll (take 1 demoOps)));
    [reflexivity | vm_compute; reflexivity | vm_compute; reflexivity].
Defined.

(** X9. What cancelling a document does to the store.  The gate is never
    touched.  A success removes exactly one record, from the primary
    partition when it holds the identifier and from the isolated one
    otherwise, so the count drops by one; a failure is VALIDATION_ERROR or
    NOT_FOUND and leaves the store as it was. *)
Theorem document_cancel_effect params st :
  let st' := fst (PdfUpload.pdfUploadCancel params st) in
  PdfUpload.uploadInProgress st' = PdfUpload.uploadInProgress st /\
  match snd (PdfUpload.pdfUploadCancel params st) with
  | Ok _ =>
      exists i, parseUuidField "id" params = Some i /\
        PdfUpload.count st' = PdfUpload.count st - 1 /\
        PdfUpload.getById i st <> None /\
        if bool_decide (is_Some (PdfUpload.records st !! i))
        then PdfUpload.records st' = base.delete i (PdfUpload.records st) /\
             PdfUpload.isolatedRecords st' = PdfUpload.isolatedRecords st
        else PdfUpload.records st' = PdfUpload.records st /\
             PdfUpload.isolatedRecords st' = base.delete i (PdfUpload.isolatedRecords st)
  | Throw e =>
      st' = st /\
      match parseUuidField "id" params with
      | None => e = PdfUpload.invalidId
      | Some i => e = PdfUpload.notFound /\ PdfUpload.getById i st = None
      end
  | Hang => False
  end.
Proof.
  unfold PdfUpload.pdfUploadCancel, PdfUpload.exists_, PdfUpload.delete, PdfUpload.getById,
    PdfUpload.count.
  destruct (parseUuidField "id" params) as [i |]; [| done].
  destruct (bool_decide_reflect (is_Some (PdfUpload.records st !! i))) as [Hp | Hp];
    cbn [orb negb fst snd].
  - split; [done |]. exists i. rewrite bool_decide_eq_true_2 by done.
    cbn [PdfUpload.records PdfUpload.isolatedRecords].
    pose proof (size_after_delete (PdfUpload.records st) i Hp).
    split_and!; [done | lia | | done | done].
    destruct Hp as [e ->]. done.
  - assert (PdfUpload.records st !! i = None) as Hnone.
    { destruct (PdfUpload.records st !! i) eqn:E; [| done]. destruct Hp. eauto. }
    destruct (bool_decide_reflect (is_Some (PdfUpload.isolatedRecords st !! i))) as [Hq | Hq];
      cbn [negb fst snd].
    + split; [done |]. exists i. rewrite bool_decide_eq_false_2 by done.
      cbn [PdfUpload.records PdfUpload.isolatedRecords].
      pose proof (size_after_delete (PdfUpload.isolatedRecords st) i Hq).
      split_and!; [done | lia | | done | done].
      rewrite Hnone. destruct Hq as [e ->]. done.
    + split_and!; [done | done | done |].
      rewrite Hnone. destruct (PdfUpload.isolatedRecords st !! i) eqn:E; [| done].
      destruct Hq. eauto.
Qed.

(** X10. What cancelling an image does to the store: a success removes the
    record under the identifier and nothing else, so the count drops by one;
    a failure is VALIDATION_ERROR or NOT_FOUND and leaves the store as it
    was. *)
Theorem image_cancel_effect params st :
  let st' := fst (FileUpload.fileUploadCancel params st) in
  match snd (FileUpload.fileUploadCancel params st) with
  | Ok _ =>
      exists i, parseUuidField "id" params = Some i /\
        is_Some (FileUpload.getById i st) /\
        FileUpload.getById i st' = None /\
        (forall j, j <> i -> FileUpload.getById j st' = FileUpload.getById j st) /\
        FileUpload.count st' = FileUpload.count st - 1
  | Throw e =>
      st' = st /\
      match parseUuidField "id" params with
      | None => e = FileUpload.invalidId
      | Some i => e = FileUpload.notFound /\ FileUpload.getById i st = None
      end
  | Hang => False
  end.
Proof.
  unfold FileUpload.fileUploadCancel, FileUpload.exists_, FileUpload.delete,
    FileUpload.getById, FileUpload.count.
  destruct (parseUuidField "id" params) as [i |]; [| done].
  destruct (bool_decide_reflect (is_Some (FileUpload.records st !! i))) as [Hp | Hp];
    cbn [negb fst snd FileUpload.records].
  - exists i. split_and!; [done | done | apply lookup_delete_eq | |].
    + intros j Hne. by apply lookup_delete_ne.
    + pose proof (size_after_delete (FileUpload.records st) i Hp). lia.
  - split_and!; [done | done |].
    destruct (FileUpload.records st !! i) eqn:E; [| done]. destruct Hp. eauto.
Qed.

(** ** Invariants of the stores *)
Section StoreInvariants.

Lemma readUInt32BE_length (b : Buffer.t) (off v : Z) :
  Buffer.readUInt32BE b off = Ok v -> off + 4 <= Buffer.length b.
Proof.
  intros Hv. destruct (Z.lt_ge_cases (Buffer.length b) (off + 4)) as [Hlt | Hge]; [| done].
  by rewrite (readUInt32BE_short b off Hlt) in Hv.
Qed.

Lemma ingested_le limits kind req (b : Buffer.t) :
  0 <= MAX_FILE_SIZE limits ->
  processMultipartUpload limits kind req = Ok b ->
  Buffer.length b <= MAX_FILE_SIZE limits.
Proof.
  intros Hmax Hin. pose proof (ingested_within_limit limits kind req b Hmax Hin) as Hle.
  by destruct (Z.gtb_spec (Buffer.length b) (MAX_FILE_SIZE limits)).
Qed.

Lemma size_delete_le {V} (m : gmap string V) i : (size (base.delete i m) <= size m)%nat.
Proof. rewrite map_size_delete. destruct (m !! i); simpl; unfold id; lia. Qed.

Lemma size_insert_le {V} (m : gmap string V) i x : (size (<[i := x]> m) <= S (size m))%nat.
Proof. rewrite map_size_insert. destruct (m !! i); simpl; unfold id; lia. Qed.

Lemma signature_length (sig b : Buffer.t) :
  take (List.length sig) b = sig -> (List.length sig <= List.length b)%nat.
Proof. intros H. rewrite <- H at 1. rewrite length_take. lia. Qed.

Lemma image_upload_inv env req st :
  imageStoreInv st -> imageStoreInv (fst (FileUpload.fileUploadProcess env req st)).
Proof.
  intros [Hsize Hrec].
  destruct (FileUpload.fileUploadProcess env req st) as [st' [payload | e |]] eqn:Hres;
    cbn [fst].
  - destruct (image_upload_success env req st st' payload Hres)
      as (b & w & h & Hin & Hsig & Hw & Hh & Hroom & -> & _).
    split; cbn [FileUpload.records].
    + match goal with |- (size (<[?k := ?x]> _) <= _)%nat =>
        pose proof (size_insert_le (FileUpload.records st) k x) end. lia.
    + intros i e [[<- <-] | [_ He]]%lookup_insert_Some; [| by apply Hrec].
      pose proof (ingested_le FILE_UPLOAD_LIMITS "PNG" req b ltac:(done) Hin) as Hle.
      change (MAX_FILE_SIZE FILE_UPLOAD_LIMITS) with (10 * 1024 * 1024) in Hle.
      pose proof (readUInt32BE_length b 20 h Hh).
      unfold wellFormedImage. cbn. split_and!; try done; lia.
  - rewrite (png_failure_keeps_store env req st st' e Hres). by split.
  - destruct (png_upload_cases env req st) as [[e Heq] | [Heq | (entity & Heq & _)]];
      rewrite Heq in Hres; [done | | done].
    injection Hres as <-. by split.
Qed.

Lemma image_cancel_inv params st :
  imageStoreInv st -> imageStoreInv (fst (FileUpload.fileUploadCancel params st)).
Proof.
  intros [Hsize Hrec]. unfold FileUpload.fileUploadCancel.
  destruct (parseUuidField "id" params) as [i |]; [| by split].
  destruct (FileUpload.exists_ i st) eqn:Hex; cbn [negb fst]; [| by split].
  split; cbn [FileUpload.records FileUpload.delete fst].
  - pose proof (size_delete_le (FileUpload.records st) i). lia.
  - intros j e [_ He]%lookup_delete_Some. by apply Hrec.
Qed.

Lemma image_perform_inv st op : imageStoreInv st -> imageStoreInv (imagePerform st op).
Proof.
  destruct op; simpl; [apply image_upload_inv | done | apply image_cancel_inv | done].
Qed.

Lemma image_fold_inv ops st :
  imageStoreInv st -> imageStoreInv (fold_left imagePerform ops st).
Proof.
  revert st. induction ops as [| op ops IH]; intros st Hst; [done |].
  simpl. apply IH. by apply image_perform_inv.
Qed.

Lemma image_empty_inv : imageStoreInv FileUpload.empty.
Proof.
  split; cbn.
  - rewrite map_size_empty. lia.
  - intros i e He. by rewrite lookup_empty in He.
Qed.

Lemma image_after_inv ops : imageStoreInv (imageStoreAfter ops).
Proof. apply image_fold_inv, image_empty_inv. Qed.

Lemma document_entity_inv env req b scan :
  PdfUpload.processMultipartUpload req = Ok b ->
  PdfUpload.isPDFFile b = true ->
  wellFormedDocument (PdfUpload.uuid env) (PdfUpload.buildEntity env req b scan).
Proof.
  intros Hin Hsig.
  pose proof (ingested_le PDF_UPLOAD_LIMITS "PDF" req b ltac:(done) Hin) as Hle.
  change (MAX_FILE_SIZE PDF_UPLOAD_LIMITS) with (50 * 1024 * 1024) in Hle.
  apply isPDFFile_spec, (signature_length PdfUpload.PDF_SIGNATURE) in Hsig.
  unfold wellFormedDocument. cbn. split_and!; try done.
  - unfold Buffer.length. change (List.length PdfUpload.PDF_SIGNATURE) with 5%nat in Hsig. lia.
  - by eexists.
Qed.

Lemma document_finish_inv env req st :
  documentStoreInv st -> documentStoreInv (fst (PdfUpload.pdfUploadFinish env req st)).
Proof.
  intros Hinv. unfold PdfUpload.pdfUploadFinish, PdfUpload.pdfUploadGuarded.
  destruct (PdfUpload.pdfUploadInner env req st) as [st1 r] eqn:Hinner.
  assert (documentStoreInv st1) as Hinv1.
  { revert Hinner. unfold PdfUpload.pdfUploadInner.
    destruct (PdfUpload.processMultipartUpload req) as [b | e |] eqn:Hin;
      [| by intros [= <- _] | by intros [= <- _]].
    destruct (Buffer.length b >? MAX_FILE_SIZE PDF_UPLOAD_LIMITS); [by intros [= <- _] |].
    destruct (PdfUpload.isPDFFile b) eqn:Hsig; cbn [negb]; [| by intros [= <- _]].
    destruct (PdfUpload.valid (PdfUpload.validatePDFStructure b)); cbn [negb];
      [| by intros [= <- _]].
    destruct (bool_decide (PdfUpload.scanForVirus (PdfUpload.race env) b = PdfUpload.infectado));
      [by intros [= <- _] |].
    pose proof (document_entity_inv env req b
                  (PdfUpload.scanForVirus (PdfUpload.race env) b) Hin Hsig) as Hent.
    destruct Hinv as (Hp & Hq & Hrp & Hrq).
    destruct (bool_decide (PdfUpload.scanForVirus (PdfUpload.race env) b = PdfUpload.erro_scan)).
    - destruct (Nat.leb_spec 100 (size (PdfUpload.isolatedRecords st))) as [Hfull | Hroom].
      + rewrite pdf_isolate_full by done. by intros [= <- _].
      + rewrite pdf_isolate_room by done. intros [= <- _].
        split_and!; cbn [PdfUpload.records PdfUpload.isolatedRecords PdfUpload.clearUploadInProgress];
          [done | | done |].
        * match goal with |- (size (<[?k := ?x]> _) <= _)%nat =>
            pose proof (size_insert_le (PdfUpload.isolatedRecords st) k x) end. lia.
        * intros i e [[<- <-] | [_ He]]%lookup_insert_Some; [done | by apply Hrq].
    - destruct (Nat.leb_spec 100 (size (PdfUpload.records st))) as [Hfull | Hroom].
      + rewrite pdf_add_full by done. by intros [= <- _].
      + rewrite pdf_add_room by done. intros [= <- _].
        split_and!; cbn [PdfUpload.records PdfUpload.isolatedRecords PdfUpload.clearUploadInProgress];
          [| done | | done].
        * match goal with |- (size (<[?k := ?x]> _) <= _)%nat =>
            pose proof (size_insert_le (PdfUpload.records st) k x) end. lia.
        * intros i e [[<- <-] | [_ He]]%lookup_insert_Some; [done | by apply Hrp]. }
  by destruct r.
Qed.

Lemma document_begin_inv env st :
  documentStoreInv st -> documentStoreInv (fst (PdfUpload.pdfUploadBegin env st)).
Proof. unfold PdfUpload.pdfUploadBegin. by case_match. Qed.

Lemma document_cancel_inv params st :
  documentStoreInv st -> documentStoreInv (fst (PdfUpload.pdfUploadCancel params st)).
Proof.
  intros (Hp & Hq & Hrp & Hrq). unfold PdfUpload.pdfUploadCancel.
  destruct (parseUuidField "id" params) as [i |]; [| done].
  destruct (PdfUpload.exists_ i st); cbn [negb fst]; [| done].
  unfold PdfUpload.delete. case_match; cbn [fst].
  - split_and!; cbn [PdfUpload.records PdfUpload.isolatedRecords]; [| done | | done].
    + pose proof (size_delete_le (PdfUpload.records st) i). pose proof (size_delete_le (PdfUpload.isolatedRecords st) i). lia.
    + intros j e [_ He]%lookup_delete_Some. by apply Hrp.
  - split_and!; cbn [PdfUpload.records PdfUpload.isolatedRecords]; [done | | done |].
    + pose proof (size_delete_le (PdfUpload.records st) i). pose proof (size_delete_le (PdfUpload.isolatedRecords st) i). lia.
    + intros j e [_ He]%lookup_delete_Some. by apply Hrq.
Qed.

Lemma document_step_inv s s' :
  PdfUpload.step s s' ->
  documentStoreInv (PdfUpload.store s) -> documentStoreInv (PdfUpload.store s').
Proof.
  intros Hstep Hinv. destruct Hstep as [env req s st' Hb | env s st' e Hb
    | env req s pre post st' r _ Hf _ | params s | params s]; simpl.
  - pose proof (document_begin_inv env _ Hinv) as H. by rewrite Hb in H.
  - pose proof (document_begin_inv env _ Hinv) as H. by rewrite Hb in H.
  - pose proof (document_finish_inv env req _ Hinv) as H. by rewrite Hf in H.
  - done.
  - by apply document_cancel_inv.
Qed.

End StoreInvariants.

(** X11. Whatever uploads, reads, cancellations and conversions have been
    served, the image store holds at most 100 records, and each is filed under
    its own identifier, is typed image/png, begins with the PNG signature, has
    between 24 bytes and 10 MiB, and records the size of its buffer, the
    dimensions read from it and the data URL of its bytes. *)
Theorem image_store_invariant (ops : list ImageOperation) :
  (size (FileUpload.records (imageStoreAfter ops)) <= 100)%nat /\
  forall i e, FileUpload.getById i (imageStoreAfter ops) = Some e -> wellFormedImage i e.
Proof.
  assert (imageStoreInv (imageStoreAfter ops)) as [Hsize Hrec].
  { unfold imageStoreAfter. apply image_fold_inv, image_empty_inv. }
  split; [done |]. intros i e He. by apply Hrec.
Qed.

(** X12. In every reachable state of the document service each partition
    holds at most 100 records, and each record, clean or quarantined, is
    filed under its own identifier, is typed application/pdf, has between 5
    bytes and 50 MiB, records the size of its buffer, and carries the token
    made for its identifier. *)
Theorem document_store_invariant (s : PdfUpload.System) :
  PdfUpload.reachable s ->
  (size (PdfUpload.records (PdfUpload.store s)) <= 100)%nat /\
  (size (PdfUpload.isolatedRecords (PdfUpload.store s)) <= 100)%nat /\
  forall i e,
    PdfUpload.records (PdfUpload.store s) !! i = Some e \/
    PdfUpload.isolatedRecords (PdfUpload.store s) !! i = Some e ->
    wellFormedDocument i e.
Proof.
  intros Hreach.
  assert (documentStoreInv (PdfUpload.store s)) as (Hp & Hq & Hrp & Hrq).
  { induction Hreach as [| s s' _ IH Hstep].
    - split_and!; cbn; try (rewrite map_size_empty; lia);
        intros i e He; by rewrite lookup_empty in He.
    - by apply (document_step_inv s s'). }
  split_and!; [done | done |].
  intros i e [He | He]; [by apply Hrp | by apply Hrq].
Qed.

Lemma document_store_invariant_witness :
  (size (PdfUpload.records (PdfUpload.store demoSystem)) <= 100)%nat /\
  (size (PdfUpload.isolatedRecords (PdfUpload.store demoSystem)) <= 100)%nat /\
  forall i e,
    PdfUpload.records (PdfUpload.store demoSystem) !! i = Some e \/
    PdfUpload.isolatedRecords (PdfUpload.store demoSystem) !! i = Some e ->
    wellFormedDocument i e.
Proof. apply (document_store_invariant demoSystem), demo_reachable. Defined.

(** ** Conversions *)
Section Conversions.
Import PngConversion.

Lemma stripPrefix_append (p s : string) : stripPrefix p (p +:+ s) = Some s.
Proof.
  induction p as [| c p IH]; [by destruct s |].
  change (String c p +:+ s) with (String c (p +:+ s)).
  change (stripPrefix (String c p) (String c (p +:+ s)))
    with (if Ascii.eqb c c then stripPrefix p (p +:+ s) else None).
  by rewrite Ascii.eqb_refl.
Qed.

Lemma dataUrlBytes_encoded (b : Buffer.t) (mime : string) :
  dataUrlBytes mime (dataUrlPrefix mime +:+ Buffer.toBase64 b) = Some b.
Proof. unfold dataUrlBytes. by rewrite stripPrefix_append, fromBase64_toBase64. Qed.

Lemma padded_size (S : Z) :
  0 <= S -> (S * 4 + 2) / 3 + (3 - S mod 3) mod 3 = 4 * ((S + 2) / 3).
Proof. intros HS. Z.to_euclidean_division_equations. lia. Qed.

Lemma padding_fits (S : Z) :
  26 <= S ->
  (100 * ((3 - S mod 3) mod 3) <=? (S * 4 + 2) / 3 + 22)
  = (S mod 3 =? 0) || ((S mod 3 =? 2) && (59 <=? S)) || ((S mod 3 =? 1) && (133 <=? S)).
Proof.
  intros HS.
  destruct (Z.leb_spec (100 * ((3 - S mod 3) mod 3)) ((S * 4 + 2) / 3 + 22));
    destruct (Z.eqb_spec (S mod 3) 0); destruct (Z.eqb_spec (S mod 3) 2);
    destruct (Z.eqb_spec (S mod 3) 1); destruct (Z.leb_spec 59 S);
    destruct (Z.leb_spec 133 S); simpl; try reflexivity; exfalso;
    Z.to_euclidean_division_equations; lia.
Qed.

Lemma body_response enc t body st r :
  pngConversionBody enc t body st = Ok r ->
  exists entity data,
    parseUuidField "fileId" body = Some (fileId r) /\
    FileUpload.getById (fileId r) st = Some entity /\
    enc (FileUpload.buffer entity) = Ok data /\
    base64String r = dataUrlPrefix (FileUpload.mimeType entity) +:+ data /\
    base64Size r = JsString.length (base64String r) /\
    expectedSize r = calculateExpectedBase64Size (FileUpload.fileSize entity)
                       (dataUrlPrefix (FileUpload.mimeType entity)) /\
    integrityValid r = true /\ convertedAt r = t.
Proof.
  unfold pngConversionBody.
  destruct (parseUuidField "fileId" body) as [i |]; [| done].
  destruct (FileUpload.getById i st) as [entity |] eqn:Hget; [| done].
  destruct (extract_outcome (FileUpload.buffer entity)) as [[m ->] | [cause ->]]; simpl;
    [| done].
  unfold convertToBase64.
  destruct (enc (FileUpload.buffer entity)) as [s | err |] eqn:Henc; simpl; [| done | done].
  destruct (validateConversionIntegrity _ _) eqn:Hv; simpl; [| done].
  intros [= <-]. simpl. exists entity, s. rewrite data_url_prefixed. by split_and!.
Qed.

Lemma conversion_cases enc t body st :
  match parseUuidField "fileId" body with
  | None =>
      pngConversionWith enc t body st
      = Throw (ServiceError "VALIDATION_ERROR" "ID do arquivo inválido" 400 ZodIssues)
  | Some i =>
      match FileUpload.getById i st with
      | None =>
          pngConversionWith enc t body st
          = Throw (ServiceError "NOT_FOUND"
                     "Arquivo não encontrado. Por favor, faça o upload novamente" 404 NoDetails)
      | Some entity =>
          (exists r, pngConversionWith enc t body st = Ok r) \/
          pngConversionWith enc t body st = Hang \/
          (exists c msg d,
             pngConversionWith enc t body st = Throw (ServiceError c msg 500 d) /\
             c ∈ ["METADATA_EXTRACTION_FAILED"; "CONVERSION_FAILED"; "INTEGRITY_ERROR"])
      end
  end.
Proof.
  unfold pngConversionWith, pngConversionBody.
  destruct (parseUuidField "fileId" body) as [i |]; [| done].
  destruct (FileUpload.getById i st) as [entity |]; [| done].
  destruct (extract_outcome (FileUpload.buffer entity)) as [[m ->] | [cause ->]]; simpl.
  2: { right; right. do 3 eexists. split; [done | in_table]. }
  unfold convertToBase64.
  destruct (enc (FileUpload.buffer entity)) as [s | err |]; simpl.
  - destruct (validateConversionIntegrity _ _); simpl.
    + left. by eexists.
    + right; right. do 3 eexists. split; [done | in_table].
  - right; right. do 3 eexists. split; [done | in_table].
  - by right; left.
Qed.

End Conversions.

(** X13. The outcome of converting a stored image, by the size [S] of its
    bytes alone: under 26 bytes METADATA_EXTRACTION_FAILED; otherwise success
    exactly when [S] is a multiple of 3, or leaves 2 and is at least 59, or
    leaves 1 and is at least 133, and INTEGRITY_ERROR in the remaining cases.
    The expected size ignores the base64 padding that the actual size
    includes. *)
Theorem stored_image_conversion ops t body fileId entity :
  parseUuidField "fileId" body = Some fileId ->
  FileUpload.getById fileId (imageStoreAfter ops) = Some entity ->
  let S := Buffer.length (FileUpload.buffer entity) in
  let res := PngConversion.pngConversionProcess t body (imageStoreAfter ops) in
  if S <? 26 then thrownCode res = Some "METADATA_EXTRACTION_FAILED"
  else if (S mod 3 =? 0) || ((S mod 3 =? 2) && (59 <=? S)) || ((S mod 3 =? 1) && (133 <=? S))
  then exists r, res = Ok r /\ PngConversion.integrityValid r = true /\
                 PngConversion.expectedSize r = (S * 4 + 2) / 3 + 22 /\
                 PngConversion.base64Size r = 4 * ((S + 2) / 3) + 22
  else res = Throw (PngConversion.integrityError ((S * 4 + 2) / 3 + 22) (4 * ((S + 2) / 3) + 22)).
Proof.
  intros Hparse Hget S res. subst res.
  destruct (image_after_inv ops) as [_ Hrec].
  destruct (Hrec fileId entity Hget) as (_ & Hmime & Hsize & _).
  destruct (Z.ltb_spec S 26) as [Hshort | Hlong].
  - destruct (conversion_short_buffer PngConversion.nodeEncoder t body _ fileId entity
                Hparse Hget Hshort) as (cause & Hr & _).
    unfold PngConversion.pngConversionProcess. by rewrite Hr.
  - pose proof (conversion_integrity t body _ fileId entity Hparse Hget Hsize Hlong) as H.
    cbv zeta in H. rewrite Hmime in H.
    change (JsString.length (dataUrlPrefix "image/png")) with 22 in H.
    fold S in H. rewrite <- (padding_fits S Hlong).
    assert ((S * 4 + 2) / 3 + 22 + (3 - S mod 3) mod 3 = 4 * ((S + 2) / 3) + 22) as Heq
      by (pose proof (padded_size S ltac:(lia)); lia).
    rewrite Heq in H. exact H.
Qed.

Lemma stored_image_conversion_witness :
  PngConversion.pngConversionProcess "2024-01-01T00:00:01.000Z" convertRequest
    (imageStoreAfter [ImageUpload pngEnv (whole png1x1)])
  = Throw (PngConversion.integrityError 116 118).
Proof.
  exact (stored_image_conversion [ImageUpload pngEnv (whole png1x1)]
           "2024-01-01T00:00:01.000Z" convertRequest idA
           (FileUpload.mkEntity idA "upload.png" 70 "0.07 KB" 1 1 "1 x 1"
              (FileUpload.generatePreviewUrl png1x1 "image/png") "image/png" png1x1
              "2024-01-01T00:00:00.000Z")
           eq_refl eq_refl).
Defined.

(** X14. What a successful conversion answers: the identifier asked for, the
    data URL of the stored bytes under the stored type, its length as
    [base64Size], the time of the conversion, [integrityValid] true, and an
    empty [metadata] object, because the [finally] clause has emptied the
    object the response shares. *)
Theorem conversion_response t body st r :
  PngConversion.pngConversionProcess t body st = Ok r ->
  exists entity,
    parseUuidField "fileId" body = Some (PngConversion.fileId r) /\
    FileUpload.getById (PngConversion.fileId r) st = Some entity /\
    26 <= Buffer.length (FileUpload.buffer entity) /\
    PngConversion.base64String r
      = dataUrlPrefix (FileUpload.mimeType entity) +:+ Buffer.toBase64 (FileUpload.buffer entity) /\
    PngConversion.base64Size r = JsString.length (PngConversion.base64String r) /\
    PngConversion.integrityValid r = true /\
    PngConversion.convertedAt r = t /\
    PngConversion.metadata r = [].
Proof.
  intros Hres. pose proof (conversion_metadata_emptied _ _ _ _ _ Hres) as Hmeta.
  revert Hres. unfold PngConversion.pngConversionProcess, PngConversion.pngConversionWith.
  destruct (PngConversion.pngConversionBody PngConversion.nodeEncoder t body st)
    as [r0 | e |] eqn:Hbody; simpl.
  - intros [= <-].
    destruct (body_response _ _ _ _ _ Hbody)
      as (entity & data & Hparse & Hget & [= <-] & Hurl & Hsize & _ & Hvalid & Hat).
    exists entity. simpl in *. split_and!; try done.
    destruct (Z.lt_ge_cases (Buffer.length (FileUpload.buffer entity)) 26) as [Hlt | Hge];
      [| done].
    exfalso. revert Hbody. unfold PngConversion.pngConversionBody. rewrite Hparse, Hget.
    destruct (extract_short _ Hlt) as (cause & -> & _). done.
  - unfold PngConversion.conversionCatch. by repeat case_match.
  - done.
Qed.

Lemma conversion_response_witness :
  exists entity,
    parseUuidField "fileId" convertRequest = Some idA /\
    FileUpload.getById idA
      (imageStoreAfter [ImageUpload pngEnv (whole (png1x1 ++ zeros 2))]) = Some entity /\
    26 <= Buffer.length (FileUpload.buffer entity) /\
    dataUrlPrefix "image/png" +:+ Buffer.toBase64 (png1x1 ++ zeros 2)%list
      = dataUrlPrefix (FileUpload.mimeType entity) +:+ Buffer.toBase64 (FileUpload.buffer entity) /\
    118 = JsString.length (dataUrlPrefix "image/png" +:+ Buffer.toBase64 (png1x1 ++ zeros 2)%list) /\
    true = true /\
    "2024-01-01T00:00:01.000Z" = "2024-01-01T00:00:01.000Z" /\
    @nil (string * JsValue) = [].
Proof.
  exact (conversion_response "2024-01-01T00:00:01.000Z" convertRequest
           (imageStoreAfter [ImageUpload pngEnv (whole (png1x1 ++ zeros 2))])
           (PngConversion.mkResponse idA
              (dataUrlPrefix "image/png" +:+ Buffer.toBase64 (png1x1 ++ zeros 2)%list)
              118 118 true [] "2024-01-01T00:00:01.000Z")
           eq_refl).
Defined.

(** X15. The data URLs are lossless: the preview URL of an upload and the
    data URL of a conversion decode back to the very bytes they were made
    from, so two buffers with the same URL are equal. *)
Theorem data_urls_are_lossless :
  (forall b mime, dataUrlBytes mime (FileUpload.generatePreviewUrl b mime) = Some b) /\
  (forall b mime url, PngConversion.convertToBase64 PngConversion.nodeEncoder b mime = Ok url ->
     dataUrlBytes mime url = Some b) /\
  (forall b b' mime,
     FileUpload.generatePreviewUrl b mime = FileUpload.generatePreviewUrl b' mime -> b = b').
Proof.
  split_and!.
  - intros b mime. apply dataUrlBytes_encoded.
  - intros b mime url. unfold PngConversion.convertToBase64, PngConversion.nodeEncoder. simpl.
    intros [= <-]. rewrite data_url_prefixed. apply dataUrlBytes_encoded.
  - intros b b' mime Heq. apply (f_equal (dataUrlBytes mime)) in Heq.
    unfold FileUpload.generatePreviewUrl in Heq. rewrite !dataUrlBytes_encoded in Heq.
    by injection Heq.
Qed.

(** X16. Every failure of a conversion, whatever the encoder does, is a
    [ServiceError] with one of five codes, each with its status; MEMORY_ERROR
    is not among them.  VALIDATION_ERROR is the answer exactly when the body
    carries no well-formed [fileId], NOT_FOUND exactly when the store holds no
    record under it. *)
Theorem conversion_errors enc t body st :
  (forall e, PngConversion.pngConversionWith enc t body st = Throw e ->
     exists c s, codeAndStatus e = Some (c, s) /\ (c, s) ∈ conversionErrors) /\
  (thrownCode (PngConversion.pngConversionWith enc t body st) = Some "VALIDATION_ERROR"
   <-> parseUuidField "fileId" body = None) /\
  (thrownCode (PngConversion.pngConversionWith enc t body st) = Some "NOT_FOUND"
   <-> exists i, parseUuidField "fileId" body = Some i /\ FileUpload.getById i st = None).
Proof.
  pose proof (conversion_cases enc t body st) as Hcases.
  destruct (parseUuidField "fileId" body) as [i |] eqn:Hparse.
  - destruct (FileUpload.getById i st) as [entity |] eqn:Hget.
    + destruct Hcases as [[r ->] | [-> | (c & msg & d & -> & Hc)]]; simpl.
      * split_and!; [done | done |]. split; [done |]. intros (j & [= <-] & ?). congruence.
      * split_and!; [done | done |]. split; [done |]. intros (j & [= <-] & ?). congruence.
      * split_and!.
        -- intros e [= <-]. exists c, 500. split; [done |].
           table_cases Hc; subst c; in_table.
        -- split; [| done]. intros [= ->]. table_cases Hc; discriminate.
        -- split; [| intros (j & [= <-] & ?); congruence].
           intros [= ->]. table_cases Hc; discriminate.
    + rewrite Hcases. simpl. split_and!; [| done |].
      * intros e [= <-]. do 2 eexists. split; [done | in_table].
      * split; [by exists i | done].
  - rewrite Hcases. simpl. split_and!; [| done |].
    + intros e [= <-]. do 2 eexists. split; [done | in_table].
    + split; [done | by intros (i & ? & _)].
Qed.

(** X17. Metadata extraction by the length of the buffer: with fewer than 26
    bytes it fails, wrapped, on a [RangeError]; with 26 or more it returns the
    big-endian words at offsets 16 and 20 and the bytes at 24 and 25, and
    reports transparency for colour types 4 and 6 and otherwise when the text
    tRNS occurs anywhere in the file. *)
Theorem metadata_extraction (b : Buffer.t) :
  if Buffer.length b <? 26
  then exists cause, PngConversion.extractPNGMetadata b = Throw (PngConversion.metadataFailed cause) /\
                     isRangeError cause = true
  else exists w h d c,
    Buffer.readUInt32BE b 16 = Ok w /\ Buffer.readUInt32BE b 20 = Ok h /\
    Buffer.readUInt8 b 24 = Ok d /\ Buffer.readUInt8 b 25 = Ok c /\
    0 <= w < 2 ^ 32 /\ 0 <= h < 2 ^ 32 /\ 0 <= d < 256 /\ 0 <= c < 256 /\
    PngConversion.extractPNGMetadata b
    = Ok (PngConversion.mkMetadata w h d c
            ((c =? 4) || (c =? 6) || JsString.includes (Buffer.toLatin1 b) "tRNS")).
Proof.
  destruct (Z.ltb_spec (Buffer.length b) 26) as [Hshort | Hlong].
  - by apply extract_short.
  - destruct (readUInt32BE_ok b 16) as (w & Hw & Hwr); [lia | lia |].
    destruct (readUInt32BE_ok b 20) as (h & Hh & Hhr); [lia | lia |].
    destruct (readUInt8_ok b 24) as (d & Hd & Hdr); [lia |].
    destruct (readUInt8_ok b 25) as (c & Hc & Hcr); [lia |].
    exists w, h, d, c. split_and!; try done; try lia.
    unfold PngConversion.extractPNGMetadata. rewrite Hw, Hh, Hd, Hc. cbn [obind try_catch].
    unfold PngConversion.GRAYSCALE_ALPHA, PngConversion.RGBA.
    by destruct (c =? 4), (c =? 6).
Qed.

(** ** Structure validation, declaratively *)
Section Structure.
Import PdfUpload.

Lemma startxref_has_xref (s : string) :
  JsString.includes s "startxref" = true -> JsString.includes s "xref" = true.
Proof.
  rewrite !includes_spec. intros (pre & post & ->).
  exists (pre +:+ "start"), post. by rewrite (append_assoc pre "start").
Qed.

Lemma firstFailing_None checks content :
  firstFailing checks content = None <-> Forall (fun c => fst c content = true) checks.
Proof.
  induction checks as [| [present kind] checks IH]; simpl.
  - split; [by constructor | done].
  - destruct (present content) eqn:Hp.
    + rewrite IH. split; [by constructor | by inversion 1].
    + split; [done |]. inversion 1; simpl in *. congruence.
Qed.

End Structure.

(** X18. A buffer passes structural validation exactly when its text begins
    with the PDF header, contains [trailer], [startxref] and the end marker,
    and somewhere holds digits, white space, digits, white space and [obj].
    The separate test for [xref] adds nothing: [startxref] contains it. *)
Theorem pdf_structure_valid_iff (b : Buffer.t) :
  (PdfUpload.valid (PdfUpload.validatePDFStructure b) = true <->
     (exists rest, Buffer.toLatin1 b = "%PDF-" +:+ rest) /\
     (exists pre post, Buffer.toLatin1 b = pre +:+ "trailer" +:+ post) /\
     (exists pre post, Buffer.toLatin1 b = pre +:+ "startxref" +:+ post) /\
     (exists pre post, Buffer.toLatin1 b = pre +:+ "%%EOF" +:+ post) /\
     objHeaderSomewhere (Buffer.toLatin1 b)) /\
  (PdfUpload.valid (PdfUpload.validatePDFStructure b) = true <->
     PdfUpload.corruption (PdfUpload.validatePDFStructure b) = None).
Proof.
  destruct (validatePDFStructure_firstFailing b) as [Hkind Hvalid].
  split.
  - rewrite Hvalid, bool_decide_eq_true, firstFailing_None.
    rewrite <- startsWith_spec, <- !includes_spec, <- testObjHeader_spec.
    unfold pdfChecks. rewrite !Forall_cons, Forall_nil. simpl.
    split.
    + intros (? & ? & ? & ? & ? & ? & _). by split_and!.
    + intros (? & ? & ? & ? & ?). split_and!; try done. by apply startxref_has_xref.
  - rewrite Hvalid, bool_decide_eq_true, <- Hkind. unfold reportedKind.
    by destruct (PdfUpload.corruption (PdfUpload.validatePDFStructure b)).
Qed.


(** ** The access token *)


(** ** The gate while an upload is in flight *)
Section Gate.
Import PdfUpload.

Lemma cancel_keeps_gate params st :
  uploadInProgress (fst (pdfUploadCancel params st)) = uploadInProgress st.
Proof.
  unfold pdfUploadCancel. destruct (parseUuidField "id" params); [| done].
  case_match; [done |]. unfold delete. by case_match.
Qed.

Lemma busy_iff st : hasUploadInProgress st = true <-> uploadInProgress st <> None.
Proof. unfold hasUploadInProgress. by rewrite bool_decide_eq_true. Qed.

Lemma perform_keeps_gate st op u :
  uploadInProgress st = Some u -> uploadInProgress (perform st op) = Some u.
Proof.
  intros Hu. destruct op as [env req | params | params]; simpl.
  - rewrite process_blocked; [done |]. apply busy_iff. by rewrite Hu.
  - done.
  - by rewrite cancel_keeps_gate.
Qed.

Lemma fold_keeps_gate ops st u :
  uploadInProgress st = Some u -> uploadInProgress (fold_left perform ops st) = Some u.
Proof.
  revert st. induction ops as [| op ops IH]; intros st Hu; [done |].
  simpl. apply IH. by apply perform_keeps_gate.
Qed.

End Gate.

(** X21. In every reachable state of the document service at most one upload
    is in flight, and the gate holds the identifier of that upload: it is
    clear exactly when none is. *)
Theorem gate_names_the_upload_in_flight (s : PdfUpload.System) :
  PdfUpload.reachable s ->
  match PdfUpload.inflight s with
  | [] => PdfUpload.uploadInProgress (PdfUpload.store s) = None
  | [(env, _)] => PdfUpload.uploadInProgress (PdfUpload.store s) = Some (PdfUpload.uuid env)
  | _ => False
  end.
Proof.
  induction 1 as [| s s' _ IH Hstep]; [done |].
  destruct Hstep as [env req s st' Hb | env s st' e Hb
    | env req s pre post st' r Hfl Hf Hr | params s | params s]; simpl.
  - unfold PdfUpload.pdfUploadBegin in Hb.
    destruct (PdfUpload.hasUploadInProgress (PdfUpload.store s)) eqn:Hbusy; [done |].
    injection Hb as <-. apply gate_free_iff in Hbusy.
    destruct (PdfUpload.inflight s) as [| [env1 req1] [| ? ?]]; [done | congruence | done].
  - unfold PdfUpload.pdfUploadBegin in Hb.
    destruct (PdfUpload.hasUploadInProgress (PdfUpload.store s)); [| done].
    by injection Hb as <- _.
  - rewrite Hfl in IH.
    destruct pre as [| [env1 req1] [| [env2 req2] ?]]; destruct post as [| [env3 req3] ?];
      simpl in IH |- *; try done.
    by rewrite (finish_clears_gate _ _ _ _ _ Hf Hr).
  - done.
  - by rewrite cancel_keeps_gate.
Qed.

Lemma gate_names_the_upload_in_flight_witness :
  PdfUpload.uploadInProgress (PdfUpload.store demoSystem) = None.
Proof. exact (gate_names_the_upload_in_flight demoSystem demo_reachable). Defined.

(** X22. An upload whose request stream has emitted only data within the
    limit, with neither [end] nor [error], is pending and holds the gate.
    Until its stream settles no read or cancellation releases the gate, and
    every other upload is refused with UPLOAD_IN_PROGRESS. *)
Theorem pending_upload_holds_gate env hdrs evs st :
  PdfUpload.hasUploadInProgress st = false ->
  forallb isData evs = true ->
  bytesOf evs <= 50 * 1024 * 1024 ->
  PdfUpload.pdfUploadProcess env (mkRequest hdrs evs) st
    = (PdfUpload.setUploadInProgress (PdfUpload.uuid env) st, Hang) /\
  forall ops env' req',
    let later := fold_left perform ops (PdfUpload.setUploadInProgress (PdfUpload.uuid env) st) in
    PdfUpload.uploadInProgress later = Some (PdfUpload.uuid env) /\
    PdfUpload.pdfUploadProcess env' req' later = (later, Throw PdfUpload.uploadInProgressError).
Proof.
  intros Hfree Hd Hb. split.
  - unfold PdfUpload.pdfUploadProcess, PdfUpload.pdfUploadGuarded, PdfUpload.pdfUploadInner.
    rewrite Hfree.
    unfold PdfUpload.processMultipartUpload, processMultipartUpload. simpl.
    by rewrite (ingest_prefix PDF_UPLOAD_LIMITS "PDF" evs Hd Hb).
  - intros ops env' req' later.
    assert (PdfUpload.uploadInProgress later = Some (PdfUpload.uuid env)) as Hgate
      by (by apply fold_keeps_gate).
    split; [done |]. apply process_blocked, busy_iff. by rewrite Hgate.
Qed.

Lemma pending_upload_holds_gate_witness :
  PdfUpload.pdfUploadProcess (pdfEnv idA PdfUpload.ScanFirst) (mkRequest ∅ [DataEv pdfMinimal])
    PdfUpload.empty
    = (PdfUpload.setUploadInProgress idA PdfUpload.empty, Hang) /\
  forall ops env' req',
    let later := fold_left perform ops (PdfUpload.setUploadInProgress idA PdfUpload.empty) in
    PdfUpload.uploadInProgress later = Some idA /\
    PdfUpload.pdfUploadProcess env' req' later = (later, Throw PdfUpload.uploadInProgressError).
Proof.
  apply (pending_upload_holds_gate (pdfEnv idA PdfUpload.ScanFirst) ∅ [DataEv pdfMinimal]
           PdfUpload.empty); [reflexivity | reflexivity | vm_compute; discriminate].
Defined.

(** ** Image uploads: the errors *)

(** X23. Every failure of an image upload is a [ServiceError] with one of
    five codes, each with its status, and leaves the store as it was; a
    success adds one record and changes nothing else. *)
Theorem image_upload_errors env req st :
  match FileUpload.fileUploadProcess env req st with
  | (st', Throw e) =>
      st' = st /\ exists c s, codeAndStatus e = Some (c, s) /\ (c, s) ∈ imageUploadErrors
  | (st', Hang) => st' = st
  | (st', Ok _) =>
      FileUpload.count st' <= FileUpload.count st + 1 /\
      forall i, i <> FileUpload.uuid env -> FileUpload.getById i st' = FileUpload.getById i st
  end.
Proof.
  destruct (FileUpload.fileUploadProcess env req st) as [st' [payload | e |]] eqn:Hres.
  - destruct (image_upload_success env req st st' payload Hres)
      as (b & w & h & _ & _ & _ & _ & _ & -> & _).
    unfold FileUpload.count, FileUpload.getById. cbn [FileUpload.records]. split.
    + match goal with |- context [size (<[?k := ?x]> _)] =>
        pose proof (size_insert_le (FileUpload.records st) k x) end. lia.
    + intros i Hne. by apply lookup_insert_ne.
  - split; [by apply (png_failure_keeps_store env req st st' e) |].
    revert Hres. unfold FileUpload.fileUploadProcess, FileUpload.fileUploadBody.
    destruct (FileUpload.processMultipartUpload req) as [b | e0 |] eqn:Hin; [| | done].
    + destruct (Buffer.length b >? MAX_FILE_SIZE FILE_UPLOAD_LIMITS).
      { intros [= _ <-]. do 2 eexists. split; [done | in_table]. }
      destruct (FileUpload.isPNGFile b); cbn [negb];
        [| intros [= _ <-]; do 2 eexists; split; [done | in_table]].
      destruct (FileUpload.extractPNGDimensions b) as [[w h] | e1 |]; cbn [try_catch];
        [| intros [= _ <-]; do 2 eexists; split; [done | in_table] | done].
      destruct (Nat.leb_spec 100 (size (FileUpload.records st))) as [Hfull | Hroom].
      * rewrite png_add_full by done. intros [= _ <-]. do 2 eexists. split; [done | in_table].
      * rewrite png_add_room by done. done.
    + pose proof (ingestion_throws _ _ _ _ Hin) as [Hsvc _].
      pose proof (ingestion_error_status _ _ _ _ Hin) as Hst. unfold ingestionStatus in Hst.
      cbn [try_catch]. rewrite Hsvc. intros [= _ <-].
      table_cases Hst; destruct e0 as [| c m s d]; try done; simpl in Hst;
        injection Hst as -> ->; do 2 eexists; (split; [done | in_table]).
  - destruct (png_upload_cases env req st) as [[e Heq] | [Heq | (entity & Heq & _)]];
      rewrite Heq in Hres; [done | | done].
    by injection Hres as <-.
Qed.
